(** * Marisk site server (server.js): a shallow embedding and its properties

    The development follows [server.js]: the in-memory collections
    ([faqs], [gallery], [localesCache], [sessions]), the helpers
    ([serveStatic], [parseBody], [getLocale], [isAuthenticated]) and the
    request handlers, each as a function from the state before to the state
    after together with the response.

    Conventions of the embedding.
    - A JavaScript string is a Rocq [string]; a character stands for the
      UTF-16 code unit of the same number, so the development covers the
      code units below 256 and every string method below is exact on them.
    - A JavaScript number is an integer up to [2^53] in absolute value or
      an infinity; the other doubles are outside the development (see
      [Json] below).
    - [Date.now()], [Math.random()] and [crypto.randomBytes] are inputs of
      the function that calls them.
    - A thrown exception is the [Throw] outcome; the request callback turns
      it into the 500 response.
    - The file system is a finite map from absolute paths to nodes, with the
      set of paths on which a write fails. *)

From Stdlib Require Import ZArith Lia Ascii String.
From Stdlib Require Import DecimalString DecimalZ DecimalPos DecimalFacts.
From Stdlib.Strings Require Import Byte.
From stdpp Require Import base strings gmap list.

Local Open Scope string_scope.
Local Open Scope Z_scope.

(** ** Strings: the methods of [String.prototype] the server calls *)

Module Str.

(** [!s] is true for the empty string only. *)
Definition truthy (s : string) : bool := negb (String.eqb s EmptyString).

(** [s.split(sep)] for a one-character separator. *)
Fixpoint split (sep : ascii) (s : string) : list string :=
  match s with
  | EmptyString => [EmptyString]
  | String c rest =>
      if Ascii.eqb c sep then EmptyString :: split sep rest
      else match split sep rest with
           | [] => [String c EmptyString]
           | w :: ws => String c w :: ws
           end
  end.

(** [p] is a prefix of [s]. *)
Fixpoint prefix (p s : string) : bool :=
  match p, s with
  | EmptyString, _ => true
  | String a p', String b s' => Ascii.eqb a b && prefix p' s'
  | String _ _, EmptyString => false
  end.

(** What follows the prefix [p] in [s], when [s] starts with [p]. *)
Fixpoint strip_prefix (p s : string) : option string :=
  match p, s with
  | EmptyString, _ => Some s
  | String a p', String b s' => if Ascii.eqb a b then strip_prefix p' s' else None
  | String _ _, EmptyString => None
  end.

(** [s.startsWith(p)]. *)
Definition startsWith (s p : string) : bool := prefix p s.

(** [s.includes(sub)]. *)
Fixpoint includes (s sub : string) : bool :=
  prefix sub s ||
  match s with
  | EmptyString => false
  | String _ rest => includes rest sub
  end.

(** White space and line terminators of ECMAScript among the code units
    below 256: TAB, LF, VT, FF, CR, SP and NBSP. *)
Definition is_white (c : ascii) : bool :=
  let n := nat_of_ascii c in
  (Nat.leb 9 n && Nat.leb n 13) || Nat.eqb n 32 || Nat.eqb n 160.

Fixpoint trimStart (s : string) : string :=
  match s with
  | EmptyString => EmptyString
  | String c rest => if is_white c then trimStart rest else s
  end.

(** [s.trim()]. *)
Definition trim (s : string) : string :=
  String.rev (trimStart (String.rev (trimStart s))).

(** The lower-case mapping of Unicode on the code units below 256: the
    letters A-Z and the capital letters of 0xC0-0xDE, 0xD7 excepted. *)
Definition lower_char (c : ascii) : ascii :=
  let n := nat_of_ascii c in
  if (Nat.leb 65 n && Nat.leb n 90)
     || (Nat.leb 192 n && Nat.leb n 222 && negb (Nat.eqb n 215))
  then ascii_of_nat (n + 32) else c.

(** [s.toLowerCase()]. *)
Fixpoint toLowerCase (s : string) : string :=
  match s with
  | EmptyString => EmptyString
  | String c rest => String (lower_char c) (toLowerCase rest)
  end.

(** [s.endsWith(p)]. *)
Definition endsWith (s p : string) : bool :=
  prefix (String.rev p) (String.rev s).

(** [s.replace(pat, rep)] for a string pattern: the first occurrence. *)
Fixpoint replace (s pat rep : string) : string :=
  match strip_prefix pat s with
  | Some after => rep +:+ after
  | None =>
      match s with
      | EmptyString => EmptyString
      | String c rest => String c (replace rest pat rep)
      end
  end.

Definition hex_digit (n : N) : ascii :=
  (if n <? 10 then ascii_of_N (48 + n) else ascii_of_N (87 + n))%N.

(** [buf.toString('hex')]. *)
Fixpoint hex (bs : list byte) : string :=
  match bs with
  | [] => EmptyString
  | b :: rest =>
      let n := Byte.to_N b in
      String (hex_digit (n / 16)) (String (hex_digit (n mod 16)) (hex rest))
  end.

End Str.

(** ** Paths: [path.join], [path.resolve] and [path.extname] of the POSIX
    flavour of Node's [path] module *)

Module Path.

Definition slash : ascii := ascii_of_nat 47.
Definition dot : ascii := ascii_of_nat 46.

Fixpoint join_with (sep : string) (l : list string) : string :=
  match l with
  | [] => EmptyString
  | [x] => x
  | x :: rest => x +:+ sep +:+ join_with sep rest
  end.

(** The segment stack of [normalizeString(path, allowAboveRoot)]: empty
    segments and [.] are dropped, [..] removes the segment before it when
    there is one that is not itself [..], and is kept only above the
    root of a relative path. [acc] is the stack, top first. *)
Fixpoint normalize_segments (allowAboveRoot : bool) (acc segs : list string)
  : list string :=
  match segs with
  | [] => rev acc
  | seg :: rest =>
      if String.eqb seg EmptyString || String.eqb seg "."
      then normalize_segments allowAboveRoot acc rest
      else if String.eqb seg ".." then
        match acc with
        | top :: below =>
            if String.eqb top ".."
            then normalize_segments allowAboveRoot
                   (if allowAboveRoot then seg :: acc else acc) rest
            else normalize_segments allowAboveRoot below rest
        | [] =>
            normalize_segments allowAboveRoot
              (if allowAboveRoot then [seg] else []) rest
        end
      else normalize_segments allowAboveRoot (seg :: acc) rest
  end.

Definition normalizeString (p : string) (allowAboveRoot : bool) : string :=
  join_with "/" (normalize_segments allowAboveRoot [] (Str.split slash p)).

Definition isAbsolute (p : string) : bool := Str.prefix "/" p.

(** [path.normalize(p)]. *)
Definition normalize (p : string) : string :=
  if String.eqb p EmptyString then "." else
  let trailing := Str.endsWith p "/" in
  let body := normalizeString p (negb (isAbsolute p)) in
  if String.eqb body EmptyString then
    if isAbsolute p then "/" else if trailing then "./" else "."
  else
    let body := if trailing then body +:+ "/" else body in
    if isAbsolute p then "/" +:+ body else body.

(** [path.join(...args)]. *)
Definition join (args : list string) : string :=
  match List.filter Str.truthy args with
  | [] => "."
  | parts => normalize (join_with "/" parts)
  end.

(** [path.resolve(p)] for one argument; [cwd] is [process.cwd()]. *)
Definition resolve (cwd p : string) : string :=
  let resolvedPath :=
    if String.eqb p EmptyString then cwd +:+ "/"
    else if isAbsolute p then p +:+ "/"
    else cwd +:+ "/" +:+ p +:+ "/" in
  let resolvedAbsolute := isAbsolute resolvedPath in
  let body := normalizeString resolvedPath (negb resolvedAbsolute) in
  if resolvedAbsolute then "/" +:+ body
  else if String.eqb body EmptyString then "." else body.

(** The last non-empty segment of a path. *)
Definition basename (p : string) : string :=
  List.last (List.filter Str.truthy (Str.split slash p)) EmptyString.

(** The part of [base] from its last dot on, when there is a dot. *)
Fixpoint from_last_dot (base : string) : option string :=
  match base with
  | EmptyString => None
  | String c rest =>
      match from_last_dot rest with
      | Some e => Some e
      | None => if Ascii.eqb c dot then Some base else None
      end
  end.

(** [path.extname(p)]: empty when the base name has no dot, when its only
    dot comes first, and for [..]. *)
Definition extname (p : string) : string :=
  let base := basename p in
  match from_last_dot base with
  | None => EmptyString
  | Some e =>
      if String.eqb e base || String.eqb base ".." then EmptyString else e
  end.

End Path.

(** ** JSON values, [JSON.stringify(v, null, 2)] and [JSON.parse]

    An object is the list of its own properties in insertion order (the
    reordering of integer-like keys is not modelled). A number is a double
    in JavaScript; the fragment has the doubles on which the server's
    operations are plain integer arithmetic, and the two infinities:
    - an integer literal up to [2^53] in absolute value is read as the
      double of that value, and [Number::toString] prints it digit by
      digit;
    - an integer literal from [2^1024 - 2^970] on is rounded to an
      infinity in memory, [JSON.stringify] prints an infinity as [null],
      and [String] as [Infinity];
    - an integer literal in between is rounded to a double that is not
      printed digit by digit, and is outside the fragment, as is a
      document with a fraction, an exponent or an escape above [\u00ff]:
      on these [parse] answers [None]. *)

#[local] Set Warnings "-register-all".

Inductive number : Type :=
| Int (z : Z)
| Inf (negative : bool).

Inductive json : Type :=
| JNull
| JBool (b : bool)
| JNum (n : number)
| JStr (s : string)
| JArr (items : list json)
| JObj (fields : list (string * json)).

Module Json.

(** [!!v]. *)
Definition truthy (v : json) : bool :=
  match v with
  | JNull => false
  | JBool b => b
  | JNum (Int z) => negb (z =? 0)
  | JNum (Inf _) => true
  | JStr s => Str.truthy s
  | JArr _ | JObj _ => true
  end.

(** Own property lookup. *)
Fixpoint assoc (k : string) (fields : list (string * json)) : option json :=
  match fields with
  | [] => None
  | (k', v) :: rest => if String.eqb k k' then Some v else assoc k rest
  end.

(** [obj[k] = v]: an existing property keeps its place. *)
Fixpoint set (k : string) (v : json) (fields : list (string * json))
  : list (string * json) :=
  match fields with
  | [] => [(k, v)]
  | (k', v') :: rest =>
      if String.eqb k k' then (k', v) :: rest else (k', v') :: set k v rest
  end.

Definition of_members (ms : list (string * json)) : list (string * json) :=
  fold_left (fun acc kv => set (fst kv) (snd kv) acc) ms [].

(** *** Printing *)

Definition hex4 (n : N) : string :=
  String (Str.hex_digit (n / 4096))
    (String (Str.hex_digit ((n / 256) mod 16))
       (String (Str.hex_digit ((n / 16) mod 16))
          (String (Str.hex_digit (n mod 16)) EmptyString))).

Definition dq : string := String (ascii_of_nat 34) EmptyString.
Definition bs : string := String (ascii_of_nat 92) EmptyString.
Definition nl : string := String (ascii_of_nat 10) EmptyString.

(** QuoteJSONString, one code unit. *)
Definition escape_char (c : ascii) : string :=
  let n := N_of_ascii c in
  if (n =? 8)%N then bs +:+ "b"
  else if (n =? 9)%N then bs +:+ "t"
  else if (n =? 10)%N then bs +:+ "n"
  else if (n =? 12)%N then bs +:+ "f"
  else if (n =? 13)%N then bs +:+ "r"
  else if (n =? 34)%N then bs +:+ dq
  else if (n =? 92)%N then bs +:+ bs
  else if (n <? 32)%N then bs +:+ "u" +:+ hex4 n
  else String c EmptyString.

Fixpoint escape (s : string) : string :=
  match s with
  | EmptyString => EmptyString
  | String c rest => escape_char c +:+ escape rest
  end.

Definition quote (s : string) : string := dq +:+ escape s +:+ dq.

(** Number::toString on an integer that a double holds exactly and that
    is below [10^21] in absolute value: its decimal digits. In the
    development these are the integers up to [2^53] of JSON data and the
    values of [Date.now()]. *)
Definition print_Z (n : Z) : string := NilZero.string_of_int (Z.to_int n).

(** SerializeJSONProperty on a number: a number that is not finite is
    printed as [null]. *)
Definition print_number (n : number) : string :=
  match n with
  | Int z => print_Z z
  | Inf _ => "null"
  end.

(** The indentation of nesting depth [d]: [d] times the gap. *)
Fixpoint indent (d : nat) : string :=
  match d with
  | O => EmptyString
  | S d' => String " " (String " " (indent d'))
  end.

(** The elements of an array after the first and its closing bracket,
    for an array at depth [d] whose elements [pr] prints. *)
Definition print_items (pr : json -> string) (d : nat) : list json -> string :=
  fix items (l : list json) : string :=
    match l with
    | [] => nl +:+ indent d +:+ "]"
    | y :: ys => "," +:+ nl +:+ indent (S d) +:+ pr y +:+ items ys
    end.

(** The same for the properties of an object. *)
Definition print_members (pr : json -> string) (d : nat)
  : list (string * json) -> string :=
  fix members (l : list (string * json)) : string :=
    match l with
    | [] => nl +:+ indent d +:+ "}"
    | (k, y) :: ys =>
        "," +:+ nl +:+ indent (S d) +:+ quote k +:+ ": " +:+ pr y +:+ members ys
    end.

(** SerializeJSONProperty with the gap of two spaces at depth [d]. *)
Fixpoint print (d : nat) (v : json) : string :=
  match v with
  | JNull => "null"
  | JBool true => "true"
  | JBool false => "false"
  | JNum n => print_number n
  | JStr s => quote s
  | JArr [] => "[]"
  | JArr (x :: xs) =>
      "[" +:+ nl +:+ indent (S d) +:+ print (S d) x +:+
      print_items (print (S d)) d xs
  | JObj [] => "{}"
  | JObj ((k, x) :: xs) =>
      "{" +:+ nl +:+ indent (S d) +:+ quote k +:+ ": " +:+ print (S d) x +:+
      print_members (print (S d)) d xs
  end.

(** [JSON.stringify(v, null, 2)]. *)
Definition stringify2 (v : json) : string := print 0 v.

(** *** Parsing *)

(** JSON white space: TAB, LF, CR and SP. *)
Definition is_ws (c : ascii) : bool :=
  let n := N_of_ascii c in
  ((n =? 9) || (n =? 10) || (n =? 13) || (n =? 32))%N.

Fixpoint skip_ws (s : string) : string :=
  match s with
  | EmptyString => EmptyString
  | String c rest => if is_ws c then skip_ws rest else s
  end.

Definition hex_val (c : ascii) : option N :=
  let n := N_of_ascii c in
  (if (48 <=? n) && (n <=? 57) then Some (n - 48)
   else if (97 <=? n) && (n <=? 102) then Some (n - 87)
   else if (65 <=? n) && (n <=? 70) then Some (n - 55)
   else None)%N.

(** The character an escape letter stands for, [\u] apart. *)
Definition simple_escape (e : ascii) : option ascii :=
  let n := N_of_ascii e in
  (if n =? 34 then Some e
   else if n =? 92 then Some e
   else if n =? 47 then Some e
   else if n =? 98 then Some (ascii_of_N 8)
   else if n =? 102 then Some (ascii_of_N 12)
   else if n =? 110 then Some (ascii_of_N 10)
   else if n =? 114 then Some (ascii_of_N 13)
   else if n =? 116 then Some (ascii_of_N 9)
   else None)%N.

Definition cons_char (c : ascii) (r : option (string * string))
  : option (string * string) :=
  match r with
  | Some (str, rest) => Some (String c str, rest)
  | None => None
  end.

(** The characters of a string literal after its opening quote, up to
    the closing quote, and the input after it. *)
Fixpoint parse_chars (s : string) : option (string * string) :=
  match s with
  | EmptyString => None
  | String c rest =>
      let n := N_of_ascii c in
      if (n =? 34)%N then Some (EmptyString, rest)
      else if (n =? 92)%N then
        match rest with
        | EmptyString => None
        | String e rest1 =>
            match simple_escape e with
            | Some ch => cons_char ch (parse_chars rest1)
            | None =>
                if (N_of_ascii e =? 117)%N then
                  match rest1 with
                  | String h1 (String h2 (String h3 (String h4 rest2))) =>
                      match hex_val h1, hex_val h2, hex_val h3, hex_val h4 with
                      | Some a, Some b, Some c', Some d =>
                          let code := (a * 4096 + b * 256 + c' * 16 + d)%N in
                          if (code <? 256)%N
                          then cons_char (ascii_of_N code) (parse_chars rest2)
                          else None
                      | _, _, _, _ => None
                      end
                  | _ => None
                  end
                else None
            end
        end
      else if (n <? 32)%N then None
      else cons_char c (parse_chars rest)
  end.

Definition is_digit (c : ascii) : bool :=
  let n := N_of_ascii c in ((48 <=? n) && (n <=? 57))%N.

Fixpoint span_digits (s : string) : string * string :=
  match s with
  | EmptyString => (EmptyString, EmptyString)
  | String c rest =>
      if is_digit c
      then let '(ds, r) := span_digits rest in (String c ds, r)
      else (EmptyString, s)
  end.

(** The start of a fraction or an exponent. *)
Definition starts_fraction (s : string) : bool :=
  match s with
  | EmptyString => false
  | String c _ =>
      let n := N_of_ascii c in ((n =? 46) || (n =? 101) || (n =? 69))%N
  end.

Definition leading_zero (ds : string) : bool :=
  match ds with
  | String c (String _ _) => (N_of_ascii c =? 48)%N
  | _ => false
  end.

(** The largest integer up to which every integer is a double, and the
    least integer that is rounded to [Infinity]: the largest double,
    [2^1024 - 2^971], and half the gap to the next power of two. *)
Definition max_exact : Z := 2 ^ 53.
Definition overflow : Z := 2 ^ 1024 - 2 ^ 970.

(** The double an integer literal of value [z] is read as. *)
Definition number_of_literal (z : Z) : option number :=
  if Z.abs z <=? max_exact then Some (Int z)
  else if overflow <=? Z.abs z then Some (Inf (z <? 0))
  else None.

(** The integer literal at the head of [s]: its value and what follows.
    A literal with a fraction or an exponent is outside the fragment. *)
Definition parse_number (s : string) : option (Z * string) :=
  let '(neg, s1) :=
    match s with
    | String c r => if (N_of_ascii c =? 45)%N then (true, r) else (false, s)
    | EmptyString => (false, s)
    end in
  let '(ds, rest) := span_digits s1 in
  if leading_zero ds || starts_fraction rest then None
  else match NilZero.uint_of_string ds with
       | Some u => Some (if neg then (- Z.of_uint u)%Z else Z.of_uint u, rest)
       | None => None
       end.

Definition literal (lit : string) (v : json) (s : string)
  : option (json * string) :=
  match Str.strip_prefix lit s with
  | Some rest => Some (v, rest)
  | None => None
  end.

Fixpoint parse_value (fuel : nat) (s : string) : option (json * string) :=
  match fuel with
  | O => None
  | S fuel' =>
      match skip_ws s with
      | EmptyString => None
      | String c rest as s' =>
          let n := N_of_ascii c in
          if (n =? 91)%N then
            match skip_ws rest with
            | String c1 r1 =>
                if (N_of_ascii c1 =? 93)%N then Some (JArr [], r1)
                else match parse_elements fuel' rest with
                     | Some (l, r) => Some (JArr l, r)
                     | None => None
                     end
            | EmptyString => None
            end
          else if (n =? 123)%N then
            match skip_ws rest with
            | String c1 r1 =>
                if (N_of_ascii c1 =? 125)%N then Some (JObj [], r1)
                else match parse_members fuel' rest with
                     | Some (ms, r) => Some (JObj (of_members ms), r)
                     | None => None
                     end
            | EmptyString => None
            end
          else if (n =? 34)%N then
            match parse_chars rest with
            | Some (str, r) => Some (JStr str, r)
            | None => None
            end
          else if (n =? 110)%N then literal "null" JNull s'
          else if (n =? 116)%N then literal "true" (JBool true) s'
          else if (n =? 102)%N then literal "false" (JBool false) s'
          else match parse_number s' with
               | Some (z, r) =>
                   match number_of_literal z with
                   | Some n => Some (JNum n, r)
                   | None => None
                   end
               | None => None
               end
      end
  end
with parse_elements (fuel : nat) (s : string) : option (list json * string) :=
  match fuel with
  | O => None
  | S fuel' =>
      match parse_value fuel' s with
      | None => None
      | Some (v, r) =>
          match skip_ws r with
          | String c r' =>
              if (N_of_ascii c =? 44)%N then
                match parse_elements fuel' r' with
                | Some (vs, r'') => Some (v :: vs, r'')
                | None => None
                end
              else if (N_of_ascii c =? 93)%N then Some ([v], r')
              else None
          | EmptyString => None
          end
      end
  end
with parse_members (fuel : nat) (s : string)
  : option (list (string * json) * string) :=
  match fuel with
  | O => None
  | S fuel' =>
      match skip_ws s with
      | String q r0 =>
          if (N_of_ascii q =? 34)%N then
            match parse_chars r0 with
            | Some (k, r1) =>
                match skip_ws r1 with
                | String c r2 =>
                    if (N_of_ascii c =? 58)%N then
                      match parse_value fuel' r2 with
                      | Some (v, r3) =>
                          match skip_ws r3 with
                          | String c' r4 =>
                              if (N_of_ascii c' =? 44)%N then
                                match parse_members fuel' r4 with
                                | Some (ms, r5) => Some ((k, v) :: ms, r5)
                                | None => None
                                end
                              else if (N_of_ascii c' =? 125)%N
                              then Some ([(k, v)], r4)
                              else None
                          | EmptyString => None
                          end
                      | None => None
                      end
                    else None
                | EmptyString => None
                end
            | None => None
            end
          else None
      | EmptyString => None
      end
  end.

(** [JSON.parse(s)]; [None] is the SyntaxError, and the answer on a
    document outside the fragment. *)
Definition parse (s : string) : option json :=
  match parse_value (S (String.length s)) s with
  | Some (v, r) =>
      match skip_ws r with
      | EmptyString => Some v
      | String _ _ => None
      end
  | None => None
  end.

(** *** Values that [JSON.parse] can yield: no object has two properties
    of the same name, and an integer is at most [2^53] in absolute value *)

Definition distinct_keys (l : list (string * json)) : bool :=
  bool_decide (NoDup (map fst l)).

Definition readable (n : number) : bool :=
  match n with
  | Int z => Z.abs z <=? max_exact
  | Inf _ => true
  end.

Fixpoint wf (v : json) : bool :=
  match v with
  | JNum n => readable n
  | JArr l => forallb wf l
  | JObj l => distinct_keys l && forallb (fun kv => wf (snd kv)) l
  | _ => true
  end.

(** *** Values without a number that is not finite *)

Fixpoint finite (v : json) : bool :=
  match v with
  | JNum (Inf _) => false
  | JArr l => forallb finite l
  | JObj l => forallb (fun kv => finite (snd kv)) l
  | _ => true
  end.

(** *** Values that [JSON.stringify] prints and [JSON.parse] reads back:
    those of [wf] that are [finite] *)

Fixpoint exact (v : json) : bool :=
  match v with
  | JNum (Int z) => Z.abs z <=? max_exact
  | JNum (Inf _) => false
  | JArr l => forallb exact l
  | JObj l => distinct_keys l && forallb (fun kv => exact (snd kv)) l
  | _ => true
  end.

(** Fuel that lets [parse_value] read back the text of [v]. *)
Fixpoint need (v : json) : nat :=
  match v with
  | JArr l => S (list_sum (map (fun x => S (need x)) l))
  | JObj l => S (list_sum (map (fun kv => S (need (snd kv))) l))
  | _ => 1
  end.

End Json.

(** ** [Buffer.from(s, 'base64')]

    Node decodes leniently: a character outside both base64 alphabets is
    skipped, the first [=] ends the input, and an incomplete last group
    gives the bytes its sextets cover. *)

Module Base64.

Definition unbase64 (c : ascii) : option N :=
  let n := N_of_ascii c in
  (if (65 <=? n) && (n <=? 90) then Some (n - 65)
   else if (97 <=? n) && (n <=? 122) then Some (n - 71)
   else if (48 <=? n) && (n <=? 57) then Some (n + 4)
   else if (n =? 43) || (n =? 45) then Some 62
   else if (n =? 47) || (n =? 95) then Some 63
   else None)%N.

Fixpoint sextets (s : string) : list N :=
  match s with
  | EmptyString => []
  | String c rest =>
      if (N_of_ascii c =? 61)%N then []
      else match unbase64 c with
           | Some v => v :: sextets rest
           | None => sextets rest
           end
  end.

Definition to_byte (n : N) : byte :=
  match Byte.of_N (n mod 256) with
  | Some b => b
  | None => x00
  end.

Fixpoint bytes_of (l : list N) : list byte :=
  match l with
  | a :: b :: c :: d :: rest =>
      to_byte (a * 4 + b / 16)
      :: to_byte ((b mod 16) * 16 + c / 4)
      :: to_byte ((c mod 4) * 64 + d)
      :: bytes_of rest
  | [a; b; c] =>
      [to_byte (a * 4 + b / 16); to_byte ((b mod 16) * 16 + c / 4)]
  | [a; b] => [to_byte (a * 4 + b / 16)]
  | _ => []
  end%N.

Definition decode (s : string) : list byte := bytes_of (sextets s).

End Base64.

(** ** The file system *)

Inductive node : Type :=
| Dir
| File (data : list byte).

Record FS : Type := {
  nodes : gmap string node;
  (** the paths on which [writeFileSync] throws (missing directory,
      permissions, full disk) *)
  failing : gset string
}.

(** The outcome of a call that may throw. *)
Inductive outcome (A : Type) : Type :=
| Ok (a : A)
| Throw.
Arguments Ok {A} a.
Arguments Throw {A}.

(** What [fs.readFile] does with its callback. *)
Inductive read_result : Type :=
| ReadThrows
| ReadError
| ReadData (data : list byte).

Module Fs.

Definition existsSync (fs : FS) (p : string) : bool :=
  match nodes fs !! p with Some _ => true | None => false end.

(** [fs.statSync(p).isDirectory()] on an existing path. *)
Definition isDirectory (fs : FS) (p : string) : bool :=
  match nodes fs !! p with Some Dir => true | _ => false end.

Definition readFileSync (fs : FS) (p : string) : outcome (list byte) :=
  match nodes fs !! p with
  | Some (File data) => Ok data
  | _ => Throw
  end.

Definition writeFileSync (fs : FS) (p : string) (data : list byte)
  : outcome FS :=
  if bool_decide (p ∈ failing fs) then Throw
  else match nodes fs !! p with
       | Some Dir => Throw
       | _ => Ok {| nodes := <[p := File data]> (nodes fs);
                    failing := failing fs |}
       end.

(** A path with a NUL character is refused before any access. *)
Fixpoint has_nul (p : string) : bool :=
  match p with
  | EmptyString => false
  | String c rest => (N_of_ascii c =? 0)%N || has_nul rest
  end.

(** [fs.readFile(p, 'utf8', callback)]: the call throws at once on a path
    with a NUL character; otherwise the callback receives an error or the
    contents. *)
Definition readFile (fs : FS) (p : string) : read_result :=
  if has_nul p then ReadThrows
  else match nodes fs !! p with
       | Some (File data) => ReadData data
       | _ => ReadError
       end.

(** The bytes of a text written with the default encoding, and the text
    of bytes read with ['utf8']. UTF-8 has one byte, of the same number,
    for a code unit below 128, and there the two functions are exact. For
    a code unit from 128 to 255 a real disk holds two bytes; a file of the
    model then holds the code units of its text, one each, so that what is
    written is read back as on a real disk. *)
Definition encode (s : string) : list byte := list_byte_of_string s.
Definition decode (b : list byte) : string := string_of_list_byte b.

End Fs.

(** ** The server state *)

(** [__dirname] and [process.cwd()]. *)
Record Config : Type := {
  dirname : string;
  cwd : string
}.

Definition publicDir (cfg : Config) : string := Path.join [dirname cfg; "public"].
Definition dataDir (cfg : Config) : string := Path.join [dirname cfg; "data"].

Record session : Type := { timestamp : Z }.

(** [sessions] and [localesCache] are object literals, so a key they do
    not own is looked up in [Object.prototype]. Its members are the eleven
    built-in functions below and the accessor [__proto__], which answers
    [Object.prototype] itself. The server can store one thing there, a
    [timestamp] property, on a member function or on the prototype. *)
Record ObjectPrototype : Type := {
  proto_timestamp : option Z;
  member_timestamp : gmap string Z
}.

Definition member_functions : list string :=
  [ "constructor"; "__defineGetter__"; "__defineSetter__"; "hasOwnProperty";
    "__lookupGetter__"; "__lookupSetter__"; "isPrototypeOf";
    "propertyIsEnumerable"; "toString"; "valueOf"; "toLocaleString" ].

(** What an expression of the server can evaluate to besides JSON data. *)
Inductive jsval : Type :=
| VJson (j : json)
| VMember (name : string)
| VObjectPrototype.

(** The value of [o[k]] for an object literal [o] without own property [k]. *)
Definition inherited (op : ObjectPrototype) (k : string) : option jsval :=
  if bool_decide (k ∈ member_functions) then Some (VMember k)
  else if String.eqb k "__proto__" then Some VObjectPrototype
  else if String.eqb k "timestamp"
       then match proto_timestamp op with
            | Some t => Some (VJson (JNum (Int t)))
            | None => None
            end
  else None.

Definition truthy_val (v : jsval) : bool :=
  match v with
  | VJson j => Json.truthy j
  | VMember _ | VObjectPrototype => true
  end.

Record State : Type := {
  faqs : list json;
  gallery : list json;
  localesCache : gmap string json;
  sessions : gmap string session;
  objectPrototype : ObjectPrototype;
  disk : FS
}.

Definition set_faqs (l : list json) (st : State) : State :=
  {| faqs := l; gallery := gallery st; localesCache := localesCache st;
     sessions := sessions st; objectPrototype := objectPrototype st;
     disk := disk st |}.
Definition set_gallery (l : list json) (st : State) : State :=
  {| faqs := faqs st; gallery := l; localesCache := localesCache st;
     sessions := sessions st; objectPrototype := objectPrototype st;
     disk := disk st |}.
Definition set_localesCache (c : gmap string json) (st : State) : State :=
  {| faqs := faqs st; gallery := gallery st; localesCache := c;
     sessions := sessions st; objectPrototype := objectPrototype st;
     disk := disk st |}.
Definition set_sessions (s : gmap string session) (st : State) : State :=
  {| faqs := faqs st; gallery := gallery st; localesCache := localesCache st;
     sessions := s; objectPrototype := objectPrototype st; disk := disk st |}.
Definition set_objectPrototype (op : ObjectPrototype) (st : State) : State :=
  {| faqs := faqs st; gallery := gallery st; localesCache := localesCache st;
     sessions := sessions st; objectPrototype := op; disk := disk st |}.
Definition set_disk (fs : FS) (st : State) : State :=
  {| faqs := faqs st; gallery := gallery st; localesCache := localesCache st;
     sessions := sessions st; objectPrototype := objectPrototype st;
     disk := fs |}.

(** ** Computations on the state that may throw *)

Definition M (A : Type) : Type := State -> State * outcome A.

Definition ret {A} (a : A) : M A := fun st => (st, Ok a).
Definition bind {A B} (m : M A) (k : A -> M B) : M B :=
  fun st => match m st with
            | (st', Ok a) => k a st'
            | (st', Throw) => (st', Throw)
            end.
Definition lift {A} (o : outcome A) : M A := fun st => (st, o).
Definition gets {A} (f : State -> A) : M A := fun st => (st, Ok (f st)).
Definition modify (f : State -> State) : M unit := fun st => (f st, Ok tt).
(** [try { m } catch (e) { handler }]; the state reached by the time of
    the throw is kept. *)
Definition try_catch {A} (m : M A) (handler : M A) : M A :=
  fun st => match m st with
            | (st', Throw) => handler st'
            | r => r
            end.

Declare Scope server_scope.
Delimit Scope server_scope with server.
Notation "x <- m ;; k" := (bind m (fun x => k))
  (at level 100, m at next level, right associativity) : server_scope.
Notation "m ;;; k" := (bind m (fun _ => k))
  (at level 100, right associativity) : server_scope.

(** ** Responses *)

Inductive response : Type :=
| SendJson (status : Z) (v : jsval)
    (** [sendJson(res, status, v)]: JSON with the cross-origin headers *)
| SendFile (contentType : string) (data : list byte)
    (** status 200 with the contents of a file *)
| SendText (status : Z) (text : string)
    (** a plain-text answer *)
| Preflight.
    (** status 204 with the cross-origin headers and no body *)

Definition sendJson (status : Z) (j : json) : response := SendJson status (VJson j).

Definition error_body (msg : string) : json := JObj [("error", JStr msg)].

(** ** Property access and coercions on JSON data *)

(** [v[k]] for the keys the server reads ([question], [answer], [lang],
    [username], [password], [before], [after], [title], [description],
    [chat_no_answer]), none of which a prototype provides: a TypeError on
    [null], the own property of an object, [undefined] otherwise. *)
Definition field (v : json) (k : string) : outcome (option json) :=
  match v with
  | JNull => Throw
  | JObj fields => Ok (Json.assoc k fields)
  | _ => Ok None
  end.

(** The same on a value that may be a prototype member. *)
Definition prop (v : jsval) (k : string) : outcome (option json) :=
  match v with
  | VJson j => field j k
  | VMember _ | VObjectPrototype => Ok None
  end.

(** [!!v] where [v] may be [undefined] or [null]. *)
Definition truthy_opt (v : option json) : bool :=
  match v with
  | Some j => Json.truthy j
  | None => false
  end.

(** [v || d]. *)
Definition or_else (v : option json) (d : json) : json :=
  match v with
  | Some j => if Json.truthy j then j else d
  | None => d
  end.

(** [v.trim()]: only a string has the method. *)
Definition call_trim (v : json) : outcome string :=
  match v with
  | JStr s => Ok (Str.trim s)
  | _ => Throw
  end.

(** [String(v)], the coercion [RegExp.prototype.exec] applies. An array
    is joined with commas, its elements coerced in turn and [null]
    counting for the empty text. An object without own property
    [toString] inherits the method of [Object.prototype]; with one, there
    is nothing callable under that name (no JSON value is a function), the
    [valueOf] it has or inherits yields no primitive value either, and
    the coercion throws a TypeError. *)
Fixpoint to_String (v : json) : outcome string :=
  match v with
  | JNull => Ok "null"
  | JBool true => Ok "true"
  | JBool false => Ok "false"
  | JNum (Int z) => Ok (Json.print_Z z)
  | JNum (Inf false) => Ok "Infinity"
  | JNum (Inf true) => Ok "-Infinity"
  | JStr s => Ok s
  | JArr items =>
      let fix elements (l : list json) : outcome (list string) :=
        match l with
        | [] => Ok []
        | x :: rest =>
            match match x with JNull => Ok EmptyString | _ => to_String x end with
            | Throw => Throw
            | Ok text =>
                match elements rest with
                | Throw => Throw
                | Ok texts => Ok (text :: texts)
                end
            end
        end in
      match elements items with
      | Throw => Throw
      | Ok texts => Ok (Path.join_with "," texts)
      end
  | JObj fields =>
      match Json.assoc "toString" fields with
      | Some _ => Throw
      | None => Ok "[object Object]"
      end
  end.

(** ** The helpers of [server.js] *)

Local Open Scope server_scope.

(** [loadData]: a collection whose document is missing, unreadable or not
    JSON starts empty. A document that is JSON but not an array is outside
    the data model, and the answer is [None]. *)
Definition load_collection (fs : FS) (p : string) : option (list json) :=
  match Fs.readFileSync fs p with
  | Throw => Some []
  | Ok data =>
      match Json.parse (Fs.decode data) with
      | None => Some []
      | Some (JArr items) => Some items
      | Some _ => None
      end
  end.

Definition loadData (cfg : Config) (fs : FS) : option State :=
  match load_collection fs (Path.join [dataDir cfg; "faqs.json"]),
        load_collection fs (Path.join [dataDir cfg; "gallery.json"]) with
  | Some f, Some g =>
      Some {| faqs := f; gallery := g; localesCache := ∅; sessions := ∅;
              objectPrototype := {| proto_timestamp := None;
                                    member_timestamp := ∅ |};
              disk := fs |}
  | _, _ => None
  end.

Definition mimeTypes (ext : string) : option string :=
  if String.eqb ext ".html" then Some "text/html"
  else if String.eqb ext ".css" then Some "text/css"
  else if String.eqb ext ".js" then Some "application/javascript"
  else if String.eqb ext ".png" then Some "image/png"
  else if String.eqb ext ".jpg" then Some "image/jpeg"
  else if String.eqb ext ".jpeg" then Some "image/jpeg"
  else if String.eqb ext ".svg" then Some "image/svg+xml"
  else if String.eqb ext ".json" then Some "application/json"
  else if String.eqb ext ".ico" then Some "image/x-icon"
  else None.

(** The path [serveStatic] reads for a pathname that passes its guard. *)
Definition static_target (cfg : Config) (fs : FS) (pathname : string)
  : option string :=
  let filePath := Path.join [publicDir cfg; pathname] in
  let resolved := Path.resolve (cwd cfg) filePath in
  if negb (Str.startsWith resolved (publicDir cfg)) then None
  else if Fs.existsSync fs resolved && Fs.isDirectory fs resolved
       then Some (Path.join [resolved; "index.html"])
       else Some resolved.

(** [serveStatic(pathname, res)]: [Some] response when the file was served
    (the function returns [true]), [None] when it returns [false]. *)
Definition serveStatic (cfg : Config) (fs : FS) (pathname : string)
  : option response :=
  match static_target cfg fs pathname with
  | None => None
  | Some filePath =>
      if negb (Fs.existsSync fs filePath) then None
      else
        let ext := Str.toLowerCase (Path.extname filePath) in
        let contentType :=
          match mimeTypes ext with
          | Some t => t
          | None => "application/octet-stream"
          end in
        match Fs.readFileSync fs filePath with
        | Ok fileContents => Some (SendFile contentType fileContents)
        | Throw => None
        end
  end.

(** A request as the callback sees it: [pathname] is the path of
    [new URL(req.url, ...)], [body] the text received. The cap on the size
    of the body is not modelled. *)
Record Request : Type := {
  method : string;
  pathname : string;
  authorization : option string;
  content_type : option string;
  body : string
}.

(** [await parseBody(req)]. *)
Definition parseBody (req : Request) : json :=
  let contentType :=
    match content_type req with
    | Some c => if Str.truthy c then c else EmptyString
    | None => EmptyString
    end in
  if Str.includes contentType "application/json" then
    match Json.parse (if Str.truthy (body req) then body req else "{}") with
    | Some v => v
    | None => JObj []
    end
  else JObj [].

(** [localesCache[lang]]. *)
Definition cache_get (st : State) (lang : string) : option jsval :=
  match localesCache st !! lang with
  | Some v => Some (VJson v)
  | None => inherited (objectPrototype st) lang
  end.

Definition localePath (cfg : Config) (lang : string) : string :=
  Path.join [dataDir cfg; "locales"; lang +:+ ".json"].

(** The test [if (localesCache[lang])]: the cached value when truthy. *)
Definition cache_hit (st : State) (lang : string) : option jsval :=
  match cache_get st lang with
  | Some v => if truthy_val v then Some v else None
  | None => None
  end.

(** [getLocale(lang)], the promise once settled: [Ok] is the value it
    resolves with, [Throw] its rejection, which happens when [fs.readFile]
    throws inside the executor. The fuel bounds the depth of the
    recursion, which the guard [lang !== 'en'] keeps at two calls. *)
Fixpoint getLocale_fuel (fuel : nat) (cfg : Config) (lang : string) (st : State)
  : option (State * outcome jsval) :=
  match fuel with
  | O => None
  | S fuel' =>
      match cache_hit st lang with
      | Some v => Some (st, Ok v)
      | None =>
          match Fs.readFile (disk st) (localePath cfg lang) with
          | ReadThrows => Some (st, Throw)
          | ReadError =>
              (* Fallback to English *)
              if negb (String.eqb lang "en")
              then getLocale_fuel fuel' cfg "en" st
              else Some (st, Ok (VJson (JObj [])))
          | ReadData data =>
              match Json.parse (Fs.decode data) with
              | Some obj =>
                  Some (set_localesCache (<[lang := obj]> (localesCache st)) st,
                        Ok (VJson obj))
              | None => Some (st, Ok (VJson (JObj [])))
              end
          end
      end
  end.

Definition getLocale (cfg : Config) (lang : string) : M jsval :=
  fun st => match getLocale_fuel 2 cfg lang st with
            | Some r => r
            | None => (st, Throw)
            end.

(** Twenty-four hours in milliseconds. *)
Definition DAY : Z := 24 * 60 * 60 * 1000.

(** [sessions[token]]. *)
Inductive session_ref : Type :=
| Own (s : session)
| Inherited (v : jsval).

Definition sessions_get (st : State) (token : string) : option session_ref :=
  match sessions st !! token with
  | Some s => Some (Own s)
  | None => Inherited <$> inherited (objectPrototype st) token
  end.

(** [session.timestamp]; [None] is [undefined]. A member function has its
    own property or the one of [Object.prototype], a number reaches
    [Object.prototype] through [Number.prototype]. *)
Definition read_timestamp (st : State) (r : session_ref) : option Z :=
  match r with
  | Own s => Some (timestamp s)
  | Inherited (VMember name) =>
      match member_timestamp (objectPrototype st) !! name with
      | Some t => Some t
      | None => proto_timestamp (objectPrototype st)
      end
  | Inherited VObjectPrototype => proto_timestamp (objectPrototype st)
  | Inherited (VJson _) => proto_timestamp (objectPrototype st)
  end.

(** [session.timestamp = now]; the assignment to a property of a number is
    dropped (the module is not in strict mode). *)
Definition write_timestamp (token : string) (r : session_ref) (now : Z)
    (st : State) : State :=
  match r with
  | Own _ => set_sessions (<[token := {| timestamp := now |}]> (sessions st)) st
  | Inherited (VMember name) =>
      set_objectPrototype
        {| proto_timestamp := proto_timestamp (objectPrototype st);
           member_timestamp :=
             <[name := now]> (member_timestamp (objectPrototype st)) |} st
  | Inherited VObjectPrototype =>
      set_objectPrototype
        {| proto_timestamp := Some now;
           member_timestamp := member_timestamp (objectPrototype st) |} st
  | Inherited (VJson _) => st
  end.

Definition truthy_ref (r : session_ref) : bool :=
  match r with
  | Own _ => true
  | Inherited v => truthy_val v
  end.

(** [now - t > 24 * 60 * 60 * 1000]; with [t] undefined the difference is
    NaN and the comparison false. *)
Definition expired (now : Z) (t : option Z) : bool :=
  match t with
  | Some t => DAY <? now - t
  | None => false
  end.

(** [isAuthenticated(req)]; [now] is the value of [Date.now()]. *)
Definition isAuthenticated (now : Z) (req : Request) (st : State)
  : State * bool :=
  match authorization req with
  | None => (st, false)
  | Some auth =>
      if negb (Str.truthy auth) then (st, false) else
      match Str.split " " auth with
      | [scheme; token] =>
          if negb (String.eqb scheme "Bearer") then (st, false) else
          match sessions_get st token with
          | None => (st, false)
          | Some session =>
              if negb (truthy_ref session) then (st, false)
              else if expired now (read_timestamp st session)
              then (set_sessions (delete token (sessions st)) st, false)
              else (write_timestamp token session now st, true)
          end
      | _ => (st, false)
      end
  end.

(** ** The handlers *)

(** [GET /api/faqs-suggestions]. [indices] is the [Set] in insertion
    order; [draws] are the successive values of
    [Math.floor(Math.random() * faqs.length)]. The answer is [None] when
    the loop is still running after the last of them. *)
Definition set_add (i : nat) (indices : list nat) : list nat :=
  if bool_decide (i ∈ indices) then indices else indices ++ [i].

Fixpoint sample (count : nat) (draws : list nat) (indices : list nat)
  : option (list nat) :=
  if Nat.ltb (length indices) count then
    match draws with
    | [] => None
    | d :: rest => sample count rest (set_add d indices)
    end
  else Some indices.

(** [faqs[i].question], as [JSON.stringify] prints it inside an array: an
    absent property becomes [null]. *)
Definition question_at (l : list json) (i : nat) : outcome json :=
  match l !! i with
  | None => Throw
  | Some faq =>
      match field faq "question" with
      | Ok (Some q) => Ok q
      | Ok None => Ok JNull
      | Throw => Throw
      end
  end.

Fixpoint map_outcome {A B} (f : A -> outcome B) (l : list A) : outcome (list B) :=
  match l with
  | [] => Ok []
  | x :: rest =>
      match f x with
      | Throw => Throw
      | Ok y => match map_outcome f rest with
                | Throw => Throw
                | Ok ys => Ok (y :: ys)
                end
      end
  end.

Definition suggestions (draws : list nat) (l : list json)
  : option (outcome response) :=
  let count := Nat.min 5 (length l) in
  match sample count draws [] with
  | None => None
  | Some indices =>
      Some match map_outcome (question_at l) indices with
           | Ok qs => Ok (sendJson 200 (JArr qs))
           | Throw => Throw
           end
  end.

(** [faq.question.toLowerCase()]. *)
Definition question_lower (faq : json) : outcome string :=
  match field faq "question" with
  | Ok (Some (JStr q)) => Ok (Str.toLowerCase q)
  | _ => Throw
  end.

(** [faqs.find(pred)] for a predicate that may throw. *)
Fixpoint find (pred : json -> outcome bool) (l : list json)
  : outcome (option json) :=
  match l with
  | [] => Ok None
  | faq :: rest =>
      match pred faq with
      | Throw => Throw
      | Ok true => Ok (Some faq)
      | Ok false => find pred rest
      end
  end.

Definition exact (lower : string) (faq : json) : outcome bool :=
  match question_lower faq with
  | Ok q => Ok (String.eqb q lower)
  | Throw => Throw
  end.

Definition partial (lower : string) (faq : json) : outcome bool :=
  match question_lower faq with
  | Ok q => Ok (Str.includes lower q || Str.includes q lower)
  | Throw => Throw
  end.

(** The value of [answer] after the block [if (question) { ... }] of the
    chat handler; [None] is [null] or [undefined]. *)
Definition matchAnswer (l : list json) (question : string)
  : outcome (option json) :=
  if Str.truthy question then
    let lower := Str.toLowerCase question in
    match find (exact lower) l with
    | Throw => Throw
    | Ok m =>
        if truthy_opt m then
          match m with
          | Some faq => field faq "answer"
          | None => Ok None
          end
        else
          match find (partial lower) l with
          | Throw => Throw
          | Ok p =>
              if truthy_opt p then
                match p with
                | Some faq => field faq "answer"
                | None => Ok None
                end
              else Ok None
          end
    end
  else Ok None.

Definition default_answer : string := "Sorry, I don't know the answer.".

(** [POST /api/chat]. *)
Definition chat (cfg : Config) (req : Request) : M response :=
  let body := parseBody req in
  q <- lift (field body "question") ;;
  question <- lift (call_trim (or_else q (JStr EmptyString))) ;;
  g <- lift (field body "lang") ;;
  lang <- lift (call_trim (or_else g (JStr "en"))) ;;
  l <- gets faqs ;;
  answer <- lift (matchAnswer l question) ;;
  answer <- (if negb (truthy_opt answer) then
               localeObj <- getLocale cfg lang ;;
               n <- lift (prop localeObj "chat_no_answer") ;;
               ret (or_else n (JStr default_answer))
             else ret (or_else answer JNull)) ;;
  ret (sendJson 200 (JObj [("answer", answer)])).

(** The inputs a request draws from its environment: the readings of
    [Date.now()] in [isAuthenticated] or at login and in the two calls of
    [saveImage], the bytes of [crypto.randomBytes], and the values of
    [Math.floor(Math.random() * faqs.length)]. *)
Record Inputs : Type := {
  now : Z;
  tokenBytes : list byte;
  draws : list nat;
  nowBefore : Z;
  randomBefore : list byte;
  nowAfter : Z;
  randomAfter : list byte
}.

(** [POST /api/admin/login]. *)
Definition login (inp : Inputs) (req : Request) : M response :=
  let body := parseBody req in
  username <- lift (field body "username") ;;
  password <- lift (field body "password") ;;
  match username, password with
  | Some (JStr u), Some (JStr pw) =>
      if String.eqb u "admin" && String.eqb pw "admin" then
        let token := Str.hex (tokenBytes inp) in
        modify (fun st =>
          set_sessions (<[token := {| timestamp := now inp |}]> (sessions st)) st) ;;;
        ret (sendJson 200 (JObj [("token", JStr token)]))
      else ret (sendJson 401 (error_body "Invalid credentials"))
  | _, _ => ret (sendJson 401 (error_body "Invalid credentials"))
  end.

Definition isAuthenticatedM (inp : Inputs) (req : Request) : M bool :=
  fun st => let '(st', b) := isAuthenticated (now inp) req st in (st', Ok b).

Definition faqsPath (cfg : Config) : string := Path.join [dataDir cfg; "faqs.json"].
Definition galleryPath (cfg : Config) : string :=
  Path.join [dataDir cfg; "gallery.json"].

(** [fs.writeFileSync(p, data)] on the disk of the state. *)
Definition writeFile (p : string) (data : list byte) : M unit :=
  fun st => match Fs.writeFileSync (disk st) p data with
            | Ok fs => (set_disk fs st, Ok tt)
            | Throw => (st, Throw)
            end.

Definition faq_entry (question answer : string) : json :=
  JObj [("question", JStr question); ("answer", JStr answer)].

(** [POST /api/admin/add-faq]. *)
Definition addFaq (cfg : Config) (inp : Inputs) (req : Request) : M response :=
  ok <- isAuthenticatedM inp req ;;
  if negb ok then ret (sendJson 403 (error_body "Unauthorized")) else
  let body := parseBody req in
  question <- lift (field body "question") ;;
  answer <- lift (field body "answer") ;;
  match question, answer with
  | Some (JStr q), Some (JStr a) =>
      if Str.truthy (Str.trim q) && Str.truthy (Str.trim a) then
        modify (fun st =>
          set_faqs (faqs st ++ [faq_entry (Str.trim q) (Str.trim a)]) st) ;;;
        (* persist to file *)
        try_catch
          (l <- gets faqs ;;
           writeFile (faqsPath cfg) (Fs.encode (Json.stringify2 (JArr l))))
          (ret tt) ;;;
        ret (sendJson 200 (JObj [("success", JBool true)]))
      else ret (sendJson 400 (error_body "Invalid payload"))
  | _, _ => ret (sendJson 400 (error_body "Invalid payload"))
  end.

(** The line terminators of ECMAScript are LF, CR, U+2028 and U+2029;
    among the code units of the development, those below 256, they are LF
    and CR. *)
Definition is_line_terminator (c : ascii) : bool :=
  let n := N_of_ascii c in ((n =? 10) || (n =? 13))%N.

Fixpoint no_line_terminator (s : string) : bool :=
  match s with
  | EmptyString => true
  | String c rest => negb (is_line_terminator c) && no_line_terminator rest
  end.

(** [/^data:image\/(png|jpeg);base64,(.+)$/.exec(s)]: the two groups.
    The dot matches any code unit but a line terminator, and [$] only the
    end of the input, there being no flag. *)
Definition data_uri_exec (s : string) : option (string * string) :=
  match Str.strip_prefix "data:image/" s with
  | None => None
  | Some r =>
      let tail (kind : string) :=
        match Str.strip_prefix kind r with
        | None => None
        | Some r1 =>
            match Str.strip_prefix ";base64," r1 with
            | None => None
            | Some payload =>
                if Str.truthy payload && no_line_terminator payload
                then Some (kind, payload) else None
            end
        end in
      match tail "png" with
      | Some m => Some m
      | None => tail "jpeg"
      end
  end.

Definition image_filename (prefix : string) (now : Z) (random : list byte)
    (ext : string) : string :=
  prefix +:+ "-" +:+ Json.print_Z now +:+ "-" +:+ Str.hex random +:+ "." +:+ ext.

(** The same on a value of any type: [exec] coerces its argument to a
    string first. *)
Definition pattern_exec (v : json) : outcome (option (string * string)) :=
  match to_String v with
  | Ok s => Ok (data_uri_exec s)
  | Throw => Throw
  end.

(** [saveImage(dataUri, prefix)]; [None] is [null]. *)
Definition saveImage (cfg : Config) (now : Z) (random : list byte)
    (dataUri : json) (prefix : string) : M (option string) :=
  m <- lift (pattern_exec dataUri) ;;
  match m with
  | None => ret None
  | Some (kind, payload) =>
      let ext := if String.eqb kind "jpeg" then "jpg" else kind in
      let buffer := Base64.decode payload in
      let filename := image_filename prefix now random ext in
      let outputPath := Path.join [publicDir cfg; "assets"; "img"; filename] in
      writeFile outputPath buffer ;;;
      ret (Some ("assets/img/" +:+ filename))
  end.

(** [POST /api/admin/upload-image]. *)
Definition uploadImage (cfg : Config) (inp : Inputs) (req : Request) : M response :=
  ok <- isAuthenticatedM inp req ;;
  if negb ok then ret (sendJson 403 (error_body "Unauthorized")) else
  let body := parseBody req in
  before <- lift (field body "before") ;;
  after <- lift (field body "after") ;;
  title <- lift (field body "title") ;;
  description <- lift (field body "description") ;;
  match before, after with
  | Some b, Some a =>
      if negb (Json.truthy b) || negb (Json.truthy a)
      then ret (sendJson 400 (error_body "Missing images"))
      else
        try_catch
          (beforePath <- saveImage cfg (nowBefore inp) (randomBefore inp) b "before" ;;
           afterPath <- saveImage cfg (nowAfter inp) (randomAfter inp) a "after" ;;
           match beforePath, afterPath with
           | Some bp, Some ap =>
               let newEntry :=
                 JObj [("before", JStr bp); ("after", JStr ap);
                       ("title", or_else title (JStr EmptyString));
                       ("description", or_else description (JStr EmptyString))] in
               modify (fun st => set_gallery (gallery st ++ [newEntry]) st) ;;;
               l <- gets gallery ;;
               writeFile (galleryPath cfg) (Fs.encode (Json.stringify2 (JArr l))) ;;;
               ret (sendJson 200 (JObj [("success", JBool true); ("entry", newEntry)]))
           | _, _ => ret (sendJson 400 (error_body "Invalid image data"))
           end)
          (ret (sendJson 500 (error_body "Failed to save images")))
  | _, _ => ret (sendJson 400 (error_body "Missing images"))
  end.

(** [GET /admin]: the fixed document when it exists. *)
Definition adminPage (cfg : Config) (fs : FS) : option (outcome response) :=
  let adminPath := Path.join [publicDir cfg; "admin.html"] in
  if Fs.existsSync fs adminPath then
    Some match Fs.readFileSync fs adminPath with
         | Ok html => Ok (SendFile "text/html" html)
         | Throw => Throw
         end
  else None.

(** The end of the callback: static files, then 404. *)
Definition staticOrNotFound (cfg : Config) (req : Request) : M response :=
  fs <- gets disk ;;
  match serveStatic cfg fs (pathname req) with
  | Some r => ret r
  | None => ret (SendText 404 "Not Found")
  end.

(** The callback of [http.createServer], from the test on [OPTIONS] to the
    404, before its [catch]. [None]: the suggestions loop has not ended. *)
Definition route (cfg : Config) (inp : Inputs) (req : Request) (st : State)
  : option (State * outcome response) :=
  let m := method req in
  let p := pathname req in
  if String.eqb m "OPTIONS" then Some (st, Ok Preflight)
  else if String.eqb m "GET" && Str.startsWith p "/api/locales/" then
    let lang := Str.replace (Str.replace p "/api/locales/" EmptyString)
                  ".json" EmptyString in
    Some ((localeObj <- getLocale cfg lang ;; ret (SendJson 200 localeObj)) st)
  else if String.eqb m "GET" && String.eqb p "/api/faqs" then
    Some (st, Ok (sendJson 200 (JArr (faqs st))))
  else if String.eqb m "GET" && String.eqb p "/api/gallery" then
    Some (st, Ok (sendJson 200 (JArr (gallery st))))
  else if String.eqb m "GET" && String.eqb p "/api/faqs-suggestions" then
    match suggestions (draws inp) (faqs st) with
    | Some r => Some (st, r)
    | None => None
    end
  else if String.eqb m "POST" && String.eqb p "/api/chat" then
    Some (chat cfg req st)
  else if String.eqb m "POST" && String.eqb p "/api/admin/login" then
    Some (login inp req st)
  else if String.eqb m "POST" && String.eqb p "/api/admin/add-faq" then
    Some (addFaq cfg inp req st)
  else if String.eqb m "POST" && String.eqb p "/api/admin/upload-image" then
    Some (uploadImage cfg inp req st)
  else if String.eqb m "GET" && String.eqb p "/admin" then
    match adminPage cfg (disk st) with
    | Some r => Some (st, r)
    | None => Some (staticOrNotFound cfg req st)
    end
  else Some (staticOrNotFound cfg req st).

(** The whole callback: a throw becomes the 500 answer. *)
Definition handle (cfg : Config) (inp : Inputs) (req : Request) (st : State)
  : option (State * response) :=
  match route cfg inp req st with
  | Some (st', Ok r) => Some (st', r)
  | Some (st', Throw) => Some (st', SendText 500 "Internal Server Error")
  | None => None
  end.

(** ** Definitions used in the proofs about JSON *)

(** Induction on JSON values that reaches the elements of arrays and the
    values of properties. *)
Section JsonInd.
Variable P : json -> Prop.
Hypothesis HNull : P JNull.
Hypothesis HBool : forall b, P (JBool b).
Hypothesis HNum : forall n, P (JNum n).
Hypothesis HStr : forall s, P (JStr s).
Hypothesis HArr : forall l, Forall P l -> P (JArr l).
Hypothesis HObj : forall l, Forall (fun kv => P (snd kv)) l -> P (JObj l).

Fixpoint json_nested_ind (v : json) : P v :=
  match v with
  | JNull => HNull
  | JBool b => HBool b
  | JNum n => HNum n
  | JStr s => HStr s
  | JArr l =>
      HArr l ((fix go (l : list json) : Forall P l :=
                 match l with
                 | [] => @List.Forall_nil _ P
                 | x :: xs => @List.Forall_cons _ P x xs (json_nested_ind x) (go xs)
                 end) l)
  | JObj l =>
      HObj l ((fix go (l : list (string * json))
                 : Forall (fun kv => P (snd kv)) l :=
                 match l with
                 | [] => @List.Forall_nil _ _
                 | kv :: xs =>
                     @List.Forall_cons _ (fun kv => P (snd kv)) kv xs
                       (json_nested_ind (snd kv)) (go xs)
                 end) l)
  end.
End JsonInd.

(** What can follow a value in a printed document: nothing, a comma or a
    line feed. *)
Definition delimited (rest : string) : bool :=
  match rest with
  | EmptyString => true
  | String c _ => ((N_of_ascii c =? 44) || (N_of_ascii c =? 10))%N
  end.

(** A decimal numeral that is not empty and does not start with zero. *)
Definition head_nonzero (d : Decimal.uint) : Prop :=
  match d with
  | Decimal.Nil | Decimal.D0 _ => False
  | _ => True
  end.

(** The characters a printed value can start with. *)
Definition value_start (c : ascii) : bool :=
  let n := N_of_ascii c in
  (Json.is_digit c || (n =? 45) || (n =? 34) || (n =? 91) || (n =? 123)
   || (n =? 110) || (n =? 116) || (n =? 102))%N.

(** Reading back the text of [v], followed by [rest], gives [v] and
    [rest]. *)
Definition roundtrips (v : json) : Prop :=
  Json.exact v = true ->
  forall (d fuel : nat) (rest : string),
    (Json.need v <= fuel)%nat -> delimited rest = true ->
    Json.parse_value fuel (Json.print d v +:+ rest) = Some (v, rest).

(** ** The invariant of the stored FAQs *)

(** The invariant: the stored FAQs are values [JSON.parse] can yield. *)
Definition faqs_wf (st : State) : Prop := forallb Json.wf (faqs st) = true.

(** No stored FAQ holds a number that is not finite. This is no invariant:
    [loadData] reads an integer literal that overflows as [Infinity]. *)
Definition faqs_finite (st : State) : Prop :=
  forallb Json.finite (faqs st) = true.

(** A computation that leaves the invariant in place. *)
Definition keeps {A} (m : M A) : Prop :=
  forall st st' o, m st = (st', o) -> faqs_wf st -> faqs_wf st'.

(** The states the server goes through: the one [loadData] builds, then
    one request after the other, the disk changing freely in between. *)
Inductive reachable (cfg : Config) : State -> Prop :=
| reachable_start (fs : FS) (st : State) :
    loadData cfg fs = Some st -> reachable cfg st
| reachable_request (inp : Inputs) (req : Request) (st st' : State)
    (r : response) :
    reachable cfg st -> handle cfg inp req st = Some (st', r) ->
    reachable cfg st'
| reachable_disk (fs : FS) (st : State) :
    reachable cfg st -> reachable cfg (set_disk fs st).

(** ** Paths in normal form *)

(** A segment without slash. *)
Fixpoint no_slash (seg : string) : bool :=
  match seg with
  | EmptyString => true
  | String c rest => negb (Ascii.eqb c Path.slash) && no_slash rest
  end.

(** A segment that [normalizeString] keeps as it is. *)
Definition plain (seg : string) : bool :=
  no_slash seg
  && negb (String.eqb seg EmptyString || String.eqb seg "." || String.eqb seg "..").

(** The segments that [normalizeString] does not drop. *)
Definition kept (seg : string) : bool :=
  negb (String.eqb seg EmptyString || String.eqb seg ".").

(** The static root is an absolute path in normal form. *)
Definition rooted (cfg : Config) : Prop :=
  exists segs, Forall (fun seg => plain seg = true) segs /\ segs <> []
               /\ publicDir cfg = "/" +:+ Path.join_with "/" segs.

(** A pathname without [..] segment, as [new URL(...).pathname] is. *)
Definition dot_free (pathname : string) : Prop :=
  ".." ∉ Str.split Path.slash pathname.

(** ** The vocabulary of the specification *)

(** [sub] occurs in [s]. *)
Definition substring_of (sub s : string) : Prop :=
  exists pre post, s = pre +:+ sub +:+ post.

(** A stored entry with a question text, as the data model has it. *)
Definition has_question (faq : json) : Prop :=
  exists q, field faq "question" = Ok (Some (JStr q)).

(** [x] is the first element of [l], in insertion order, that satisfies [P]. *)
Definition first_such (P : json -> Prop) (l : list json) (x : json) : Prop :=
  exists l1 l2, l = (l1 ++ x :: l2)%list /\ P x /\ Forall (fun y => ~ P y) l1.

(** The predicate [pred] of the code decides [P] on [y] without throwing. *)
Definition decides (pred : json -> outcome bool) (P : json -> Prop) (y : json)
  : Prop :=
  exists b, pred y = Ok b /\ (b = true <-> P y).

(** The stored question equals the input, case apart. *)
Definition exact_match (question : string) (faq : json) : Prop :=
  exists q, field faq "question" = Ok (Some (JStr q))
            /\ Str.toLowerCase q = Str.toLowerCase question.

(** The stored question occurs in the input or the input in the stored
    question, case apart. *)
Definition substring_match (question : string) (faq : json) : Prop :=
  exists q, field faq "question" = Ok (Some (JStr q))
            /\ (substring_of (Str.toLowerCase q) (Str.toLowerCase question)
                \/ substring_of (Str.toLowerCase question) (Str.toLowerCase q)).

(** [getLocale] as the specification words it, for a language that is not
    cached: a document that is read and parsed is cached and returned; on
    failure, of the read or of the parse, a language other than [en] gets
    the answer of [getLocale('en')] and [en] gets the empty mapping. *)
Definition getLocale_as_specified : Prop :=
  forall (cfg : Config) (lang : string) (st : State),
    localesCache st !! lang = None ->
    inherited (objectPrototype st) lang = None ->
    (forall data obj,
        Fs.readFile (disk st) (localePath cfg lang) = ReadData data ->
        Json.parse (Fs.decode data) = Some obj ->
        getLocale cfg lang st
        = (set_localesCache (<[lang := obj]> (localesCache st)) st,
           Ok (VJson obj)))
    /\ (Fs.readFile (disk st) (localePath cfg lang) = ReadError
        \/ (exists data,
               Fs.readFile (disk st) (localePath cfg lang) = ReadData data
               /\ Json.parse (Fs.decode data) = None) ->
        (lang <> "en" -> getLocale cfg lang st = getLocale cfg "en" st)
        /\ (lang = "en" -> getLocale cfg lang st = (st, Ok (VJson (JObj []))))).


(** The distinct values among the draws, in the order of their first
    occurrence. *)
Definition distinct_draws (draws : list nat) : list nat :=
  fold_left (fun acc d => set_add d acc) draws [].

(** [q] is the question of the entry of index [i]. *)
Definition question_of (l : list json) (i : nat) (q : json) : Prop :=
  exists faq text, l !! i = Some faq
                   /\ field faq "question" = Ok (Some (JStr text))
                   /\ q = JStr text.

(** ** Concrete data for the examples *)

Definition cfg0 : Config := {| dirname := "/srv/marisk"; cwd := "/srv/marisk" |}.

Definition no_pollution : ObjectPrototype :=
  {| proto_timestamp := None; member_timestamp := ∅ |}.

Definition empty_fs : FS := {| nodes := ∅; failing := ∅ |}.

Definition bearer (token : string) : Request :=
  {| method := "POST"; pathname := "/api/admin/add-faq";
     authorization := Some ("Bearer " +:+ token);
     content_type := Some "application/json"; body := EmptyString |}.

(** One session, issued at time 0 for the token [00ff]. *)
Definition st_session : State :=
  {| faqs := []; gallery := []; localesCache := ∅;
     sessions := {[ "00ff" := {| timestamp := 0 |} ]};
     objectPrototype := no_pollution; disk := empty_fs |}.

Definition inp0 : Inputs :=
  {| now := 1000; tokenBytes := [x00; xff]; draws := [];
     nowBefore := 1001; randomBefore := [x01; x02; x03; x04];
     nowAfter := 1002; randomAfter := [x05; x06; x07; x08] |}.

(** A request of the admin console to add a FAQ, with surrounding blanks
    in the question. *)
Definition req_add : Request :=
  {| method := "POST"; pathname := "/api/admin/add-faq";
     authorization := Some "Bearer 00ff";
     content_type := Some "application/json";
     body := Json.stringify2
               (JObj [("question", JStr "  Opening hours? ");
                      ("answer", JStr "9 to 5")]) |}.

Definition req_list : Request :=
  {| method := "GET"; pathname := "/api/faqs"; authorization := None;
     content_type := None; body := EmptyString |}.

(** One stored FAQ and one session; every write succeeds. *)
Definition st_admin : State :=
  {| faqs := [faq_entry "Q1" "A1"]; gallery := []; localesCache := ∅;
     sessions := {[ "00ff" := {| timestamp := 0 |} ]};
     objectPrototype := no_pollution; disk := empty_fs |}.

(** The same with a disk on which [faqs.json] cannot be written. *)
Definition st_readonly : State :=
  set_disk {| nodes := ∅; failing := {[ faqsPath cfg0 ]} |} st_admin.

(** The FAQ set of the specification's example. *)
Definition faqs_hello : list json :=
  [faq_entry "Q1" "A1"; faq_entry "hello world" "A2"].

(** A chat request without language; the English locale is cached and has
    no [chat_no_answer] key. *)
Definition req_chat : Request :=
  {| method := "POST"; pathname := "/api/chat"; authorization := None;
     content_type := Some "application/json";
     body := Json.stringify2 (JObj [("question", JStr "Do you deliver?")]) |}.

Definition st_chat : State :=
  {| faqs := faqs_hello; gallery := [];
     localesCache := {[ "en" := JObj [("greeting", JStr "Hello")] ]};
     sessions := ∅; objectPrototype := no_pollution; disk := empty_fs |}.

(** A disk with an English locale and a French one that is not JSON. *)
Definition st_locales : State :=
  {| faqs := []; gallery := []; localesCache := ∅; sessions := ∅;
     objectPrototype := no_pollution;
     disk :=
       {| nodes :=
            {[ "/srv/marisk/data/locales/en.json" :=
                 File (Fs.encode (Json.stringify2
                                    (JObj [("chat_no_answer", JStr "Sorry")])));
               "/srv/marisk/data/locales/fr.json" :=
                 File (Fs.encode "{ oops") ]};
          failing := ∅ |} |}.


(** A payload with a line feed in it. *)
Definition uri_with_line_feed : json :=
  JStr ("data:image/png;base64,aGVs" +:+ Json.nl +:+ "bG8=").

(** A payload with characters outside the base64 alphabets. *)
Definition uri_with_stars : json := JStr "data:image/jpeg;base64,aGVs**bG8=".

(** Three stored FAQs. *)
Definition faqs_three : list json :=
  [faq_entry "Q1" "A1"; faq_entry "Q2" "A2"; faq_entry "Q3" "A3"].

Definition st_three : State :=
  {| faqs := faqs_three; gallery := []; localesCache := ∅; sessions := ∅;
     objectPrototype := no_pollution; disk := empty_fs |}.

Definition req_suggest : Request :=
  {| method := "GET"; pathname := "/api/faqs-suggestions";
     authorization := None; content_type := None; body := EmptyString |}.

(** Draws with repetitions. *)
Definition inp_draws : Inputs :=
  {| now := 1000; tokenBytes := []; draws := [2; 2; 0; 2; 1; 0]%nat;
     nowBefore := 0; randomBefore := []; nowAfter := 0; randomAfter := [] |}.

(** A disk with the static root and, next to it, a directory whose name
    starts with the name of the root. *)
Definition fs_sibling : FS :=
  {| nodes :=
       {[ "/srv/marisk/public" := Dir;
          "/srv/marisk/public/index.html" := File (Fs.encode "<h1>Marisk</h1>");
          "/srv/marisk/public-old" := Dir;
          "/srv/marisk/public-old/secret.txt" := File (Fs.encode "secret");
          "/srv/marisk/data" := Dir;
          "/srv/marisk/data/faqs.json" := File (Fs.encode "[]") ]};
     failing := ∅ |}.

Definition st_empty : State :=
  {| faqs := []; gallery := []; localesCache := ∅; sessions := ∅;
     objectPrototype := no_pollution; disk := empty_fs |}.

Definition req_login : Request :=
  {| method := "POST"; pathname := "/api/admin/login"; authorization := None;
     content_type := Some "application/json";
     body := Json.stringify2
               (JObj [("username", JStr "admin"); ("password", JStr "admin")]) |}.

(** The digit 1 followed by 309 zeros: the integer [10^309], above the
    largest double. *)
Fixpoint zeros (n : nat) : string :=
  match n with
  | O => EmptyString
  | S n' => String "0" (zeros n')
  end.

Definition literal_1e309 : string := String "1" (zeros 309).

(** A disk whose [faqs.json] holds one FAQ with such a number in it. *)
Definition fs_overflow : FS :=
  {| nodes :=
       {[ "/srv/marisk/data/faqs.json" :=
            File (Fs.encode
                    ("[{" +:+ Json.quote "question" +:+ ":" +:+ Json.quote "Q1"
                     +:+ "," +:+ Json.quote "answer" +:+ ":" +:+ Json.quote "A1"
                     +:+ "," +:+ Json.quote "views" +:+ ":" +:+ literal_1e309
                     +:+ "}]")) ]};
     failing := ∅ |}.

(** The server started on that disk, and after a login. *)
Definition st_overflow : State :=
  {| faqs := [JObj [("question", JStr "Q1"); ("answer", JStr "A1");
                    ("views", JNum (Inf false))]];
     gallery := []; localesCache := ∅; sessions := ∅;
     objectPrototype := no_pollution; disk := fs_overflow |}.

Definition st_overflow_admin : State :=
  set_sessions (<["00ff" := {| timestamp := 1000 |}]> ∅) st_overflow.

(** ** [JSON.stringify(v)] and the body of a JSON response *)

(** The elements of an array after the first and its closing bracket. *)
Definition stringify_items (pr : json -> string) : list json -> string :=
  fix items (l : list json) : string :=
    match l with
    | [] => "]"
    | y :: ys => "," +:+ pr y +:+ items ys
    end.

(** The same for the properties of an object. *)
Definition stringify_members (pr : json -> string) : list (string * json) -> string :=
  fix members (l : list (string * json)) : string :=
    match l with
    | [] => "}"
    | (k, y) :: ys => "," +:+ Json.quote k +:+ ":" +:+ pr y +:+ members ys
    end.

(** SerializeJSONProperty without gap. *)
Fixpoint stringify (v : json) : string :=
  match v with
  | JNull => "null"
  | JBool true => "true"
  | JBool false => "false"
  | JNum n => Json.print_number n
  | JStr s => Json.quote s
  | JArr [] => "[]"
  | JArr (x :: xs) => "[" +:+ stringify x +:+ stringify_items stringify xs
  | JObj [] => "{}"
  | JObj ((k, x) :: xs) =>
      "{" +:+ Json.quote k +:+ ":" +:+ stringify x +:+ stringify_members stringify xs
  end.

(** The text [sendJson] hands to [res.end], [JSON.stringify(obj)]. A
    function has no JSON text and the body is then empty; of
    [Object.prototype] the one property the server may have stored there
    is printed. *)
Definition sendJson_body (op : ObjectPrototype) (v : jsval) : string :=
  match v with
  | VJson j => stringify j
  | VMember _ => EmptyString
  | VObjectPrototype =>
      match proto_timestamp op with
      | Some t => stringify (JObj [("timestamp", JNum (Int t))])
      | None => "{}"
      end
  end.

(** ** The admin console ([admin.js]) *)

(** [fetch(path, { method: 'POST', headers, body: JSON.stringify(payload) })]
    as the server receives it; [token] is the bearer token of the
    [Authorization] header, when the console sends one. *)
Definition post_json (path : string) (token : option string) (payload : json)
  : Request :=
  {| method := "POST"; pathname := path;
     authorization := option_map (fun t => "Bearer " +:+ t) token;
     content_type := Some "application/json";
     body := stringify payload |}.

(** The members of an object literal as [JSON.stringify] prints them: one
    whose value is [undefined] is left out. *)
Fixpoint defined_members (l : list (string * option json))
  : list (string * json) :=
  match l with
  | [] => []
  | (k, Some v) :: rest => (k, v) :: defined_members rest
  | (_, None) :: rest => defined_members rest
  end.

(** The request of the login form. *)
Definition login_form (username password : string) : Request :=
  post_json "/api/admin/login" None
    (JObj [("username", JStr (Str.trim username)); ("password", JStr password)]).

(** The request of the FAQ form; the form sends nothing when the question
    or the answer is blank. *)
Definition faq_form (token question answer : string) : option Request :=
  let question := Str.trim question in
  let answer := Str.trim answer in
  if negb (Str.truthy question) || negb (Str.truthy answer) then None
  else Some (post_json "/api/admin/add-faq" (Some token)
               (JObj [("question", JStr question); ("answer", JStr answer)])).

(** [toDataURL(file)]: of the text [reader.result], what lies between its
    first comma and its second. *)
Definition toDataURL (result : string) : option string :=
  Str.split "," result !! 1%nat.

(** The request of the gallery form. *)
Definition gallery_form (token beforeResult afterResult : string) : Request :=
  post_json "/api/admin/upload-image" (Some token)
    (JObj (defined_members
             [("before", JStr <$> toDataURL beforeResult);
              ("after", JStr <$> toDataURL afterResult)])).

(** ** Relations and predicates on states, documents and texts *)

(** What can follow a value in a document printed without gap: nothing, a
    comma or a closing bracket. *)
Definition closed (rest : string) : bool :=
  match rest with
  | EmptyString => true
  | String c _ =>
      let n := N_of_ascii c in ((n =? 44) || (n =? 93) || (n =? 125))%N
  end.

(** The printed text of [v], followed by what can follow a value, is read
    back as [v], and what follows is left. *)
Definition roundtrips_text (v : json) : Prop :=
  Json.exact v = true ->
  forall (fuel : nat) (rest : string),
    (Json.need v <= fuel)%nat -> closed rest = true ->
    Json.parse_value fuel (stringify v +:+ rest) = Some (v, rest).

(** A response that carries the contents of a file. *)
Definition sends_file (r : response) : bool :=
  match r with SendFile _ _ => true | _ => false end.

(** A computation every result of which satisfies [P]. *)
Definition answers {A} (P : A -> Prop) (m : M A) : Prop :=
  forall st st' a, m st = (st', Ok a) -> P a.

(** A computation every run of which takes a state to one related by [R]. *)
Definition respects (R : State -> State -> Prop) {A} (m : M A) : Prop :=
  forall st st' o, m st = (st', o) -> R st st'.

(** The runs of the server from one state to a later one: requests, one
    after the other, the disk changing freely in between. *)
Inductive runs (cfg : Config) : State -> State -> Prop :=
| runs_refl (st : State) : runs cfg st st
| runs_request (inp : Inputs) (req : Request) (st st1 : State) (r : response)
    (st' : State) :
    handle cfg inp req st = Some (st1, r) -> runs cfg st1 st' -> runs cfg st st'
| runs_disk (fs : FS) (st st' : State) :
    runs cfg (set_disk fs st) st' -> runs cfg st st'.

(** The runs in which no login issues [token]: the bytes a login draws
    for its token are not those of [token]. *)
Inductive runs_without (token : string) (cfg : Config) : State -> State -> Prop :=
| without_refl (st : State) : runs_without token cfg st st
| without_request (inp : Inputs) (req : Request) (st st1 : State) (r : response)
    (st' : State) :
    (method req = "POST" -> pathname req = "/api/admin/login" ->
     Str.hex (tokenBytes inp) <> token) ->
    handle cfg inp req st = Some (st1, r) ->
    runs_without token cfg st1 st' -> runs_without token cfg st st'
| without_disk (fs : FS) (st st' : State) :
    runs_without token cfg (set_disk fs st) st' -> runs_without token cfg st st'.

(** No session is registered under [token]. *)
Definition unregistered (token : string) (st : State) : Prop :=
  sessions st !! token = None.

(** The stored entries of [st] are still there in [st'], in their places. *)
Definition grows (st st' : State) : Prop :=
  faqs st `prefix_of` faqs st' /\ gallery st `prefix_of` gallery st'.

(** The truthy values of the locale cache of [st] are those of [st']. *)
Definition cache_kept (st st' : State) : Prop :=
  forall lang v,
    localesCache st !! lang = Some v -> Json.truthy v = true ->
    localesCache st' !! lang = Some v.

(** The collections and the disk are the same. *)
Definition same_data (st st' : State) : Prop :=
  faqs st' = faqs st /\ gallery st' = gallery st /\ disk st' = disk st.

(** The stored gallery entries are values [JSON.parse] can yield. *)
Definition gallery_wf (st : State) : Prop := forallb Json.wf (gallery st) = true.

(** No stored gallery entry holds a number that is not finite. This is no
    invariant: the title and the description of an upload are stored as
    they come, and [loadData] reads what the document holds. *)
Definition gallery_finite (st : State) : Prop :=
  forallb Json.finite (gallery st) = true.

(** The entry [upload-image] builds. *)
Definition gallery_entry (before after : string) (title description : option json)
  : json :=
  JObj [("before", JStr before); ("after", JStr after);
        ("title", or_else title (JStr EmptyString));
        ("description", or_else description (JStr EmptyString))].

(** A path the disk lets the server write: not one of the failing ones
    and not a directory. *)
Definition writable (fs : FS) (p : string) : bool :=
  negb (bool_decide (p ∈ failing fs)) && negb (Fs.isDirectory fs p).

(** The disk after a write of [data] at [p]. *)
Definition written (fs : FS) (p : string) (data : list byte) : FS :=
  {| nodes := <[p := File data]> (nodes fs); failing := failing fs |}.

(** An entry as [add-faq] stores them: a question and an answer that are
    texts and not empty. *)
Definition faq_ok (faq : json) : Prop :=
  exists q a,
    field faq "question" = Ok (Some (JStr q)) /\ Str.truthy q = true
    /\ field faq "answer" = Ok (Some (JStr a)) /\ Str.truthy a = true.

(** A text without dot. *)
Fixpoint no_dot (s : string) : bool :=
  match s with
  | EmptyString => true
  | String c rest => negb (Ascii.eqb c Path.dot) && no_dot rest
  end.

(** A text without comma. *)
Fixpoint no_comma (s : string) : bool :=
  match s with
  | EmptyString => true
  | String c rest => negb (Ascii.eqb c ",") && no_comma rest
  end.

(** A value the gallery form can send for an image: nothing, or a text
    without comma. *)
Definition bare_payload (v : option json) : Prop :=
  v = None \/ exists s, v = Some (JStr s) /\ no_comma s = true.

(** A text that does not start with white space. *)
Definition starts_black (s : string) : bool :=
  match s with
  | EmptyString => true
  | String c _ => negb (Str.is_white c)
  end.

(** A text made of the digits [Str.hex] writes. *)
Fixpoint all_hex (s : string) : bool :=
  match s with
  | EmptyString => true
  | String c rest =>
      let n := N_of_ascii c in
      (((48 <=? n) && (n <=? 57)) || ((97 <=? n) && (n <=? 102)))%N
      && all_hex rest
  end.

(** ** More concrete data *)

(** The state [loadData] builds on the disk [fs_sibling]. *)
Definition st_fresh : State :=
  {| faqs := []; gallery := []; localesCache := ∅; sessions := ∅;
     objectPrototype := no_pollution; disk := fs_sibling |}.

(** The request of [req_add] without [Authorization] header. *)
Definition req_add_anonymous : Request :=
  {| method := "POST"; pathname := "/api/admin/add-faq"; authorization := None;
     content_type := Some "application/json"; body := body req_add |}.

(** The same with the name of an inherited function for a token. *)
Definition req_add_constructor : Request :=
  {| method := "POST"; pathname := "/api/admin/add-faq";
     authorization := Some "Bearer constructor";
     content_type := Some "application/json"; body := body req_add |}.

(** An upload of a PNG and a JPEG. *)
Definition req_upload_pair : Request :=
  {| method := "POST"; pathname := "/api/admin/upload-image";
     authorization := Some "Bearer 00ff";
     content_type := Some "application/json";
     body := Json.stringify2
               (JObj [("before", JStr "data:image/png;base64,iVBORw0KGgo=");
                      ("after", JStr "data:image/jpeg;base64,aGVsbG8=");
                      ("title", JStr "Garden")]) |}.

(** An upload whose second image is a GIF. *)
Definition req_upload_second_gif : Request :=
  {| method := "POST"; pathname := "/api/admin/upload-image";
     authorization := Some "Bearer 00ff";
     content_type := Some "application/json";
     body := Json.stringify2
               (JObj [("before", JStr "data:image/png;base64,iVBORw0KGgo=");
                      ("after", JStr "data:image/gif;base64,R0lGODlh")]) |}.

(** A disk on which [gallery.json] cannot be written. *)
Definition st_gallery_readonly : State :=
  set_disk {| nodes := ∅; failing := {[ galleryPath cfg0 ]} |} st_admin.

(** Inputs of a request made four seconds after [inp0]. *)
Definition inp_later : Inputs :=
  {| now := 5000; tokenBytes := [x0a; x0b]; draws := [];
     nowBefore := 5001; randomBefore := [x01; x02; x03; x04];
     nowAfter := 5002; randomAfter := [x05; x06; x07; x08] |}.

(** The chat question of the specification's example. *)
Definition req_chat_hello : Request :=
  {| method := "POST"; pathname := "/api/chat"; authorization := None;
     content_type := Some "application/json";
     body := stringify (JObj [("question", JStr "HELLO WORLD");
                              ("lang", JStr "en")]) |}.

(** A chat question in German. *)
Definition req_chat_de : Request :=
  {| method := "POST"; pathname := "/api/chat"; authorization := None;
     content_type := Some "application/json";
     body := stringify (JObj [("question", JStr "Liefern Sie?");
                              ("lang", JStr "de")]) |}.

(** The login of [req_login] sent as plain text. *)
Definition req_login_plain : Request :=
  {| method := "POST"; pathname := "/api/admin/login"; authorization := None;
     content_type := Some "text/plain"; body := body req_login |}.

(** A chat request whose body is the JSON text [null]. *)
Definition req_chat_null : Request :=
  {| method := "POST"; pathname := "/api/chat"; authorization := None;
     content_type := Some "application/json"; body := "null" |}.

(** A [GET] request without header and without body. *)
Definition get_request (path : string) : Request :=
  {| method := "GET"; pathname := path; authorization := None;
     content_type := None; body := EmptyString |}.

(** * Properties *)

(** ** Strings *)

Lemma hex_digit_not_space (b : byte) :
  Ascii.eqb (Str.hex_digit (Byte.to_N b / 16)) " " = false
  /\ Ascii.eqb (Str.hex_digit (Byte.to_N b mod 16)) " " = false.
Proof. destruct b; split; reflexivity. Qed.

(** A token in hexadecimal is one word. *)
Lemma split_hex (bs : list byte) : Str.split " " (Str.hex bs) = [Str.hex bs].
Proof.
  induction bs as [|b bs IH]; [reflexivity|].
  destruct (hex_digit_not_space b) as [H1 H2].
  cbn [Str.hex Str.split]. rewrite H1, H2, IH. reflexivity.
Qed.

Lemma split_bearer (token : string) :
  Str.split " " token = [token] ->
  Str.split " " ("Bearer " +:+ token) = ["Bearer"; token].
Proof.
  intros H. change ("Bearer " +:+ token) with
    (String "B" (String "e" (String "a" (String "r" (String "e" (String "r"
       (String " " token))))))).
  cbn [Str.split]. rewrite H. reflexivity.
Qed.

Example split_examples :
  Str.split " " "Bearer abc" = ["Bearer"; "abc"]
  /\ Str.split " " EmptyString = [EmptyString]
  /\ Str.split " " "a  b " = ["a"; EmptyString; "b"; EmptyString].
Proof. repeat split. Qed.

Example trim_examples :
  Str.trim "  a b  " = "a b"
  /\ Str.trim (Json.nl +:+ " x" +:+ Json.nl) = "x"
  /\ Str.trim "   " = EmptyString.
Proof. repeat split. Qed.

Example toLowerCase_example : Str.toLowerCase "HeLLo W@[`{" = "hello w@[`{".
Proof. reflexivity. Qed.

Example includes_examples :
  Str.includes "hello world" "o w" = true
  /\ Str.includes "hello world" EmptyString = true
  /\ Str.includes EmptyString "a" = false.
Proof. repeat split. Qed.

Example replace_examples :
  Str.replace "/api/locales/en.json" "/api/locales/" EmptyString = "en.json"
  /\ Str.replace "en.json" ".json" EmptyString = "en"
  /\ Str.replace "en" ".json" EmptyString = "en".
Proof. repeat split. Qed.

Example path_examples :
  Path.join ["/srv/app"; "public"] = "/srv/app/public"
  /\ Path.join ["/srv/app/public"; "/a//b/./c/"] = "/srv/app/public/a/b/c/"
  /\ Path.join ["/srv/app/public"; "/../../etc/passwd"] = "/srv/etc/passwd"
  /\ Path.join ["a"; "../../b"] = "../b"
  /\ Path.resolve "/cwd" "/srv/app/public/a/../b/" = "/srv/app/public/b"
  /\ Path.resolve "/cwd" "x/../../y" = "/y"
  /\ Path.extname "/a/b/index.html" = ".html"
  /\ Path.extname "/a/b/.bashrc" = EmptyString
  /\ Path.extname "/a.b/c" = EmptyString.
Proof. repeat split. Qed.

Example base64_examples :
  Base64.decode "aGVsbG8gd29ybGQ=" = Fs.encode "hello world"
  /\ Base64.decode "aGVs bG8g*d29ybGQ" = Fs.encode "hello world"
  /\ Base64.decode "aGVsbG8=d29ybGQ=" = Fs.encode "hello"
  /\ Base64.decode "aG" = Fs.encode "h".
Proof. repeat split. Qed.

(** ** JSON: [JSON.parse] reads back what [JSON.stringify] prints *)

Example stringify2_example :
  Json.stringify2 (JArr [faq_entry "Q" "A"; JArr []; JNum (Int (-12))])
  = "[" +:+ Json.nl +:+
    "  {" +:+ Json.nl +:+
    "    " +:+ Json.quote "question" +:+ ": " +:+ Json.quote "Q" +:+ "," +:+ Json.nl +:+
    "    " +:+ Json.quote "answer" +:+ ": " +:+ Json.quote "A" +:+ Json.nl +:+
    "  }," +:+ Json.nl +:+
    "  []," +:+ Json.nl +:+
    "  -12" +:+ Json.nl +:+
    "]".
Proof. reflexivity. Qed.

Example parse_examples :
  Json.parse "[1, 2 ,3]" = Some (JArr [JNum (Int 1); JNum (Int 2); JNum (Int 3)])
  /\ Json.parse " {} " = Some (JObj [])
  /\ Json.parse "-0" = Some (JNum (Int 0))
  /\ Json.parse "[1,]" = None
  /\ Json.parse "01" = None
  /\ Json.parse "nul" = None
  /\ Json.parse "[] x" = None
  /\ Json.parse EmptyString = None.
Proof. repeat split. Qed.


(** The numbers of the fragment: [2^53] is read as it is, the next
    integer is rounded by [JSON.parse] and is outside the fragment, and
    [10^309] is read as [Infinity], which is printed as [null]. *)
Example number_examples :
  Json.parse "9007199254740992" = Some (JNum (Int 9007199254740992))
  /\ Json.parse "9007199254740993" = None
  /\ Json.parse literal_1e309 = Some (JNum (Inf false))
  /\ Json.parse (String "-" literal_1e309) = Some (JNum (Inf true))
  /\ Json.stringify2 (JArr [JNum (Inf false)])
     = "[" +:+ Json.nl +:+ "  null" +:+ Json.nl +:+ "]"
  /\ Json.truthy (JNum (Inf true)) = true.
Proof. repeat split; vm_compute; reflexivity. Qed.

(** The coercion to a string: an array is joined, [null] counting for
    the empty text, and an object with a property [toString] has no
    string. *)
Example to_String_examples :
  to_String (JArr [JNull; JNum (Int 3); JArr [JStr "a"; JBool true]; JObj []])
  = Ok ",3,a,true,[object Object]"
  /\ to_String (JNum (Inf true)) = Ok "-Infinity"
  /\ to_String (JObj [("toString", JNum (Int 1))]) = Throw
  /\ to_String (JArr [JStr "a"; JObj [("toString", JNull)]]) = Throw
  /\ pattern_exec (JObj [("valueOf", JNum (Int 1))]) = Ok None.
Proof. repeat split. Qed.

Lemma append_cons (x : ascii) (a b : string) :
  String x a +:+ b = String x (a +:+ b).
Proof. reflexivity. Qed.

Lemma append_nil_l (a : string) : EmptyString +:+ a = a.
Proof. reflexivity. Qed.

Lemma append_assoc (a b c : string) : (a +:+ b) +:+ c = a +:+ b +:+ c.
Proof.
  induction a as [|x a IH]; [reflexivity|].
  rewrite !append_cons, IH. reflexivity.
Qed.

Lemma append_nil_r (a : string) : a +:+ EmptyString = a.
Proof.
  induction a as [|x a IH]; [reflexivity|]. rewrite append_cons, IH. reflexivity.
Qed.

Lemma parse_chars_escape_char (c : ascii) (tail : string) :
  Json.parse_chars (Json.escape_char c +:+ tail) =
  Json.cons_char c (Json.parse_chars tail).
Proof.
  destruct c as [[|] [|] [|] [|] [|] [|] [|] [|]]; reflexivity.
Qed.

Lemma parse_chars_escape (s rest : string) :
  Json.parse_chars (Json.escape s +:+ Json.dq +:+ rest) = Some (s, rest).
Proof.
  induction s as [|c s IH]; [reflexivity|].
  cbn [Json.escape]. rewrite append_assoc, parse_chars_escape_char, IH.
  reflexivity.
Qed.


Lemma delimited_not_digit (rest : string) :
  delimited rest = true ->
  Json.span_digits rest = (EmptyString, rest)
  /\ Json.starts_fraction rest = false.
Proof.
  destruct rest as [|c r]; [split; reflexivity|]. cbn [delimited].
  intros H. apply orb_true_iff in H.
  destruct H as [H|H]; apply N.eqb_eq in H;
    unfold Json.span_digits, Json.is_digit, Json.starts_fraction;
    rewrite H; split; reflexivity.
Qed.

Lemma span_digits_uint (d : Decimal.uint) (rest : string) :
  Json.span_digits rest = (EmptyString, rest) ->
  Json.span_digits (NilEmpty.string_of_uint d +:+ rest) =
  (NilEmpty.string_of_uint d, rest).
Proof.
  intros Hr. induction d; cbn [NilEmpty.string_of_uint];
    rewrite ?append_nil_l, ?append_cons; try exact Hr;
    cbn [Json.span_digits]; rewrite IHd; reflexivity.
Qed.


Lemma nzhead_not_D0 (d d' : Decimal.uint) : Decimal.nzhead d <> Decimal.D0 d'.
Proof. induction d; cbn; try discriminate. exact IHd. Qed.

Lemma to_uint_head_nonzero (p : positive) : head_nonzero (Pos.to_uint p).
Proof.
  assert (Hn : Pos.to_uint p = Decimal.unorm (Pos.to_uint p)).
  { rewrite <- DecimalPos.Unsigned.to_of, DecimalPos.Unsigned.of_to.
    reflexivity. }
  pose proof (Unsigned.to_uint_nonnil p) as Hnil.
  pose proof (Unsigned.to_uint_nonzero p) as Hz.
  destruct (Pos.to_uint p) as [|d'| | | | | | | | |] eqn:E; cbn; try exact I.
  - congruence.
  - rewrite unorm_D0 in Hn. unfold Decimal.unorm in Hn.
    destruct (Decimal.nzhead d') as [|u| | | | | | | | |] eqn:Eh;
      try discriminate Hn.
    + injection Hn as ->. congruence.
    + exact (nzhead_not_D0 d' u Eh).
Qed.

Lemma head_nonzero_string (d : Decimal.uint) :
  head_nonzero d ->
  exists c s, NilEmpty.string_of_uint d = String c s
              /\ Json.is_digit c = true
              /\ (N_of_ascii c =? 48)%N = false
              /\ (N_of_ascii c =? 45)%N = false.
Proof.
  destruct d; cbn [head_nonzero]; try contradiction; intros _;
    eexists _, _; (split; [reflexivity|]); repeat split.
Qed.

Lemma parse_digits (d : Decimal.uint) (neg : bool) (rest : string) :
  head_nonzero d ->
  delimited rest = true ->
  (let '(ds, r) := Json.span_digits (NilEmpty.string_of_uint d +:+ rest) in
   if Json.leading_zero ds || Json.starts_fraction r then None
   else match NilZero.uint_of_string ds with
        | Some u => Some (if neg then (- Z.of_uint u)%Z else Z.of_uint u, r)
        | None => None
        end) =
  Some (if neg then (- Z.of_uint d)%Z else Z.of_uint d, rest).
Proof.
  intros Hd Hr. destruct (delimited_not_digit rest Hr) as [Hs Hf].
  rewrite (span_digits_uint d rest Hs), Hf.
  destruct (head_nonzero_string d Hd) as (c & s & E & _ & H48 & _).
  assert (Hlz : Json.leading_zero (NilEmpty.string_of_uint d) = false).
  { rewrite E. destruct s; [reflexivity | exact H48]. }
  rewrite Hlz. cbn [orb].
  assert (Hu : NilZero.uint_of_string (NilEmpty.string_of_uint d) = Some d).
  { rewrite <- (NilZero.usu d) by (destruct d; cbn in Hd; congruence).
    destruct d; cbn in Hd; try contradiction; reflexivity. }
  rewrite Hu. reflexivity.
Qed.

Lemma parse_number_print (z : Z) (rest : string) :
  delimited rest = true ->
  Json.parse_number (Json.print_Z z +:+ rest) = Some (z, rest).
Proof.
  intros Hr. destruct z as [|p|p].
  - destruct (delimited_not_digit rest Hr) as [Hs Hf].
    change (Json.print_Z 0) with "0". rewrite append_cons, append_nil_l.
    unfold Json.parse_number.
    change (N_of_ascii "0" =? 45)%N with false. cbv iota beta.
    change (Json.span_digits (String "0" rest))
      with (let '(ds, r) := Json.span_digits rest in (String "0" ds, r)).
    rewrite Hs. cbv iota beta. rewrite Hf. reflexivity.
  - pose proof (to_uint_head_nonzero p) as Hd.
    change (Json.print_Z (Z.pos p)) with (NilZero.string_of_uint (Pos.to_uint p)).
    assert (E0 : NilZero.string_of_uint (Pos.to_uint p)
                 = NilEmpty.string_of_uint (Pos.to_uint p)).
    { destruct (Pos.to_uint p); cbn in Hd; try contradiction; reflexivity. }
    rewrite E0.
    destruct (head_nonzero_string _ Hd) as (c & s & E & _ & _ & H45).
    unfold Json.parse_number.
    assert (Hsplit : match NilEmpty.string_of_uint (Pos.to_uint p) +:+ rest with
                     | String c0 r =>
                         if (N_of_ascii c0 =? 45)%N then (true, r)
                         else (false, NilEmpty.string_of_uint (Pos.to_uint p) +:+ rest)
                     | EmptyString => (false, NilEmpty.string_of_uint (Pos.to_uint p) +:+ rest)
                     end = (false, NilEmpty.string_of_uint (Pos.to_uint p) +:+ rest)).
    { rewrite E, append_cons, H45. reflexivity. }
    rewrite Hsplit.
    rewrite (parse_digits _ false rest Hd Hr).
    unfold Z.of_uint. rewrite DecimalPos.Unsigned.of_to. reflexivity.
  - pose proof (to_uint_head_nonzero p) as Hd.
    change (Json.print_Z (Z.neg p))
      with (String "-" (NilZero.string_of_uint (Pos.to_uint p))).
    assert (E0 : NilZero.string_of_uint (Pos.to_uint p)
                 = NilEmpty.string_of_uint (Pos.to_uint p)).
    { destruct (Pos.to_uint p); cbn in Hd; try contradiction; reflexivity. }
    rewrite E0, append_cons.
    unfold Json.parse_number.
    change (N_of_ascii "-" =? 45)%N with true. cbv iota beta.
    rewrite (parse_digits _ true rest Hd Hr).
    unfold Z.of_uint. rewrite DecimalPos.Unsigned.of_to. reflexivity.
Qed.


Lemma skip_ws_indent (d : nat) (s : string) :
  Json.skip_ws (Json.indent d +:+ s) = Json.skip_ws s.
Proof. induction d as [|d IH]; [reflexivity|]. exact IH. Qed.

Lemma skip_ws_nl_indent (d : nat) (s : string) :
  Json.skip_ws (Json.nl +:+ Json.indent d +:+ s) = Json.skip_ws s.
Proof. exact (skip_ws_indent d s). Qed.

Lemma parse_value_skip (fuel : nat) (s s' : string) :
  Json.skip_ws s = Json.skip_ws s' ->
  Json.parse_value fuel s = Json.parse_value fuel s'.
Proof. intros H. destruct fuel; [reflexivity|]. cbn [Json.parse_value]. rewrite H. reflexivity. Qed.


Lemma value_start_facts (c : ascii) :
  value_start c = true ->
  Json.is_ws c = false /\ (N_of_ascii c =? 93)%N = false
  /\ (N_of_ascii c =? 125)%N = false.
Proof.
  destruct c as [[|] [|] [|] [|] [|] [|] [|] [|]]; cbn; intros H;
    try discriminate H; repeat split.
Qed.

Lemma print_Z_head (z : Z) :
  exists c s, Json.print_Z z = String c s
              /\ (Json.is_digit c || (N_of_ascii c =? 45)%N) = true.
Proof.
  destruct z as [|p|p].
  - eexists _, _; split; reflexivity.
  - pose proof (to_uint_head_nonzero p) as Hd.
    destruct (head_nonzero_string _ Hd) as (c & s & E & Hdig & _).
    exists c, s. split; [|rewrite Hdig; reflexivity].
    change (Json.print_Z (Z.pos p)) with (NilZero.string_of_uint (Pos.to_uint p)).
    rewrite <- E. destruct (Pos.to_uint p); cbn in Hd; try contradiction; reflexivity.
  - eexists _, _; split; reflexivity.
Qed.

Lemma print_head (d : nat) (v : json) :
  exists c s, Json.print d v = String c s /\ value_start c = true.
Proof.
  destruct v as [|[|]|[n|neg]|s|[|x xs]|[|[k x] xs]];
    try (eexists _, _; split; reflexivity).
  destruct (print_Z_head n) as (c & s & E & H).
  exists c, s. split; [exact E|]. unfold value_start.
  cbv zeta. rewrite H. reflexivity.
Qed.

Lemma skip_ws_print (d : nat) (v : json) (rest : string) :
  Json.skip_ws (Json.print d v +:+ rest) = Json.print d v +:+ rest.
Proof.
  destruct (print_head d v) as (c & s & -> & H).
  destruct (value_start_facts c H) as (Hws & _).
  rewrite append_cons. cbn [Json.skip_ws]. rewrite Hws. reflexivity.
Qed.


Lemma number_dispatch (f : nat) (c : ascii) (s : string) :
  (Json.is_digit c || (N_of_ascii c =? 45)%N) = true ->
  Json.parse_value (S f) (String c s) =
  match Json.parse_number (String c s) with
  | Some (z, r) =>
      match Json.number_of_literal z with
      | Some n => Some (JNum n, r)
      | None => None
      end
  | None => None
  end.
Proof.
  destruct c as [[|] [|] [|] [|] [|] [|] [|] [|]]; cbn; intros H;
    try discriminate H; reflexivity.
Qed.

Lemma array_dispatch (f : nat) (X : string) (c1 : ascii) (r1 : string) :
  Json.skip_ws X = String c1 r1 ->
  (N_of_ascii c1 =? 93)%N = false ->
  Json.parse_value (S f) (String "[" X) =
  match Json.parse_elements f X with
  | Some (l, r) => Some (JArr l, r)
  | None => None
  end.
Proof.
  intros H1 H2.
  change (Json.parse_value (S f) (String "[" X)) with
    (match Json.skip_ws X with
     | String c1 r1 =>
         if (N_of_ascii c1 =? 93)%N then Some (JArr [], r1)
         else match Json.parse_elements f X with
              | Some (l, r) => Some (JArr l, r)
              | None => None
              end
     | EmptyString => None
     end).
  rewrite H1, H2. reflexivity.
Qed.

Lemma object_dispatch (f : nat) (X : string) (c1 : ascii) (r1 : string) :
  Json.skip_ws X = String c1 r1 ->
  (N_of_ascii c1 =? 125)%N = false ->
  Json.parse_value (S f) (String "{" X) =
  match Json.parse_members f X with
  | Some (ms, r) => Some (JObj (Json.of_members ms), r)
  | None => None
  end.
Proof.
  intros H1 H2.
  change (Json.parse_value (S f) (String "{" X)) with
    (match Json.skip_ws X with
     | String c1 r1 =>
         if (N_of_ascii c1 =? 125)%N then Some (JObj [], r1)
         else match Json.parse_members f X with
              | Some (ms, r) => Some (JObj (Json.of_members ms), r)
              | None => None
              end
     | EmptyString => None
     end).
  rewrite H1, H2. reflexivity.
Qed.

Lemma delimited_items (pr : json -> string) (d : nat) (xs : list json)
    (rest : string) :
  delimited (Json.print_items pr d xs +:+ rest) = true.
Proof. destruct xs; reflexivity. Qed.

Lemma delimited_members (pr : json -> string) (d : nat)
    (xs : list (string * json)) (rest : string) :
  delimited (Json.print_members pr d xs +:+ rest) = true.
Proof. destruct xs as [|[k y] ys]; reflexivity. Qed.

Lemma parse_elements_print (xs : list json) :
  Forall roundtrips xs ->
  forallb Json.exact xs = true ->
  forall x, roundtrips x -> Json.exact x = true ->
  forall (d fuel : nat) (rest : string),
    (list_sum (map (fun y => S (Json.need y)) (x :: xs)) <= fuel)%nat ->
    delimited rest = true ->
    Json.parse_elements fuel
      (Json.nl +:+ Json.indent (S d) +:+ Json.print (S d) x +:+
       Json.print_items (Json.print (S d)) d xs +:+ rest)
    = Some (x :: xs, rest).
Proof.
  induction xs as [|y ys IH]; intros Hrt Hwf x Hx Hwx d fuel rest Hfuel Hrest;
    cbn [map list_sum fold_right] in Hfuel;
    (destruct fuel as [|f]; [lia|]); cbn [Json.parse_elements].
  - rewrite (parse_value_skip f _ _ (skip_ws_nl_indent (S d) _)).
    rewrite (Hx Hwx (S d) f _ ltac:(lia) (delimited_items _ d [] rest)).
    cbn [Json.print_items]. rewrite !append_assoc, skip_ws_nl_indent.
    reflexivity.
  - rewrite (parse_value_skip f _ _ (skip_ws_nl_indent (S d) _)).
    rewrite (Hx Hwx (S d) f _ ltac:(lia) (delimited_items _ d (y :: ys) rest)).
    cbn [Json.print_items]. rewrite !append_assoc, append_cons, append_nil_l.
    change (Json.skip_ws (String "," ?X)) with (String "," X).
    change (N_of_ascii "," =? 44)%N with true. cbv iota.
    cbn [forallb] in Hwf. apply andb_true_iff in Hwf. destruct Hwf as [Hwy Hwys].
    rewrite (IH (Forall_inv_tail Hrt) Hwys y (Forall_inv Hrt) Hwy d f rest);
      [reflexivity | cbn [map list_sum fold_right]; lia | exact Hrest].
Qed.

Lemma parse_key (k : string) (X : string) (f : nat) :
  Json.parse_members (S f) (Json.quote k +:+ ": " +:+ X) =
  match Json.parse_value f X with
  | Some (v, r3) =>
      match Json.skip_ws r3 with
      | String c' r4 =>
          if (N_of_ascii c' =? 44)%N then
            match Json.parse_members f r4 with
            | Some (ms, r5) => Some ((k, v) :: ms, r5)
            | None => None
            end
          else if (N_of_ascii c' =? 125)%N then Some ([(k, v)], r4)
          else None
      | EmptyString => None
      end
  | None => None
  end.
Proof.
  unfold Json.quote, Json.dq. rewrite !append_assoc, append_cons, append_nil_l.
  cbn [Json.parse_members].
  change (Json.skip_ws (String (ascii_of_nat 34) ?Y)) with (String (ascii_of_nat 34) Y).
  change (N_of_ascii (ascii_of_nat 34) =? 34)%N with true. cbv iota.
  change (String (ascii_of_nat 34) EmptyString) with Json.dq.
  rewrite parse_chars_escape.
  change (Json.skip_ws (": " +:+ X)) with (String ":" (" " +:+ X)).
  change (N_of_ascii ":" =? 58)%N with true. cbv iota.
  rewrite (parse_value_skip f (" " +:+ X) X eq_refl). reflexivity.
Qed.

Lemma parse_members_skip (fuel : nat) (s s' : string) :
  Json.skip_ws s = Json.skip_ws s' ->
  Json.parse_members fuel s = Json.parse_members fuel s'.
Proof.
  intros H. destruct fuel; [reflexivity|]. cbn [Json.parse_members].
  rewrite H. reflexivity.
Qed.

Lemma parse_members_print (xs : list (string * json)) :
  Forall (fun kv => roundtrips (snd kv)) xs ->
  forallb (fun kv => Json.exact (snd kv)) xs = true ->
  forall k x, roundtrips x -> Json.exact x = true ->
  forall (d fuel : nat) (rest : string),
    (list_sum (map (fun kv => S (Json.need (snd kv))) ((k, x) :: xs)) <= fuel)%nat ->
    delimited rest = true ->
    Json.parse_members fuel
      (Json.nl +:+ Json.indent (S d) +:+ Json.quote k +:+ ": " +:+
       Json.print (S d) x +:+
       Json.print_members (Json.print (S d)) d xs +:+ rest)
    = Some ((k, x) :: xs, rest).
Proof.
  induction xs as [|[k' y] ys IH];
    intros Hrt Hwf k x Hx Hwx d fuel rest Hfuel Hrest;
    cbn [map list_sum fold_right snd] in Hfuel;
    (destruct fuel as [|f]; [lia|]);
    rewrite (parse_members_skip (S f) _ _ (skip_ws_nl_indent (S d) _));
    rewrite parse_key.
  - rewrite (Hx Hwx (S d) f _ ltac:(lia) (delimited_members _ d [] rest)).
    cbn [Json.print_members]. rewrite !append_assoc, skip_ws_nl_indent.
    reflexivity.
  - rewrite (Hx Hwx (S d) f _ ltac:(lia)
               (delimited_members _ d ((k', y) :: ys) rest)).
    cbn [Json.print_members]. rewrite !append_assoc, append_cons, append_nil_l.
    change (Json.skip_ws (String "," ?X)) with (String "," X).
    change (N_of_ascii "," =? 44)%N with true. cbv iota.
    cbn [forallb snd] in Hwf. apply andb_true_iff in Hwf.
    destruct Hwf as [Hwy Hwys].
    rewrite (IH (Forall_inv_tail Hrt) Hwys k' y (Forall_inv Hrt) Hwy d f rest);
      [reflexivity | cbn [map list_sum fold_right snd]; lia | exact Hrest].
Qed.

Lemma set_fresh (k : string) (v : json) (acc : list (string * json)) :
  k ∉ map fst acc -> Json.set k v acc = (acc ++ [(k, v)])%list.
Proof.
  induction acc as [|[k' v'] acc IH]; intros Hk; [reflexivity|].
  cbn [Json.set app]. cbn [map fst] in Hk.
  apply not_elem_of_cons in Hk. destruct Hk as [Hne Hk].
  destruct (String.eqb_spec k k') as [->|_]; [congruence|].
  rewrite (IH Hk). reflexivity.
Qed.

Lemma fold_set_distinct (l acc : list (string * json)) :
  NoDup (map fst (acc ++ l)%list) ->
  fold_left (fun a kv => Json.set (fst kv) (snd kv) a) l acc = (acc ++ l)%list.
Proof.
  revert acc. induction l as [|[k v] l IH]; intros acc Hnd; cbn [fold_left fst snd].
  - rewrite app_nil_r. reflexivity.
  - rewrite set_fresh.
    + rewrite IH; rewrite <- app_assoc; [reflexivity | exact Hnd].
    + rewrite map_app in Hnd. apply NoDup_app in Hnd.
      destruct Hnd as (_ & Hd & _). intros Hin. apply (Hd k Hin). left.
Qed.

Lemma of_members_distinct (l : list (string * json)) :
  Json.distinct_keys l = true -> Json.of_members l = l.
Proof.
  unfold Json.distinct_keys. intros H. apply bool_decide_eq_true in H.
  unfold Json.of_members. rewrite fold_set_distinct; [reflexivity | exact H].
Qed.

Lemma parse_print (v : json) : roundtrips v.
Proof.
  induction v as [|b|n|s|l IH|l IH] using json_nested_ind;
    intros Hwf d fuel rest Hfuel Hrest;
    (destruct fuel as [|f]; [cbn in Hfuel; lia|]).
  - reflexivity.
  - destruct b; reflexivity.
  - destruct n as [n|neg]; [|discriminate Hwf]. cbn [Json.exact] in Hwf.
    destruct (print_Z_head n) as (c & s & E & H).
    cbn [Json.print Json.print_number].
    pose proof (parse_number_print n rest Hrest) as Hn.
    rewrite E in *. rewrite append_cons in *.
    rewrite (number_dispatch f c _ H), Hn.
    unfold Json.number_of_literal. rewrite Hwf. reflexivity.
  - cbn [Json.print]. unfold Json.quote, Json.dq.
    rewrite !append_assoc, append_cons, append_nil_l.
    change (Json.parse_value (S f) (String (ascii_of_nat 34) ?X)) with
      (match Json.parse_chars X with
       | Some (str, r) => Some (JStr str, r)
       | None => None
       end).
    change (String (ascii_of_nat 34) EmptyString) with Json.dq.
    rewrite parse_chars_escape. reflexivity.
  - destruct l as [|x xs]; [reflexivity|].
    cbn [Json.print]. rewrite !append_assoc, append_cons, append_nil_l.
    cbn [Json.exact forallb] in Hwf. apply andb_true_iff in Hwf.
    destruct Hwf as [Hwx Hwxs].
    cbn [Json.need] in Hfuel.
    destruct (print_head (S d) x) as (c & s & E & Hc).
    destruct (value_start_facts c Hc) as (Hws & H93 & _).
    rewrite (array_dispatch f _ c
               (s +:+ Json.print_items (Json.print (S d)) d xs +:+ rest)).
    + rewrite (parse_elements_print xs (Forall_inv_tail IH) Hwxs x
                 (Forall_inv IH) Hwx d f rest); [reflexivity | lia | exact Hrest].
    + rewrite skip_ws_nl_indent, skip_ws_print, E, append_cons. reflexivity.
    + exact H93.
  - destruct l as [|[k x] xs]; [reflexivity|].
    cbn [Json.print]. rewrite !append_assoc, append_cons, append_nil_l.
    pose proof Hwf as Hwf0.
    cbn [Json.exact forallb snd] in Hwf. apply andb_true_iff in Hwf.
    destruct Hwf as [Hkeys Hwf]. apply andb_true_iff in Hwf.
    destruct Hwf as [Hwx Hwxs].
    cbn [Json.need] in Hfuel.
    rewrite (object_dispatch f _ (ascii_of_nat 34)
               (Json.escape k +:+ Json.dq +:+ ": " +:+ Json.print (S d) x +:+
                Json.print_members (Json.print (S d)) d xs +:+ rest)).
    + rewrite (parse_members_print xs (Forall_inv_tail IH) Hwxs k x
                 (Forall_inv IH) Hwx d f rest); [| lia | exact Hrest].
      rewrite (of_members_distinct _ Hkeys). reflexivity.
    + rewrite skip_ws_nl_indent. unfold Json.quote, Json.dq.
      rewrite !append_assoc, append_cons, append_nil_l. reflexivity.
    + reflexivity.
Qed.

Lemma length_append (a b : string) :
  String.length (a +:+ b) = (String.length a + String.length b)%nat.
Proof.
  induction a as [|x a IH]; [reflexivity|].
  rewrite append_cons. cbn [String.length]. rewrite IH. reflexivity.
Qed.

Lemma need_items (pr : json -> string) (d : nat) (xs : list json) :
  Forall (fun y => Json.need y <= String.length (pr y))%nat xs ->
  (list_sum (map (fun y => S (Json.need y)) xs)
   <= String.length (Json.print_items pr d xs))%nat.
Proof.
  unfold list_sum.
  induction 1 as [|y ys Hy _ IH]; cbn [map fold_right Json.print_items].
  - lia.
  - rewrite !length_append. cbn [String.length]. lia.
Qed.

Lemma need_members (pr : json -> string) (d : nat) (xs : list (string * json)) :
  Forall (fun kv => Json.need (snd kv) <= String.length (pr (snd kv)))%nat xs ->
  (list_sum (map (fun kv => S (Json.need (snd kv))) xs)
   <= String.length (Json.print_members pr d xs))%nat.
Proof.
  unfold list_sum.
  induction 1 as [|[k y] ys Hy _ IH];
    cbn [map fold_right Json.print_members snd] in *.
  - lia.
  - rewrite !length_append. cbn [String.length]. lia.
Qed.

Lemma need_le_length (v : json) :
  forall d, (Json.need v <= String.length (Json.print d v))%nat.
Proof.
  induction v as [|b|n|s|l IH|l IH] using json_nested_ind; intros d.
  - cbn. lia.
  - destruct b; cbn; lia.
  - destruct n as [n|neg]; [|cbn; lia].
    destruct (print_Z_head n) as (c & s & E & _).
    cbn [Json.print Json.print_number Json.need]. rewrite E.
    cbn [String.length]. lia.
  - cbn [Json.print Json.need]. unfold Json.quote, Json.dq.
    rewrite append_cons. cbn [String.length]. lia.
  - destruct l as [|x xs]; [cbn; lia|].
    cbn [Json.print Json.need map list_sum fold_right].
    rewrite !length_append. cbn [String.length].
    pose proof (Forall_inv IH (S d)) as Hx.
    pose proof (need_items (Json.print (S d)) d xs) as Hxs.
    unfold list_sum in Hxs.
    assert (Forall (fun y => Json.need y <= String.length (Json.print (S d) y))%nat xs)
      as Hall.
    { eapply Forall_impl; [exact (Forall_inv_tail IH)|]. intros y Hy. apply Hy. }
    specialize (Hxs Hall). change (String.length Json.nl) with 1%nat. lia.
  - destruct l as [|[k x] xs]; [cbn; lia|].
    cbn [Json.print Json.need map list_sum fold_right snd].
    rewrite !length_append. cbn [String.length].
    pose proof (Forall_inv IH (S d)) as Hx. cbn [snd] in Hx.
    pose proof (need_members (Json.print (S d)) d xs) as Hxs.
    unfold list_sum in Hxs.
    assert (Forall (fun kv => Json.need (snd kv)
                              <= String.length (Json.print (S d) (snd kv)))%nat xs)
      as Hall.
    { eapply Forall_impl; [exact (Forall_inv_tail IH)|]. intros y Hy. apply Hy. }
    specialize (Hxs Hall). change (String.length Json.nl) with 1%nat. lia.
Qed.

(** [JSON.parse(JSON.stringify(v, null, 2))] is [v], for a value without
    a number that is not finite. *)
Theorem parse_stringify2 (v : json) :
  Json.exact v = true -> Json.parse (Json.stringify2 v) = Some v.
Proof.
  intros Hwf. unfold Json.parse, Json.stringify2.
  pose proof (parse_print v Hwf 0%nat (S (String.length (Json.print 0 v)))
                EmptyString) as H.
  rewrite append_nil_r in H. rewrite H; [reflexivity | | reflexivity].
  pose proof (need_le_length v 0%nat). lia.
Qed.

Lemma set_keys (k : string) (v : json) (acc : list (string * json)) :
  map fst (Json.set k v acc) =
  if bool_decide (k ∈ map fst acc) then map fst acc else (map fst acc ++ [k])%list.
Proof.
  induction acc as [|[k' v'] acc IH]; [reflexivity|].
  cbn [Json.set map fst]. destruct (String.eqb_spec k k') as [->|Hne].
  - rewrite bool_decide_eq_true_2 by left. reflexivity.
  - cbn [map fst]. rewrite IH. case_bool_decide as H1; case_bool_decide as H2;
      try reflexivity.
    + exfalso. apply H2. right. exact H1.
    + exfalso. apply elem_of_cons in H2. destruct H2; [congruence | contradiction].
Qed.

Lemma set_NoDup (k : string) (v : json) (acc : list (string * json)) :
  NoDup (map fst acc) -> NoDup (map fst (Json.set k v acc)).
Proof.
  intros H. rewrite set_keys. case_bool_decide as Hin; [exact H|].
  apply NoDup_app. split; [exact H|]. split.
  - intros x Hx Hx'. apply list_elem_of_singleton in Hx'. subst x. exact (Hin Hx).
  - apply NoDup_singleton.
Qed.

Lemma set_wf (k : string) (v : json) (acc : list (string * json)) :
  Json.wf v = true ->
  forallb (fun kv => Json.wf (snd kv)) acc = true ->
  forallb (fun kv => Json.wf (snd kv)) (Json.set k v acc) = true.
Proof.
  intros Hv. induction acc as [|[k' v'] acc IH]; cbn [Json.set forallb snd].
  - intros _. rewrite Hv. reflexivity.
  - intros H. apply andb_true_iff in H. destruct H as [H1 H2].
    destruct (String.eqb k k'); cbn [forallb snd].
    + rewrite Hv, H2. reflexivity.
    + rewrite H1, (IH H2). reflexivity.
Qed.

Lemma of_members_wf (ms : list (string * json)) :
  forallb (fun kv => Json.wf (snd kv)) ms = true ->
  Json.wf (JObj (Json.of_members ms)) = true.
Proof.
  intros H. unfold Json.of_members.
  assert (Hgen : forall acc,
            NoDup (map fst acc) ->
            forallb (fun kv => Json.wf (snd kv)) acc = true ->
            Json.wf (JObj (fold_left (fun a kv => Json.set (fst kv) (snd kv) a)
                             ms acc)) = true).
  { induction ms as [|[k v] ms IH]; intros acc Hnd Hacc; cbn [fold_left fst snd].
    - cbn [Json.wf]. unfold Json.distinct_keys.
      rewrite (bool_decide_eq_true_2 _ Hnd), Hacc. reflexivity.
    - cbn [forallb snd] in H. apply andb_true_iff in H. destruct H as [Hv Hms].
      apply (IH Hms); [apply set_NoDup, Hnd | apply set_wf; assumption]. }
  apply Hgen; [constructor | reflexivity].
Qed.

Lemma number_of_literal_readable (z : Z) (n : number) :
  Json.number_of_literal z = Some n -> Json.readable n = true.
Proof.
  unfold Json.number_of_literal.
  destruct (Z.abs z <=? Json.max_exact) eqn:E.
  - intros H. injection H as <-. exact E.
  - destruct (Json.overflow <=? Z.abs z); [|discriminate].
    intros H. injection H as <-. reflexivity.
Qed.

Lemma parse_wf_fuel (fuel : nat) :
  (forall s v r, Json.parse_value fuel s = Some (v, r) -> Json.wf v = true)
  /\ (forall s l r, Json.parse_elements fuel s = Some (l, r) ->
                    forallb Json.wf l = true)
  /\ (forall s ms r, Json.parse_members fuel s = Some (ms, r) ->
                     forallb (fun kv => Json.wf (snd kv)) ms = true).
Proof.
  induction fuel as [|f (IHv & IHe & IHm)];
    [repeat split; intros; discriminate|].
  split; [|split].
  - intros s v r. cbn [Json.parse_value]. unfold Json.literal.
    repeat match goal with
           | |- context [match ?x with _ => _ end] => destruct x eqn:?
           | |- context [if ?x then _ else _] => destruct x eqn:?
           end;
      try discriminate; intros H; injection H as <- <-; try reflexivity;
      try (cbn [Json.wf]; eapply number_of_literal_readable; eassumption).
    + cbn [Json.wf]. eapply IHe. eassumption.
    + apply of_members_wf. eapply IHm. eassumption.
  - intros s l r. cbn [Json.parse_elements].
    repeat match goal with
           | |- context [match ?x with _ => _ end] => destruct x eqn:?
           | |- context [if ?x then _ else _] => destruct x eqn:?
           end;
      try discriminate; intros H; injection H as <- <-; cbn [forallb].
    + erewrite IHv by eassumption. eapply IHe. eassumption.
    + erewrite IHv by eassumption. reflexivity.
  - intros s ms r. cbn [Json.parse_members].
    repeat match goal with
           | |- context [match ?x with _ => _ end] => destruct x eqn:?
           | |- context [if ?x then _ else _] => destruct x eqn:?
           end;
      try discriminate; intros H; injection H as <- <-; cbn [forallb snd].
    + erewrite IHv by eassumption. eapply IHm. eassumption.
    + erewrite IHv by eassumption. reflexivity.
Qed.

(** What [JSON.parse] yields has no object with two properties of the same
    name. *)
Lemma parse_wf (s : string) (v : json) : Json.parse s = Some v -> Json.wf v = true.
Proof.
  unfold Json.parse. destruct (Json.parse_value _ s) as [[v' r]|] eqn:E;
    [|discriminate].
  destruct (Json.skip_ws r); [|discriminate]. intros H. injection H as <-.
  exact (proj1 (parse_wf_fuel _) _ _ _ E).
Qed.

(** ** Sessions *)

Section Sessions.

Variables (now : Z) (req : Request) (st : State).
Variables (bytes : list byte) (s : session).

Let token := Str.hex bytes.

Hypothesis Hheader : authorization req = Some ("Bearer " +:+ token).
Hypothesis Hregistered : sessions st !! token = Some s.

Lemma isAuthenticated_registered :
  isAuthenticated now req st =
    if DAY <? now - timestamp s
    then (set_sessions (delete token (sessions st)) st, false)
    else (set_sessions (<[token := {| timestamp := now |}]> (sessions st)) st,
          true).
Proof.
  unfold isAuthenticated. rewrite Hheader.
  change (Str.truthy ("Bearer " +:+ token)) with true. cbn [negb].
  rewrite (split_bearer token (split_hex bytes)).
  change (String.eqb "Bearer" "Bearer") with true. cbn [negb].
  unfold sessions_get. rewrite Hregistered. cbn.
  destruct (DAY <? now - timestamp s); reflexivity.
Qed.

End Sessions.

(** C1. For a token of the registry presented as [Bearer <token>],
    [isAuthenticated] returns true exactly when the time since the stored
    timestamp (the last successful authentication, or the login) is at most
    24 hours; on success the stored timestamp becomes [now] and nothing
    else changes; otherwise the answer is false and the entry is deleted. *)
Theorem C1_sliding_expiration (now : Z) (req : Request) (st : State)
    (bytes : list byte) (s : session) :
  authorization req = Some ("Bearer " +:+ Str.hex bytes) ->
  sessions st !! Str.hex bytes = Some s ->
  let token := Str.hex bytes in
  let st' := fst (isAuthenticated now req st) in
  let ok := snd (isAuthenticated now req st) in
  (ok = true <-> now - timestamp s <= DAY)
  /\ (ok = true ->
      st' = set_sessions (<[token := {| timestamp := now |}]> (sessions st)) st
      /\ sessions st' !! token = Some {| timestamp := now |})
  /\ (ok = false ->
      st' = set_sessions (delete token (sessions st)) st
      /\ sessions st' !! token = None).
Proof.
  intros Hh Hr token st' ok. subst st' ok.
  rewrite (isAuthenticated_registered now req st bytes s Hh Hr).
  fold token.
  destruct (Z.ltb_spec DAY (now - timestamp s)) as [Hlt|Hle]; cbn [fst snd].
  - split; [split; [discriminate | lia]|].
    split; [discriminate|]. intros _. split; [reflexivity|].
    cbn. apply lookup_delete_eq.
  - split; [split; [lia | reflexivity]|].
    split; [|discriminate]. intros _. split; [reflexivity|].
    cbn. apply lookup_insert_eq.
Qed.

Lemma C1_sliding_expiration_witness :
  let st' := fst (isAuthenticated 1000 (bearer "00ff") st_session) in
  let ok := snd (isAuthenticated 1000 (bearer "00ff") st_session) in
  (ok = true <-> 1000 - 0 <= DAY)
  /\ (ok = true ->
      st' = set_sessions (<["00ff" := {| timestamp := 1000 |}]> (sessions st_session))
              st_session
      /\ sessions st' !! "00ff" = Some {| timestamp := 1000 |})
  /\ (ok = false ->
      st' = set_sessions (delete "00ff" (sessions st_session)) st_session
      /\ sessions st' !! "00ff" = None).
Proof.
  exact (C1_sliding_expiration 1000 (bearer "00ff") st_session [x00; xff]
           {| timestamp := 0 |} eq_refl eq_refl).
Defined.

(** A login with the fixed credentials stores the time under a fresh
    token and answers with the token. *)
Lemma login_creates_session (inp : Inputs) (req : Request) (st : State) :
  field (parseBody req) "username" = Ok (Some (JStr "admin")) ->
  field (parseBody req) "password" = Ok (Some (JStr "admin")) ->
  login inp req st =
    (set_sessions (<[Str.hex (tokenBytes inp) := {| timestamp := now inp |}]>
                     (sessions st)) st,
     Ok (sendJson 200 (JObj [("token", JStr (Str.hex (tokenBytes inp)))]))).
Proof.
  intros Hu Hp. unfold login, bind, lift, modify, ret. rewrite Hu, Hp.
  reflexivity.
Qed.

(** The expiry slides: a token issued at time 1000 and used one day
    later is still good two days after its issue, and no more after a
    further day and a millisecond; the entry is then gone for good. *)
Example sliding_scenario :
  let req := bearer "00ff" in
  let st1 := fst (login inp0 req_login st_empty) in
  let r2 := isAuthenticated (1000 + DAY) req st1 in
  let r3 := isAuthenticated (1000 + 2 * DAY) req (fst r2) in
  let r4 := isAuthenticated (1000 + 3 * DAY + 1) req (fst r3) in
  let r5 := isAuthenticated (1000 + 3 * DAY + 2) req (fst r4) in
  sessions st1 !! "00ff" = Some {| timestamp := 1000 |}
  /\ snd r2 = true /\ snd r3 = true /\ snd r4 = false
  /\ sessions (fst r4) !! "00ff" = None
  /\ snd r5 = false.
Proof. repeat split. Qed.

(** [sessions] is an object literal: a header that names a member function
    of [Object.prototype] finds that function under [sessions[token]], its
    [timestamp] is undefined, and the request passes for authenticated. *)
Lemma isAuthenticated_member_function (now : Z) (req : Request) (st : State)
    (name : string) :
  name ∈ member_functions ->
  authorization req = Some ("Bearer " +:+ name) ->
  sessions st !! name = None ->
  objectPrototype st = no_pollution ->
  isAuthenticated now req st =
    (set_objectPrototype
       {| proto_timestamp := None; member_timestamp := {[ name := now ]} |} st,
     true).
Proof.
  intros Hin Hauth Hown Hproto.
  assert (Hsplit : Str.split " " name = [name]).
  { unfold member_functions in Hin.
    repeat (apply elem_of_cons in Hin; destruct Hin as [-> | Hin]);
      [..|inversion Hin]; reflexivity. }
  unfold isAuthenticated. rewrite Hauth.
  change (Str.truthy ("Bearer " +:+ name)) with true. cbn [negb].
  rewrite (split_bearer name Hsplit).
  change (String.eqb "Bearer" "Bearer") with true. cbn [negb].
  unfold sessions_get, inherited. rewrite Hown, (bool_decide_eq_true_2 _ Hin).
  cbn [fmap option_fmap option_map truthy_ref truthy_val negb read_timestamp
       write_timestamp].
  rewrite Hproto. reflexivity.
Qed.

(** ** The answer matcher *)

Lemma prefix_spec (p s : string) :
  Str.prefix p s = true <-> exists post, s = p +:+ post.
Proof.
  revert s. induction p as [|a p IH]; intros s; cbn [Str.prefix].
  - split; [intros _; exists s; reflexivity | reflexivity].
  - destruct s as [|b s]; [split; [discriminate | intros [post H]; discriminate]|].
    destruct (Ascii.eqb_spec a b) as [->|Hne]; cbn [andb].
    + rewrite IH. split; intros [post H]; exists post; [rewrite H; reflexivity|].
      injection H as H. exact H.
    + split; [discriminate|]. intros [post H]. injection H as H1 H2. congruence.
Qed.

Lemma includes_spec (s sub : string) :
  Str.includes s sub = true <-> substring_of sub s.
Proof.
  induction s as [|c s IH]; cbn [Str.includes].
  - rewrite orb_false_r, prefix_spec. split.
    + intros [post H]. exists EmptyString, post. exact H.
    + intros [pre [post H]]. destruct pre; [exists post; exact H | discriminate].
  - rewrite orb_true_iff, prefix_spec, IH. split.
    + intros [[post H]|[pre [post H]]].
      * exists EmptyString, post. exact H.
      * exists (String c pre), post. cbn. rewrite H. reflexivity.
    + intros [pre [post H]]. destruct pre as [|c' pre].
      * left. exists post. exact H.
      * right. injection H as _ H. exists pre, post. exact H.
Qed.

Section Find.

Variable pred : json -> outcome bool.
Variable P : json -> Prop.

Lemma find_first (l : list json) (x : json) :
  Forall (decides pred P) l -> first_such P l x -> find pred l = Ok (Some x).
Proof.
  intros Hd (l1 & l2 & -> & Hx & Hl1).
  induction l1 as [|y l1 IH]; cbn [app find].
  - apply Forall_inv in Hd. destruct Hd as (b & -> & Hb).
    apply Hb in Hx. rewrite Hx. reflexivity.
  - pose proof (Forall_inv Hd) as (b & -> & Hb).
    pose proof (Forall_inv Hl1) as Hny.
    destruct b; [exfalso; apply Hny, Hb; reflexivity|].
    apply IH; [exact (Forall_inv_tail Hd) | exact (Forall_inv_tail Hl1)].
Qed.

Lemma find_none (l : list json) :
  Forall (decides pred P) l -> Forall (fun y => ~ P y) l ->
  find pred l = Ok None.
Proof.
  induction l as [|y l IH]; intros Hd Hn; cbn [find]; [reflexivity|].
  pose proof (Forall_inv Hd) as (b & -> & Hb).
  destruct b; [exfalso; apply (Forall_inv Hn), Hb; reflexivity|].
  apply IH; [exact (Forall_inv_tail Hd) | exact (Forall_inv_tail Hn)].
Qed.

End Find.

Lemma exact_decides (question : string) (y : json) :
  has_question y ->
  decides (exact (Str.toLowerCase question)) (exact_match question) y.
Proof.
  intros [q Hq]. unfold decides, exact, question_lower. rewrite Hq.
  eexists; split; [reflexivity|]. rewrite String.eqb_eq. split.
  - intros H. exists q. split; [exact Hq | exact H].
  - intros (q' & Hq' & H). congruence.
Qed.

Lemma partial_decides (question : string) (y : json) :
  has_question y ->
  decides (partial (Str.toLowerCase question)) (substring_match question) y.
Proof.
  intros [q Hq]. unfold decides, partial, question_lower. rewrite Hq.
  eexists; split; [reflexivity|].
  rewrite orb_true_iff, !includes_spec. split.
  - intros H. exists q. split; [exact Hq | exact H].
  - intros (q' & Hq' & H). replace q with q' by congruence. exact H.
Qed.

Lemma has_question_truthy (y : json) : has_question y -> Json.truthy y = true.
Proof. intros [q Hq]. destruct y; try discriminate; reflexivity. Qed.

Lemma first_such_in (P : json -> Prop) (l : list json) (x : json) :
  first_such P l x -> x ∈ l.
Proof. intros (l1 & l2 & -> & _). apply elem_of_app. right. left. Qed.

(** C6. For a non-empty question and stored entries that have a question
    text: the answer is the one of the first entry, in insertion order,
    whose question equals the input case apart; when there is no such
    entry, the one of the first entry whose question contains the input or
    is contained in it; and when there is none either, no answer. *)
Theorem C6_exact_then_substring (l : list json) (question : string) :
  Str.truthy question = true ->
  Forall has_question l ->
  (forall x, first_such (exact_match question) l x ->
             matchAnswer l question = field x "answer")
  /\ (Forall (fun y => ~ exact_match question y) l ->
      forall x, first_such (substring_match question) l x ->
                matchAnswer l question = field x "answer")
  /\ (Forall (fun y => ~ exact_match question y) l ->
      Forall (fun y => ~ substring_match question y) l ->
      matchAnswer l question = Ok None).
Proof.
  intros Hq Hl. unfold matchAnswer. rewrite Hq.
  assert (He : Forall (decides (exact (Str.toLowerCase question))
                         (exact_match question)) l).
  { eapply Forall_impl; [exact Hl | apply exact_decides]. }
  assert (Hp : Forall (decides (partial (Str.toLowerCase question))
                         (substring_match question)) l).
  { eapply Forall_impl; [exact Hl | apply partial_decides]. }
  assert (Ht : forall P x, first_such P l x -> Json.truthy x = true).
  { intros P x Hx. apply has_question_truthy.
    rewrite Forall_forall in Hl. apply Hl, (first_such_in P), Hx. }
  split; [|split].
  - intros x Hx. rewrite (find_first _ _ l x He Hx). cbn [truthy_opt].
    rewrite (Ht _ _ Hx). reflexivity.
  - intros Hne x Hx. rewrite (find_none _ _ l He Hne). cbn [truthy_opt].
    rewrite (find_first _ _ l x Hp Hx). cbn [truthy_opt].
    rewrite (Ht _ _ Hx). reflexivity.
  - intros Hne Hnp. rewrite (find_none _ _ l He Hne). cbn [truthy_opt].
    rewrite (find_none _ _ l Hp Hnp). reflexivity.
Qed.

(** ** Adding a FAQ *)

Lemma forallb_andb {A} (f g h : A -> bool) (l : list A) :
  Forall (fun x => f x = g x && h x) l ->
  forallb f l = forallb g l && forallb h l.
Proof.
  induction 1 as [|x l Hx _ IH]; [reflexivity|].
  cbn [forallb]. rewrite Hx, IH. destruct (g x), (h x), (forallb g l); reflexivity.
Qed.

(** The values that are printed and read back are those [JSON.parse] can
    yield that hold no number that is not finite. *)
Lemma exact_wf_finite (v : json) : Json.exact v = Json.wf v && Json.finite v.
Proof.
  induction v as [|b|[z|neg]|s|l IH|l IH] using json_nested_ind;
    try reflexivity.
  - cbn [Json.exact Json.wf Json.finite Json.readable]. rewrite andb_true_r.
    reflexivity.
  - cbn [Json.exact Json.wf Json.finite]. exact (forallb_andb _ _ _ l IH).
  - cbn [Json.exact Json.wf Json.finite].
    rewrite (forallb_andb (fun kv => Json.exact (snd kv))
               (fun kv => Json.wf (snd kv)) (fun kv => Json.finite (snd kv)) l IH).
    rewrite andb_assoc. reflexivity.
Qed.

(** [isAuthenticated] touches the sessions and the prototype only. *)
Lemma isAuthenticated_frame (now : Z) (req : Request) (st : State) :
  let st' := fst (isAuthenticated now req st) in
  faqs st' = faqs st /\ gallery st' = gallery st
  /\ localesCache st' = localesCache st /\ disk st' = disk st.
Proof.
  intros st'. subst st'. unfold isAuthenticated.
  destruct (authorization req) as [auth|]; [|repeat split].
  destruct (negb (Str.truthy auth)); [repeat split|].
  destruct (Str.split " " auth) as [|scheme [|token [|? ?]]];
    try solve [repeat split].
  destruct (negb (String.eqb scheme "Bearer")); [repeat split|].
  destruct (sessions_get st token) as [r|]; [|repeat split].
  destruct (negb (truthy_ref r)); [repeat split|].
  destruct (expired now (read_timestamp st r)); [repeat split|].
  destruct r as [s|[j|name|]]; repeat split.
Qed.

Lemma read_after_write (fs fs' : FS) (p : string) (data : list byte) :
  Fs.writeFileSync fs p data = Ok fs' -> Fs.readFileSync fs' p = Ok data.
Proof.
  unfold Fs.writeFileSync, Fs.readFileSync. intros H.
  destruct (bool_decide (p ∈ failing fs)); [discriminate|].
  assert (fs' = {| nodes := <[p := File data]> (nodes fs); failing := failing fs |})
    as ->.
  { destruct (nodes fs !! p) as [[|d]|]; congruence. }
  cbn [nodes]. rewrite lookup_insert_eq. reflexivity.
Qed.

Section AddFaq.

Variables (cfg : Config) (inp : Inputs) (req : Request) (st : State).
Variables (q a : string).

Let st1 := fst (isAuthenticated (now inp) req st).
Let entry := faq_entry (Str.trim q) (Str.trim a).
Let document := Fs.encode (Json.stringify2 (JArr (faqs st ++ [entry]))).

Hypothesis Hauth : snd (isAuthenticated (now inp) req st) = true.
Hypothesis Hquestion : field (parseBody req) "question" = Ok (Some (JStr q)).
Hypothesis Hanswer : field (parseBody req) "answer" = Ok (Some (JStr a)).
Hypothesis Hq : Str.truthy (Str.trim q) = true.
Hypothesis Ha : Str.truthy (Str.trim a) = true.

(** The run of the handler on an authenticated, valid request. *)
Lemma addFaq_valid :
  addFaq cfg inp req st =
    (match Fs.writeFileSync (disk st) (faqsPath cfg) document with
     | Ok fs => set_disk fs (set_faqs (faqs st ++ [entry]) st1)
     | Throw => set_faqs (faqs st ++ [entry]) st1
     end,
     Ok (sendJson 200 (JObj [("success", JBool true)]))).
Proof.
  destruct (isAuthenticated_frame (now inp) req st) as (Hf & _ & _ & Hd).
  fold st1 in Hf, Hd.
  unfold addFaq, bind, isAuthenticatedM.
  rewrite (surjective_pairing (isAuthenticated (now inp) req st)), Hauth.
  fold st1. cbn [negb]. unfold lift. rewrite Hquestion, Hanswer, Hq, Ha.
  cbn [andb]. unfold modify, try_catch, bind, gets, writeFile, ret.
  cbn [faqs set_faqs disk]. rewrite Hf, Hd. fold entry. fold document.
  destruct (Fs.writeFileSync (disk st) (faqsPath cfg) document); reflexivity.
Qed.

Hypothesis Hmethod : method req = "POST".
Hypothesis Hpath : pathname req = "/api/admin/add-faq".

Lemma handle_addFaq :
  handle cfg inp req st =
    Some (match Fs.writeFileSync (disk st) (faqsPath cfg) document with
          | Ok fs => set_disk fs (set_faqs (faqs st ++ [entry]) st1)
          | Throw => set_faqs (faqs st ++ [entry]) st1
          end,
          sendJson 200 (JObj [("success", JBool true)])).
Proof.
  unfold handle, route. rewrite Hmethod, Hpath.
  change (String.eqb "POST" "OPTIONS") with false.
  change (String.eqb "POST" "GET") with false.
  change (String.eqb "POST" "POST") with true.
  change (String.eqb "/api/admin/add-faq" "/api/chat") with false.
  change (String.eqb "/api/admin/add-faq" "/api/admin/login") with false.
  change (String.eqb "/api/admin/add-faq" "/api/admin/add-faq") with true.
  cbn [andb]. rewrite addFaq_valid. reflexivity.
Qed.


(** C4. The same request is answered 200 with [success: true] whatever
    the write of [faqs.json] does; when the write throws, the disk is as
    before while the new entry stays in the in-memory sequence and
    [GET /api/faqs] lists it. *)
Theorem C4_success_despite_write_failure :
  exists st',
    handle cfg inp req st = Some (st', sendJson 200 (JObj [("success", JBool true)]))
    /\ (Fs.writeFileSync (disk st) (faqsPath cfg) document = Throw ->
        faqs st' = (faqs st ++ [entry])%list
        /\ disk st' = disk st
        /\ (forall inp' get, method get = "GET" -> pathname get = "/api/faqs" ->
              handle cfg inp' get st'
              = Some (st', sendJson 200 (JArr (faqs st ++ [entry]))))).
Proof.
  eexists. split; [exact handle_addFaq|].
  intros Hw. rewrite Hw.
  destruct (isAuthenticated_frame (now inp) req st) as (_ & _ & _ & Hd).
  split; [reflexivity|]. split; [exact Hd|].
  intros inp' get Hm Hp. unfold handle, route. rewrite Hm, Hp.
  change (String.eqb "GET" "OPTIONS") with false.
  change (String.eqb "GET" "GET") with true.
  change (Str.startsWith "/api/faqs" "/api/locales/") with false.
  change (String.eqb "/api/faqs" "/api/faqs") with true.
  reflexivity.
Qed.

End AddFaq.

(** ** The invariant is kept *)

Lemma keeps_ret {A} (a : A) : keeps (ret a).
Proof. intros st st' o H. unfold ret in H. injection H as <- _. exact id. Qed.

Lemma keeps_lift {A} (o : outcome A) : keeps (lift o).
Proof. intros st st' o' H. unfold lift in H. injection H as <- _. exact id. Qed.

Lemma keeps_gets {A} (f : State -> A) : keeps (gets f).
Proof. intros st st' o H. unfold gets in H. injection H as <- _. exact id. Qed.

Lemma keeps_bind {A B} (m : M A) (k : A -> M B) :
  keeps m -> (forall a, keeps (k a)) -> keeps (bind m k).
Proof.
  intros Hm Hk st st' o. unfold bind.
  destruct (m st) as [st1 [a|]] eqn:E.
  - intros H Hinv. exact (Hk a _ _ _ H (Hm _ _ _ E Hinv)).
  - intros H Hinv. injection H as <- _. exact (Hm _ _ _ E Hinv).
Qed.

Lemma keeps_try_catch {A} (m handler : M A) :
  keeps m -> keeps handler -> keeps (try_catch m handler).
Proof.
  intros Hm Hh st st' o. unfold try_catch.
  destruct (m st) as [st1 [a|]] eqn:E.
  - intros H Hinv. injection H as <- _. exact (Hm _ _ _ E Hinv).
  - intros H Hinv. exact (Hh _ _ _ H (Hm _ _ _ E Hinv)).
Qed.

Lemma keeps_modify (f : State -> State) :
  (forall st, faqs_wf st -> faqs_wf (f st)) -> keeps (modify f).
Proof. intros Hf st st' o H. unfold modify in H. injection H as <- _. apply Hf. Qed.

Lemma keeps_writeFile (p : string) (data : list byte) : keeps (writeFile p data).
Proof.
  intros st st' o. unfold writeFile.
  destruct (Fs.writeFileSync (disk st) p data); intros H; injection H as <- _;
    exact id.
Qed.

Lemma getLocale_fuel_faqs (cfg : Config) (fuel : nat) :
  forall lang st st' o,
    getLocale_fuel fuel cfg lang st = Some (st', o) -> faqs st' = faqs st.
Proof.
  induction fuel as [|f IH]; intros lang st st' o; [discriminate|].
  cbn [getLocale_fuel].
  destruct (cache_hit st lang); [intros H; injection H as <- _; reflexivity|].
  destruct (Fs.readFile (disk st) (localePath cfg lang)) as [| |data].
  - intros H; injection H as <- _; reflexivity.
  - destruct (negb (String.eqb lang "en")); [apply IH|].
    intros H; injection H as <- _; reflexivity.
  - destruct (Json.parse (Fs.decode data));
      intros H; injection H as <- _; reflexivity.
Qed.

Lemma keeps_getLocale (cfg : Config) (lang : string) : keeps (getLocale cfg lang).
Proof.
  intros st st' o. unfold getLocale, faqs_wf.
  destruct (getLocale_fuel 2 cfg lang st) as [[st1 o1]|] eqn:E.
  - intros H. injection H as <- _.
    rewrite (getLocale_fuel_faqs cfg _ _ _ _ _ E). exact id.
  - intros H. injection H as <- _. exact id.
Qed.

Lemma keeps_isAuthenticatedM (inp : Inputs) (req : Request) :
  keeps (isAuthenticatedM inp req).
Proof.
  intros st st' o. unfold isAuthenticatedM.
  destruct (isAuthenticated_frame (now inp) req st) as (Hf & _).
  destruct (isAuthenticated (now inp) req st) as [st1 b]. cbn [fst] in Hf.
  intros H. injection H as <- _. unfold faqs_wf. rewrite Hf. exact id.
Qed.

Ltac keeps_step :=
  first
    [ apply keeps_ret | apply keeps_lift | apply keeps_gets
    | apply keeps_writeFile | apply keeps_getLocale
    | apply keeps_isAuthenticatedM
    | apply keeps_bind; [|intros ?]
    | apply keeps_try_catch
    | apply keeps_modify; intros ? ?
    | match goal with
      | |- keeps (match ?x with _ => _ end) => destruct x
      | |- keeps (if ?x then _ else _) => destruct x
      end ].

Lemma keeps_saveImage (cfg : Config) (now : Z) (random : list byte)
    (dataUri : json) (prefix : string) :
  keeps (saveImage cfg now random dataUri prefix).
Proof. unfold saveImage. repeat keeps_step. Qed.

Lemma keeps_chat (cfg : Config) (req : Request) : keeps (chat cfg req).
Proof. unfold chat. repeat keeps_step. Qed.

Lemma keeps_login (inp : Inputs) (req : Request) : keeps (login inp req).
Proof. unfold login. repeat keeps_step; assumption. Qed.

Lemma keeps_addFaq (cfg : Config) (inp : Inputs) (req : Request) :
  keeps (addFaq cfg inp req).
Proof.
  unfold addFaq. repeat keeps_step.
  unfold faqs_wf in *. cbn [faqs set_faqs]. rewrite forallb_app.
  match goal with H : forallb _ _ = true |- _ => rewrite H end. reflexivity.
Qed.

Lemma keeps_uploadImage (cfg : Config) (inp : Inputs) (req : Request) :
  keeps (uploadImage cfg inp req).
Proof.
  unfold uploadImage. repeat keeps_step; try apply keeps_saveImage; assumption.
Qed.

Lemma keeps_staticOrNotFound (cfg : Config) (req : Request) :
  keeps (staticOrNotFound cfg req).
Proof. unfold staticOrNotFound. repeat keeps_step. Qed.

(** Every request leaves the invariant in place. *)
Lemma handle_faqs_wf (cfg : Config) (inp : Inputs) (req : Request)
    (st st' : State) (r : response) :
  handle cfg inp req st = Some (st', r) -> faqs_wf st -> faqs_wf st'.
Proof.
  unfold handle.
  destruct (route cfg inp req st) as [[st1 o]|] eqn:E; [|discriminate].
  intros H Hinv.
  assert (Hst : faqs_wf st1).
  { revert E. unfold route.
    repeat match goal with
           | |- context [if ?x then _ else _] => destruct x
           end;
      try (intros E; injection E as <- _; exact Hinv).
    - intros E. injection E as E.
      refine (keeps_bind _ _ (keeps_getLocale cfg _) _ _ _ _ E Hinv).
      intros a. apply keeps_ret.
    - destruct (suggestions (draws inp) (faqs st)); [|discriminate].
      intros E; injection E as <- _; exact Hinv.
    - intros E. injection E as E. exact (keeps_chat _ _ _ _ _ E Hinv).
    - intros E. injection E as E. exact (keeps_login _ _ _ _ _ E Hinv).
    - intros E. injection E as E. exact (keeps_addFaq _ _ _ _ _ _ E Hinv).
    - intros E. injection E as E. exact (keeps_uploadImage _ _ _ _ _ _ E Hinv).
    - destruct (adminPage cfg (disk st)).
      + intros E; injection E as <- _; exact Hinv.
      + intros E. injection E as E. exact (keeps_staticOrNotFound _ _ _ _ _ E Hinv).
    - intros E. injection E as E. exact (keeps_staticOrNotFound _ _ _ _ _ E Hinv). }
  destruct o; injection H as <- _; exact Hst.
Qed.

(** The state after [loadData] satisfies it. *)
Lemma loadData_faqs_wf (cfg : Config) (fs : FS) (st : State) :
  loadData cfg fs = Some st -> faqs_wf st.
Proof.
  unfold loadData.
  destruct (load_collection fs (Path.join [dataDir cfg; "faqs.json"]))
    as [f|] eqn:Ef; [|discriminate].
  destruct (load_collection fs (Path.join [dataDir cfg; "gallery.json"]));
    [|discriminate].
  intros H. injection H as <-. unfold faqs_wf. cbn [faqs].
  revert Ef. unfold load_collection.
  destruct (Fs.readFileSync fs _) as [data|];
    [|intros H; injection H as <-; reflexivity].
  destruct (Json.parse (Fs.decode data)) as [v|] eqn:Ep;
    [|intros H; injection H as <-; reflexivity].
  pose proof (parse_wf _ _ Ep) as Hwf.
  destruct v; try discriminate. intros H. injection H as <-. exact Hwf.
Qed.

(** Every state the server reaches satisfies the invariant. *)
Lemma reachable_faqs_wf (cfg : Config) (st : State) :
  reachable cfg st -> faqs_wf st.
Proof.
  induction 1 as [fs st H | inp req st st' r _ IH H | fs st _ IH].
  - exact (loadData_faqs_wf cfg fs st H).
  - exact (handle_faqs_wf cfg inp req st st' r H IH).
  - exact IH.
Qed.





(** What the counterexample runs through: the number is [Infinity] in
    memory before and after the request, and [null] in the document. *)
Example overflow_is_written_as_null :
  loadData cfg0 fs_overflow = Some st_overflow
  /\ exists st' data,
       handle cfg0 inp0 req_add st_overflow_admin
       = Some (st', sendJson 200 (JObj [("success", JBool true)]))
       /\ faqs st'
          = [JObj [("question", JStr "Q1"); ("answer", JStr "A1");
                   ("views", JNum (Inf false))];
             faq_entry "Opening hours?" "9 to 5"]
       /\ Fs.readFileSync (disk st') (faqsPath cfg0) = Ok data
       /\ Json.parse (Fs.decode data)
          = Some (JArr [JObj [("question", JStr "Q1"); ("answer", JStr "A1");
                              ("views", JNull)];
                        faq_entry "Opening hours?" "9 to 5"]).
Proof.
  split; [vm_compute; reflexivity|].
  eexists _, _. split; [reflexivity|].
  split; [reflexivity|]. split; [reflexivity|]. vm_compute. reflexivity.
Qed.

Lemma C4_success_despite_write_failure_witness :
  exists st',
    handle cfg0 inp0 req_add st_readonly
    = Some (st', sendJson 200 (JObj [("success", JBool true)]))
    /\ faqs st' = [faq_entry "Q1" "A1"; faq_entry "Opening hours?" "9 to 5"]
    /\ disk st' = disk st_readonly
    /\ Fs.readFileSync (disk st') (faqsPath cfg0) = Throw.
Proof.
  destruct (C4_success_despite_write_failure cfg0 inp0 req_add st_readonly
              "  Opening hours? " "9 to 5"
              eq_refl eq_refl eq_refl eq_refl eq_refl eq_refl eq_refl)
    as (st' & Hh & Hfail).
  destruct (Hfail eq_refl) as (Hf & Hd & _).
  exists st'. split; [exact Hh|]. split; [exact Hf|]. split; [exact Hd|].
  rewrite Hd. reflexivity.
Defined.

Lemma C6_exact_then_substring_witness :
  matchAnswer faqs_hello "HELLO WORLD" = Ok (Some (JStr "A2")).
Proof.
  assert (Hall : Forall has_question faqs_hello).
  { repeat constructor; eexists; reflexivity. }
  apply (proj1 (C6_exact_then_substring faqs_hello "HELLO WORLD" eq_refl Hall)
           (faq_entry "hello world" "A2")).
  exists [faq_entry "Q1" "A1"], []. split; [reflexivity|]. split.
  - exists "hello world". split; reflexivity.
  - constructor; [|constructor]. intros (q & Hq & He).
    injection Hq as <-. discriminate He.
Defined.

(** ** The chat endpoint *)

Lemma route_chat (cfg : Config) (inp : Inputs) (req : Request) (st : State) :
  method req = "POST" -> pathname req = "/api/chat" ->
  route cfg inp req st = Some (chat cfg req st).
Proof.
  intros Hm Hp. unfold route. rewrite Hm, Hp. reflexivity.
Qed.

(** C7. A chat request in English (the language absent, or trimming to
    [en]) whose question matches no FAQ, served while the locale resolved
    for [en] is a mapping without the key [chat_no_answer], is answered
    200 with the fixed default answer. *)
Theorem C7_default_answer (cfg : Config) (inp : Inputs) (req : Request)
    (st st' : State) (q g : option json) (question : string)
    (fields : list (string * json)) :
  method req = "POST" -> pathname req = "/api/chat" ->
  field (parseBody req) "question" = Ok q ->
  call_trim (or_else q (JStr EmptyString)) = Ok question ->
  field (parseBody req) "lang" = Ok g ->
  call_trim (or_else g (JStr "en")) = Ok "en" ->
  matchAnswer (faqs st) question = Ok None ->
  getLocale cfg "en" st = (st', Ok (VJson (JObj fields))) ->
  Json.assoc "chat_no_answer" fields = None ->
  handle cfg inp req st =
    Some (st',
          sendJson 200 (JObj [("answer", JStr "Sorry, I don't know the answer.")])).
Proof.
  intros Hm Hp Hq Hquestion Hg Hlang Hmatch Hlocale Hkey.
  unfold handle. rewrite (route_chat cfg inp req st Hm Hp).
  unfold chat, bind, lift, gets, ret.
  rewrite Hq, Hquestion, Hg, Hlang, Hmatch. cbn [truthy_opt negb].
  rewrite Hlocale. cbn [prop field]. rewrite Hkey. reflexivity.
Qed.

Lemma C7_default_answer_witness :
  handle cfg0 inp0 req_chat st_chat =
    Some (st_chat,
          sendJson 200 (JObj [("answer", JStr "Sorry, I don't know the answer.")])).
Proof.
  exact (C7_default_answer cfg0 inp0 req_chat st_chat st_chat
           (Some (JStr "Do you deliver?")) None "Do you deliver?"
           [("greeting", JStr "Hello")]
           eq_refl eq_refl eq_refl eq_refl eq_refl eq_refl eq_refl eq_refl
           eq_refl).
Defined.

(** ** Locales *)

Section Locale.

Variables (cfg : Config) (st : State).

Lemma getLocale_fuel_en (n : nat) :
  getLocale_fuel (S n) cfg "en" st = getLocale_fuel 1 cfg "en" st.
Proof. reflexivity. Qed.

(** Two units of fuel are enough: the promise of [getLocale] always
    settles. *)
Lemma getLocale_fuel_enough (lang : string) (n : nat) :
  getLocale_fuel (S (S n)) cfg lang st = Some (getLocale cfg lang st).
Proof.
  unfold getLocale. cbn [getLocale_fuel].
  destruct (cache_hit st lang); [reflexivity|].
  destruct (Fs.readFile (disk st) (localePath cfg lang)) as [| |data].
  - reflexivity.
  - destruct (negb (String.eqb lang "en")); [|reflexivity].
    destruct (cache_hit st "en"); [reflexivity|].
    destruct (Fs.readFile (disk st) (localePath cfg "en")) as [| |data];
      try reflexivity.
    destruct (Json.parse (Fs.decode data)); reflexivity.
  - destruct (Json.parse (Fs.decode data)); reflexivity.
Qed.

Lemma cache_hit_mapping (lang : string) (fields : list (string * json)) :
  localesCache st !! lang = Some (JObj fields) ->
  cache_hit st lang = Some (VJson (JObj fields)).
Proof. intros H. unfold cache_hit, cache_get. rewrite H. reflexivity. Qed.

Lemma cache_hit_miss (lang : string) :
  localesCache st !! lang = None ->
  inherited (objectPrototype st) lang = None ->
  cache_hit st lang = None.
Proof. intros H1 H2. unfold cache_hit, cache_get. rewrite H1, H2. reflexivity. Qed.

(** The run of [getLocale] on a language that is not cached. *)
Lemma getLocale_miss (lang : string) :
  cache_hit st lang = None ->
  getLocale cfg lang st =
    match Fs.readFile (disk st) (localePath cfg lang) with
    | ReadThrows => (st, Throw)
    | ReadError =>
        if negb (String.eqb lang "en")
        then getLocale cfg "en" st
        else (st, Ok (VJson (JObj [])))
    | ReadData data =>
        match Json.parse (Fs.decode data) with
        | Some obj =>
            (set_localesCache (<[lang := obj]> (localesCache st)) st,
             Ok (VJson obj))
        | None => (st, Ok (VJson (JObj [])))
        end
    end.
Proof.
  intros Hmiss. unfold getLocale at 1. cbn [getLocale_fuel]. rewrite Hmiss.
  destruct (Fs.readFile (disk st) (localePath cfg lang)) as [| |data].
  - reflexivity.
  - destruct (negb (String.eqb lang "en")); reflexivity.
  - destruct (Json.parse (Fs.decode data)); reflexivity.
Qed.

(** C5, amended. [getLocale] returns a cached mapping when there is one.
    For a language that is neither cached nor the name of a member of
    [Object.prototype], it reads the language's document: a document that
    parses is cached and returned; a document that is read but is not JSON
    gives the empty mapping, without a second attempt in English and
    without caching; when the read fails, a language other than [en] gets
    the answer of [getLocale('en')] and [en] gets the empty mapping; and
    when the path of the document is one [fs.readFile] refuses, the
    promise is rejected. The recursion always ends. *)
Theorem C5_getLocale (lang : string) :
  (forall fields,
      localesCache st !! lang = Some (JObj fields) ->
      getLocale cfg lang st = (st, Ok (VJson (JObj fields))))
  /\ (localesCache st !! lang = None ->
      inherited (objectPrototype st) lang = None ->
      (forall data obj,
          Fs.readFile (disk st) (localePath cfg lang) = ReadData data ->
          Json.parse (Fs.decode data) = Some obj ->
          getLocale cfg lang st
          = (set_localesCache (<[lang := obj]> (localesCache st)) st,
             Ok (VJson obj)))
      /\ (forall data,
            Fs.readFile (disk st) (localePath cfg lang) = ReadData data ->
            Json.parse (Fs.decode data) = None ->
            getLocale cfg lang st = (st, Ok (VJson (JObj []))))
      /\ (Fs.readFile (disk st) (localePath cfg lang) = ReadError ->
          lang <> "en" ->
          getLocale cfg lang st = getLocale cfg "en" st)
      /\ (Fs.readFile (disk st) (localePath cfg lang) = ReadError ->
          lang = "en" ->
          getLocale cfg lang st = (st, Ok (VJson (JObj []))))
      /\ (Fs.readFile (disk st) (localePath cfg lang) = ReadThrows ->
          getLocale cfg lang st = (st, Throw)))
  /\ (forall n, getLocale_fuel (2 + n) cfg lang st = Some (getLocale cfg lang st)).
Proof.
  split; [|split].
  - intros fields H. unfold getLocale. cbn [getLocale_fuel].
    rewrite (cache_hit_mapping lang fields H). reflexivity.
  - intros Hown Hinh.
    rewrite (getLocale_miss lang (cache_hit_miss lang Hown Hinh)).
    repeat split.
    + intros data obj Hr Hp. rewrite Hr, Hp. reflexivity.
    + intros data Hr Hp. rewrite Hr, Hp. reflexivity.
    + intros Hr Hne. rewrite Hr.
      apply String.eqb_neq in Hne. rewrite Hne. reflexivity.
    + intros Hr Hen. rewrite Hr, Hen. reflexivity.
    + intros Hr. rewrite Hr. reflexivity.
  - intros n. apply getLocale_fuel_enough.
Qed.

End Locale.

Lemma C5_getLocale_witness :
  getLocale cfg0 "de" st_locales = getLocale cfg0 "en" st_locales
  /\ snd (getLocale cfg0 "en" st_locales)
     = Ok (VJson (JObj [("chat_no_answer", JStr "Sorry")]))
  /\ getLocale cfg0 "fr" st_locales = (st_locales, Ok (VJson (JObj []))).
Proof.
  destruct (C5_getLocale cfg0 st_locales "de") as (_ & Hde & _).
  destruct (Hde eq_refl eq_refl) as (_ & _ & Hfallback & _).
  destruct (C5_getLocale cfg0 st_locales "fr") as (_ & Hfr & _).
  destruct (Hfr eq_refl eq_refl) as (_ & Hbroken & _).
  split; [apply Hfallback; [reflexivity | discriminate]|].
  split; [reflexivity|].
  exact (Hbroken (Fs.encode "{ oops") eq_refl eq_refl).
Defined.

(** The French document is read but is not JSON: the answer is the empty
    mapping, not the English one. *)
Lemma C5_fallback_on_parse_failure_counterexample : ~ getLocale_as_specified.
Proof.
  intros H.
  destruct (H cfg0 "fr" st_locales eq_refl eq_refl) as (_ & Hfail).
  destruct Hfail as (Hfr & _).
  { right. exists (Fs.encode "{ oops"). split; reflexivity. }
  specialize (Hfr ltac:(discriminate)).
  vm_compute in Hfr. discriminate Hfr.
Qed.

(** A language named after a member of [Object.prototype] is answered
    with that member, without any read. *)
Lemma getLocale_inherited_member (cfg : Config) (st : State) (lang : string) :
  localesCache st !! lang = None ->
  lang ∈ member_functions ->
  getLocale cfg lang st = (st, Ok (VMember lang)).
Proof.
  intros Hown Hin. unfold getLocale. cbn [getLocale_fuel].
  unfold cache_hit, cache_get, inherited. rewrite Hown.
  rewrite (bool_decide_eq_true_2 _ Hin). reflexivity.
Qed.

(** ** Image ingestion *)

Lemma rev_app_spec (s acc : string) :
  String.rev_app s acc = String.rev s +:+ acc.
Proof.
  unfold String.rev. revert acc.
  induction s as [|c s IH]; intros acc; [reflexivity|].
  cbn [String.rev_app]. rewrite IH, (IH (String c EmptyString)).
  rewrite append_assoc. reflexivity.
Qed.

Lemma rev_append (a b : string) :
  String.rev (a +:+ b) = String.rev b +:+ String.rev a.
Proof.
  induction a as [|c a IH].
  - rewrite append_nil_l, append_nil_r. reflexivity.
  - rewrite append_cons. unfold String.rev at 1 3. cbn [String.rev_app].
    rewrite !rev_app_spec, IH, append_assoc. reflexivity.
Qed.



Lemma strip_prefix_spec (p s r : string) :
  Str.strip_prefix p s = Some r -> s = p +:+ r.
Proof.
  revert s. induction p as [|a p IH]; intros s; cbn [Str.strip_prefix].
  - intros H. injection H as ->. reflexivity.
  - destruct s as [|c s]; [discriminate|].
    destruct (Ascii.eqb_spec a c) as [->|_]; [|discriminate].
    intros H. rewrite (IH s H). reflexivity.
Qed.


Lemma data_uri_exec_png (payload : string) :
  data_uri_exec ("data:image/png;base64," +:+ payload) =
  if Str.truthy payload && no_line_terminator payload
  then Some ("png", payload) else None.
Proof.
  unfold data_uri_exec.
  change (Str.strip_prefix "data:image/" ("data:image/png;base64," +:+ payload))
    with (Some ("png;base64," +:+ payload)). cbv iota beta.
  change (Str.strip_prefix "png" ("png;base64," +:+ payload))
    with (Some (";base64," +:+ payload)).
  change (Str.strip_prefix "jpeg" ("png;base64," +:+ payload))
    with (@None string). cbv iota.
  change (Str.strip_prefix ";base64," (";base64," +:+ payload))
    with (Some payload). cbv iota.
  destruct (Str.truthy payload && no_line_terminator payload); reflexivity.
Qed.

Lemma data_uri_exec_jpeg (payload : string) :
  data_uri_exec ("data:image/jpeg;base64," +:+ payload) =
  if Str.truthy payload && no_line_terminator payload
  then Some ("jpeg", payload) else None.
Proof.
  unfold data_uri_exec.
  change (Str.strip_prefix "data:image/" ("data:image/jpeg;base64," +:+ payload))
    with (Some ("jpeg;base64," +:+ payload)). cbv iota beta.
  change (Str.strip_prefix "png" ("jpeg;base64," +:+ payload))
    with (@None string).
  change (Str.strip_prefix "jpeg" ("jpeg;base64," +:+ payload))
    with (Some (";base64," +:+ payload)). cbv iota.
  change (Str.strip_prefix ";base64," (";base64," +:+ payload))
    with (Some payload). cbv iota.
  destruct (Str.truthy payload && no_line_terminator payload); reflexivity.
Qed.

Lemma data_uri_exec_gif (rest : string) :
  data_uri_exec ("data:image/gif" +:+ rest) = None.
Proof. reflexivity. Qed.

(** The pattern captures [png] or [jpeg], nothing else. *)
Lemma data_uri_exec_kind (s kind payload : string) :
  data_uri_exec s = Some (kind, payload) -> kind = "png" \/ kind = "jpeg".
Proof.
  unfold data_uri_exec. destruct (Str.strip_prefix "data:image/" s) as [r|];
    [|discriminate].
  destruct (Str.strip_prefix "png" r) as [r1|].
  - destruct (Str.strip_prefix ";base64," r1) as [p|].
    + destruct (Str.truthy p && no_line_terminator p).
      * intros H. injection H as <- _. left. reflexivity.
      * destruct (Str.strip_prefix "jpeg" r) as [r2|]; [|discriminate].
        destruct (Str.strip_prefix ";base64," r2) as [p2|]; [|discriminate].
        destruct (Str.truthy p2 && no_line_terminator p2); [|discriminate].
        intros H. injection H as <- _. right. reflexivity.
    + destruct (Str.strip_prefix "jpeg" r) as [r2|]; [|discriminate].
      destruct (Str.strip_prefix ";base64," r2) as [p2|]; [|discriminate].
      destruct (Str.truthy p2 && no_line_terminator p2); [|discriminate].
      intros H. injection H as <- _. right. reflexivity.
  - destruct (Str.strip_prefix "jpeg" r) as [r2|]; [|discriminate].
    destruct (Str.strip_prefix ";base64," r2) as [p2|]; [|discriminate].
    destruct (Str.truthy p2 && no_line_terminator p2); [|discriminate].
    intros H. injection H as <- _. right. reflexivity.
Qed.



Lemma pattern_exec_kind (v : json) (kind payload : string) :
  pattern_exec v = Ok (Some (kind, payload)) -> kind = "png" \/ kind = "jpeg".
Proof.
  unfold pattern_exec. destruct (to_String v) as [s|]; [|discriminate].
  intros E. injection E as E. exact (data_uri_exec_kind _ _ _ E).
Qed.

(** The run of [saveImage] on an input the pattern matches. *)
Lemma saveImage_match (cfg : Config) (now : Z) (random : list byte)
    (dataUri : json) (prefix kind payload : string) (st : State) :
  pattern_exec dataUri = Ok (Some (kind, payload)) ->
  let ext := if String.eqb kind "jpeg" then "jpg" else kind in
  let filename := image_filename prefix now random ext in
  let outputPath := Path.join [publicDir cfg; "assets"; "img"; filename] in
  saveImage cfg now random dataUri prefix st =
    match Fs.writeFileSync (disk st) outputPath (Base64.decode payload) with
    | Ok fs => (set_disk fs st, Ok (Some ("assets/img/" +:+ filename)))
    | Throw => (st, Throw)
    end.
Proof.
  intros H ext filename outputPath. unfold saveImage, bind, lift. rewrite H.
  fold ext. fold filename. fold outputPath.
  unfold writeFile, ret.
  destruct (Fs.writeFileSync (disk st) outputPath (Base64.decode payload));
    reflexivity.
Qed.

Lemma saveImage_no_match (cfg : Config) (now : Z) (random : list byte)
    (dataUri : json) (prefix : string) (st : State) :
  pattern_exec dataUri = Ok None ->
  saveImage cfg now random dataUri prefix st = (st, Ok None).
Proof. intros H. unfold saveImage, bind, lift. rewrite H. reflexivity. Qed.

(** The coercion of an object with an own property [toString] throws, and
    [saveImage] with it. *)
Lemma saveImage_throws (cfg : Config) (now : Z) (random : list byte)
    (dataUri : json) (prefix : string) (st : State) :
  pattern_exec dataUri = Throw ->
  saveImage cfg now random dataUri prefix st = (st, Throw).
Proof. intros H. unfold saveImage, bind, lift. rewrite H. reflexivity. Qed.

Lemma field_total (v : json) (k k' : string) (x : option json) :
  field v k = Ok x -> exists y, field v k' = Ok y.
Proof. destruct v; try discriminate; intros _; eexists; reflexivity. Qed.







(** The dot of the pattern matches no line terminator and its [$] only
    the end of the input: a payload with a line feed in it is refused. *)
Example line_feed_refused :
  pattern_exec uri_with_line_feed = Ok None.
Proof. reflexivity. Qed.

(** ** Suggestions *)

Lemma set_add_NoDup (i : nat) (indices : list nat) :
  NoDup indices -> NoDup (set_add i indices).
Proof.
  intros H. unfold set_add. case_bool_decide as Hin; [exact H|].
  apply NoDup_app. split; [exact H|]. split.
  - intros x Hx Hx'. apply list_elem_of_singleton in Hx'. subst x. exact (Hin Hx).
  - apply NoDup_singleton.
Qed.

Lemma set_add_length (i : nat) (indices : list nat) :
  (length (set_add i indices) <= S (length indices))%nat.
Proof.
  unfold set_add. case_bool_decide; [lia|]. rewrite length_app. cbn. lia.
Qed.

Lemma set_add_elem (i x : nat) (indices : list nat) :
  x ∈ set_add i indices -> x ∈ indices \/ x = i.
Proof.
  unfold set_add. case_bool_decide; [left; assumption|].
  rewrite elem_of_app, list_elem_of_singleton. tauto.
Qed.

(** The loop ends as soon as the draws have brought [count] distinct
    indices, with exactly [count] of them. *)
Lemma sample_ends (count : nat) (draws indices : list nat) :
  NoDup indices ->
  (length indices <= count)%nat ->
  (count <= length (fold_left (fun acc d => set_add d acc) draws indices))%nat ->
  exists res,
    sample count draws indices = Some res
    /\ NoDup res /\ length res = count
    /\ (forall x, x ∈ res -> x ∈ indices \/ x ∈ draws).
Proof.
  revert indices. induction draws as [|d rest IH]; intros indices Hnd Hle Hcount.
  - cbn [fold_left] in Hcount. exists indices. cbn [sample].
    destruct (Nat.ltb_spec (length indices) count); [lia|].
    repeat split; [exact Hnd | lia | intros x Hx; left; exact Hx].
  - cbn [sample]. destruct (Nat.ltb_spec (length indices) count) as [Hlt|Hge].
    + destruct (IH (set_add d indices)) as (res & Hres & Hnd' & Hlen & Hin).
      * exact (set_add_NoDup d indices Hnd).
      * pose proof (set_add_length d indices). lia.
      * exact Hcount.
      * exists res. repeat split; try assumption.
        intros x Hx. destruct (Hin x Hx) as [H|H].
        -- destruct (set_add_elem d x indices H) as [H'| ->];
             [left; exact H' | right; left].
        -- right. right. exact H.
    + exists indices. repeat split; [exact Hnd | lia | intros x Hx; left; exact Hx].
Qed.

Lemma questions_of (l : list json) (indices : list nat) :
  Forall has_question l ->
  Forall (fun i => i < length l)%nat indices ->
  exists qs, map_outcome (question_at l) indices = Ok qs
             /\ Forall2 (question_of l) indices qs.
Proof.
  intros Hl. induction 1 as [|i indices Hi _ (qs & Hqs & Hrel)].
  - exists []. split; [reflexivity | constructor].
  - destruct (lookup_lt_is_Some_2 l i Hi) as [faq Hfaq].
    assert (Hq : has_question faq).
    { rewrite Forall_forall in Hl. apply Hl.
      apply list_elem_of_lookup. exists i. exact Hfaq. }
    destruct Hq as [text Htext].
    exists (JStr text :: qs). split.
    + cbn [map_outcome]. unfold question_at at 1. rewrite Hfaq, Htext, Hqs.
      reflexivity.
    + constructor; [|exact Hrel]. exists faq, text. repeat split; assumption.
Qed.

(** C9. With [n] stored entries that have a question text, draws that
    are indices of the sequence, and enough distinct draws for the loop
    to end, [GET /api/faqs-suggestions] is answered 200 with exactly
    [min(5, n)] questions: those of pairwise distinct indices of the
    sequence, in the order of the draws. *)
Theorem C9_suggestions (cfg : Config) (inp : Inputs) (req : Request) (st : State) :
  method req = "GET" -> pathname req = "/api/faqs-suggestions" ->
  Forall has_question (faqs st) ->
  Forall (fun d => d < length (faqs st))%nat (draws inp) ->
  (Nat.min 5 (length (faqs st)) <= length (distinct_draws (draws inp)))%nat ->
  exists indices qs,
    handle cfg inp req st = Some (st, sendJson 200 (JArr qs))
    /\ length indices = Nat.min 5 (length (faqs st))
    /\ length qs = Nat.min 5 (length (faqs st))
    /\ NoDup indices
    /\ Forall (fun i => i < length (faqs st))%nat indices
    /\ Forall2 (question_of (faqs st)) indices qs.
Proof.
  intros Hm Hp Hl Hdraws Henough.
  destruct (sample_ends (Nat.min 5 (length (faqs st))) (draws inp) [])
    as (indices & Hs & Hnd & Hlen & Hin).
  { constructor. } { cbn. lia. } { exact Henough. }
  assert (Hrange : Forall (fun i => i < length (faqs st))%nat indices).
  { apply Forall_forall. intros i Hi. destruct (Hin i Hi) as [H|H].
    - inversion H.
    - rewrite Forall_forall in Hdraws. exact (Hdraws i H). }
  destruct (questions_of (faqs st) indices Hl Hrange) as (qs & Hqs & Hrel).
  exists indices, qs.
  split; [|split; [exact Hlen|split; [|split; [exact Hnd|split; assumption]]]].
  - unfold handle, route. rewrite Hm, Hp.
    change (String.eqb "GET" "OPTIONS") with false.
    change (String.eqb "GET" "GET") with true.
    change (Str.startsWith "/api/faqs-suggestions" "/api/locales/") with false.
    change (String.eqb "/api/faqs-suggestions" "/api/faqs") with false.
    change (String.eqb "/api/faqs-suggestions" "/api/gallery") with false.
    change (String.eqb "/api/faqs-suggestions" "/api/faqs-suggestions") with true.
    cbn [andb]. unfold suggestions. rewrite Hs, Hqs. reflexivity.
  - rewrite <- (Forall2_length _ _ _ Hrel). exact Hlen.
Qed.

Lemma C9_suggestions_witness :
  exists indices qs,
    handle cfg0 inp_draws req_suggest st_three
    = Some (st_three, sendJson 200 (JArr qs))
    /\ length indices = 3%nat
    /\ length qs = 3%nat
    /\ NoDup indices
    /\ Forall (fun i => i < 3)%nat indices
    /\ Forall2 (question_of faqs_three) indices qs.
Proof.
  apply (C9_suggestions cfg0 inp_draws req_suggest st_three eq_refl eq_refl).
  - repeat constructor; eexists; reflexivity.
  - repeat constructor.
  - repeat constructor.
Defined.

Example suggestions_in_draw_order :
  handle cfg0 inp_draws req_suggest st_three
  = Some (st_three, sendJson 200 (JArr [JStr "Q3"; JStr "Q1"; JStr "Q2"])).
Proof. reflexivity. Qed.

(** ** Static files *)

Lemma split_nonempty (sep : ascii) (s : string) : Str.split sep s <> [].
Proof.
  induction s as [|c s IH]; cbn [Str.split]; [discriminate|].
  destruct (Ascii.eqb c sep); [discriminate|].
  destruct (Str.split sep s); [contradiction | discriminate].
Qed.

Lemma split_app_sep (sep : ascii) (a b : string) :
  Str.split sep (a +:+ String sep b) = (Str.split sep a ++ Str.split sep b)%list.
Proof.
  induction a as [|c a IH].
  - rewrite append_nil_l. cbn [Str.split]. rewrite Ascii.eqb_refl. reflexivity.
  - rewrite append_cons. cbn [Str.split]. rewrite IH.
    destruct (Ascii.eqb c sep); [reflexivity|].
    pose proof (split_nonempty sep a) as Hne.
    destruct (Str.split sep a) as [|w ws]; [contradiction | reflexivity].
Qed.

Lemma split_no_slash (seg : string) :
  no_slash seg = true -> Str.split Path.slash seg = [seg].
Proof.
  induction seg as [|c seg IH]; [reflexivity|]. cbn [no_slash Str.split].
  intros H. apply andb_true_iff in H. destruct H as [Hc Hs].
  apply negb_true_iff in Hc. rewrite Hc, (IH Hs). reflexivity.
Qed.

Lemma split_segments_no_slash (s : string) :
  Forall (fun seg => no_slash seg = true) (Str.split Path.slash s).
Proof.
  induction s as [|c s IH]; cbn [Str.split]; [repeat constructor|].
  destruct (Ascii.eqb c Path.slash) eqn:E.
  - constructor; [reflexivity | exact IH].
  - destruct (Str.split Path.slash s) as [|w ws]; [repeat constructor; cbn; rewrite E; reflexivity|].
    inversion IH as [|? ? Hw Hws]; subst. constructor; [|exact Hws].
    cbn [no_slash]. rewrite E, Hw. reflexivity.
Qed.

Lemma plain_no_slash (seg : string) : plain seg = true -> no_slash seg = true.
Proof. unfold plain. intros H. apply andb_true_iff in H. exact (proj1 H). Qed.

Lemma split_join (segs : list string) :
  Forall (fun seg => no_slash seg = true) segs -> segs <> [] ->
  Str.split Path.slash (Path.join_with "/" segs) = segs.
Proof.
  induction 1 as [|seg segs Hseg Hsegs IH]; [congruence|]. intros _.
  destruct segs as [|seg' segs'].
  - cbn [Path.join_with]. exact (split_no_slash seg Hseg).
  - change (Path.join_with "/" (seg :: seg' :: segs'))
      with (seg +:+ String Path.slash (Path.join_with "/" (seg' :: segs'))).
    rewrite split_app_sep, (split_no_slash seg Hseg), IH by discriminate.
    reflexivity.
Qed.

Lemma normalize_segments_kept (b : bool) (segs acc : list string) :
  ".." ∉ segs ->
  Path.normalize_segments b acc segs = (rev acc ++ List.filter kept segs)%list.
Proof.
  revert acc. induction segs as [|seg segs IH]; intros acc Hdots.
  - cbn. rewrite app_nil_r. reflexivity.
  - apply not_elem_of_cons in Hdots. destruct Hdots as [Hne Hdots].
    cbn [Path.normalize_segments List.filter]. unfold kept at 1.
    destruct (String.eqb seg EmptyString || String.eqb seg ".") eqn:E; cbn [negb].
    + exact (IH acc Hdots).
    + destruct (String.eqb_spec seg "..") as [->|_]; [congruence|].
      rewrite (IH (seg :: acc) Hdots). cbn [rev]. rewrite <- app_assoc. reflexivity.
Qed.

Lemma plain_kept (seg : string) : plain seg = true -> kept seg = true.
Proof.
  unfold plain, kept. intros H. apply andb_true_iff in H. destruct H as [_ H].
  apply negb_true_iff in H. apply orb_false_iff in H. destruct H as [H _].
  rewrite H. reflexivity.
Qed.

Lemma plain_not_dots (seg : string) : plain seg = true -> seg <> "..".
Proof. intros H ->. discriminate H. Qed.

Lemma filter_kept_plain (segs : list string) :
  Forall (fun seg => plain seg = true) segs -> List.filter kept segs = segs.
Proof.
  induction 1 as [|seg segs H _ IH]; [reflexivity|].
  cbn [List.filter]. rewrite (plain_kept seg H), IH. reflexivity.
Qed.

Lemma plain_no_dots (segs : list string) :
  Forall (fun seg => plain seg = true) segs -> ".." ∉ segs.
Proof.
  intros H Hin. rewrite Forall_forall in H. exact (plain_not_dots _ (H _ Hin) eq_refl).
Qed.

(** What is left of a pathname without [..] is plain. *)
Lemma kept_split_plain (s : string) :
  ".." ∉ Str.split Path.slash s ->
  Forall (fun seg => plain seg = true) (List.filter kept (Str.split Path.slash s)).
Proof.
  intros Hdots. pose proof (split_segments_no_slash s) as Hns.
  induction (Str.split Path.slash s) as [|seg segs IH]; [constructor|].
  apply not_elem_of_cons in Hdots. destruct Hdots as [Hne Hdots].
  inversion Hns as [|? ? Hseg Hsegs]; subst.
  cbn [List.filter]. destruct (kept seg) eqn:E; [|exact (IH Hdots Hsegs)].
  constructor; [|exact (IH Hdots Hsegs)].
  unfold plain. rewrite Hseg. unfold kept in E. apply negb_true_iff in E.
  rewrite E. cbn [orb andb]. apply String.eqb_neq in Hne.
  rewrite String.eqb_sym, Hne. reflexivity.
Qed.

Lemma join_with_truthy (seg : string) (segs : list string) :
  plain seg = true -> String.eqb (Path.join_with "/" (seg :: segs)) EmptyString = false.
Proof.
  intros H. destruct seg as [|c seg]; [discriminate H|].
  destruct segs; reflexivity.
Qed.

Lemma join_with_app (a b : list string) :
  a <> [] -> b <> [] ->
  Path.join_with "/" (a ++ b) = Path.join_with "/" a +:+ "/" +:+ Path.join_with "/" b.
Proof.
  intros Ha Hb. induction a as [|x a IH]; [congruence|].
  destruct a as [|y a].
  - destruct b; [congruence | reflexivity].
  - change (Path.join_with "/" ((x :: y :: a) ++ b))
      with (x +:+ "/" +:+ Path.join_with "/" ((y :: a) ++ b)).
    rewrite IH by discriminate.
    change (Path.join_with "/" (x :: y :: a))
      with (x +:+ "/" +:+ Path.join_with "/" (y :: a)).
    rewrite !append_assoc. reflexivity.
Qed.

Section Rooted.

Variable segs : list string.
Hypothesis Hplain : Forall (fun seg => plain seg = true) segs.
Hypothesis Hne : segs <> [].

Let root := "/" +:+ Path.join_with "/" segs.

Lemma split_root : Str.split Path.slash root = EmptyString :: segs.
Proof.
  unfold root. change ("/" +:+ Path.join_with "/" segs)
    with (EmptyString +:+ String Path.slash (Path.join_with "/" segs)).
  rewrite split_app_sep, split_join; [reflexivity | | exact Hne].
  eapply Forall_impl; [exact Hplain | exact plain_no_slash].
Qed.

Lemma normalizeString_root : Path.normalizeString root false = Path.join_with "/" segs.
Proof.
  unfold Path.normalizeString. rewrite split_root.
  rewrite normalize_segments_kept.
  - cbn [rev app List.filter kept String.eqb orb negb].
    rewrite (filter_kept_plain segs Hplain). reflexivity.
  - apply not_elem_of_cons. split; [discriminate | exact (plain_no_dots segs Hplain)].
Qed.

Lemma normalizeString_below (s : string) :
  ".." ∉ Str.split Path.slash s ->
  Path.normalizeString (root +:+ "/" +:+ s) false =
  Path.join_with "/" (segs ++ List.filter kept (Str.split Path.slash s)).
Proof.
  intros Hdots. unfold Path.normalizeString.
  change (root +:+ "/" +:+ s) with (root +:+ String Path.slash s).
  rewrite split_app_sep, split_root, normalize_segments_kept.
  - cbn [rev app List.filter kept String.eqb orb negb].
    rewrite List.filter_app, (filter_kept_plain segs Hplain). reflexivity.
  - apply not_elem_of_cons. split; [discriminate|].
    apply not_elem_of_app. split; [exact (plain_no_dots segs Hplain) | exact Hdots].
Qed.

End Rooted.


Section Contained.

Variable segs : list string.
Hypothesis Hplain : Forall (fun seg => plain seg = true) segs.
Hypothesis Hne : segs <> [].

Let root := "/" +:+ Path.join_with "/" segs.

Lemma root_absolute (s : string) : Path.isAbsolute (root +:+ s) = true.
Proof. reflexivity. Qed.

Lemma root_truthy (s : string) : String.eqb (root +:+ s) EmptyString = false.
Proof. reflexivity. Qed.

Lemma segs_joined_truthy (more : list string) :
  String.eqb (Path.join_with "/" (segs ++ more)) EmptyString = false.
Proof.
  destruct segs as [|seg rest]; [congruence|].
  apply join_with_truthy. exact (Forall_inv Hplain).
Qed.

(** [path.normalize] below the root: the segments kept, with a slash at
    the end when the path had one. *)
Lemma normalize_below_eq (s : string) :
  dot_free s ->
  Path.normalize (root +:+ "/" +:+ s) =
  "/" +:+ Path.join_with "/" (segs ++ List.filter kept (Str.split Path.slash s))
  +:+ (if Str.endsWith (root +:+ "/" +:+ s) "/" then "/" else EmptyString).
Proof.
  intros Hs. unfold Path.normalize.
  rewrite (root_truthy ("/" +:+ s)), (root_absolute ("/" +:+ s)). cbn [negb].
  unfold root. rewrite (normalizeString_below segs Hplain Hne s Hs).
  rewrite segs_joined_truthy.
  destruct (Str.endsWith _ "/"); rewrite ?append_assoc, ?append_nil_r; reflexivity.
Qed.

Lemma normalize_below (s : string) :
  dot_free s ->
  exists t, (t = EmptyString \/ t = "/")
            /\ Path.normalize (root +:+ "/" +:+ s) =
               "/" +:+ Path.join_with "/"
                         (segs ++ List.filter kept (Str.split Path.slash s)) +:+ t.
Proof.
  intros Hs. rewrite (normalize_below_eq s Hs).
  destruct (Str.endsWith _ "/"); eexists; (split; [|reflexivity]); tauto.
Qed.

Lemma normalize_root :
  exists t, (t = EmptyString \/ t = "/")
            /\ Path.normalize root = "/" +:+ Path.join_with "/" segs +:+ t.
Proof.
  unfold Path.normalize.
  pose proof (root_truthy EmptyString) as H1.
  pose proof (root_absolute EmptyString) as H2.
  rewrite append_nil_r in H1, H2. rewrite H1, H2. cbn [negb].
  unfold root. rewrite (normalizeString_root segs Hplain Hne).
  pose proof (segs_joined_truthy []) as H3. rewrite app_nil_r in H3. rewrite H3.
  destruct (Str.endsWith _ "/").
  - exists "/". split; [right; reflexivity|]. rewrite ?append_assoc. reflexivity.
  - exists EmptyString. split; [left; reflexivity|]. rewrite append_nil_r. reflexivity.
Qed.

End Contained.

(** [path.resolve] of an absolute path in normal form, with or without a
    slash at the end, is the path without that slash. *)
Lemma resolve_normal (cwd : string) (segs : list string) (t : string) :
  Forall (fun seg => plain seg = true) segs -> segs <> [] ->
  t = EmptyString \/ t = "/" ->
  Path.resolve cwd ("/" +:+ Path.join_with "/" segs +:+ t)
  = "/" +:+ Path.join_with "/" segs.
Proof.
  intros Hplain Hne Ht. unfold Path.resolve.
  change (String.eqb ("/" +:+ Path.join_with "/" segs +:+ t) EmptyString) with false.
  change (Path.isAbsolute ("/" +:+ Path.join_with "/" segs +:+ t)) with true.
  cbv iota.
  change (Path.isAbsolute (("/" +:+ Path.join_with "/" segs +:+ t) +:+ "/")) with true.
  cbn [negb]. cbv iota. f_equal.
  assert (E : ("/" +:+ Path.join_with "/" segs +:+ t) +:+ "/"
              = ("/" +:+ Path.join_with "/" segs) +:+ "/" +:+ t).
  { destruct Ht as [-> | ->]; rewrite !append_assoc, ?append_nil_r; reflexivity. }
  rewrite E, (normalizeString_below segs Hplain Hne t).
  - destruct Ht as [-> | ->]; cbn; rewrite app_nil_r; reflexivity.
  - destruct Ht as [-> | ->]; cbn; intros H;
      repeat (apply elem_of_cons in H; destruct H as [H|H]; [discriminate H|]);
      inversion H.
Qed.

Lemma join_two (a b : string) :
  Str.truthy a = true ->
  Path.join [a; b] =
  if Str.truthy b then Path.normalize (a +:+ "/" +:+ b) else Path.normalize a.
Proof. intros Ha. unfold Path.join. cbn [List.filter]. rewrite Ha. destruct (Str.truthy b); reflexivity. Qed.

(** Where [serveStatic] looks for a pathname without [..]: at the static
    root or below it. *)
Theorem static_target_contained (cfg : Config) (fs : FS) (pathname target : string) :
  rooted cfg -> dot_free pathname ->
  static_target cfg fs pathname = Some target ->
  target = publicDir cfg
  \/ Str.startsWith target (publicDir cfg +:+ "/") = true.
Proof.
  intros (segs & Hplain & Hne & Hroot) Hfree. unfold static_target.
  set (rest := List.filter kept (Str.split Path.slash pathname)).
  assert (Hrest : Forall (fun seg => plain seg = true) rest)
    by exact (kept_split_plain pathname Hfree).
  assert (Hall : Forall (fun seg => plain seg = true) (segs ++ rest))
    by (apply Forall_app; split; assumption).
  assert (Hne' : (segs ++ rest)%list <> [])
    by (destruct segs; [congruence | discriminate]).
  assert (Hresolved : Path.resolve (cwd cfg) (Path.join [publicDir cfg; pathname])
                      = "/" +:+ Path.join_with "/" (segs ++ rest)).
  { rewrite join_two by (rewrite Hroot; reflexivity). rewrite Hroot.
    destruct (Str.truthy pathname) eqn:Et.
    - destruct (normalize_below segs Hplain Hne pathname Hfree) as (t & Ht & ->).
      exact (resolve_normal (cwd cfg) (segs ++ rest) t Hall Hne' Ht).
    - destruct (normalize_root segs Hplain Hne) as (t & Ht & ->).
      assert (rest = []) as Hnil.
      { subst rest. destruct pathname; [reflexivity | discriminate Et]. }
      rewrite Hnil, app_nil_r in *.
      exact (resolve_normal (cwd cfg) segs t Hplain Hne Ht). }
  rewrite Hresolved.
  assert (Hbelow : forall more, more <> [] ->
            Str.startsWith ("/" +:+ Path.join_with "/" (segs ++ more))
              (publicDir cfg +:+ "/") = true).
  { intros more Hmore. unfold Str.startsWith. apply prefix_spec.
    exists (Path.join_with "/" more). rewrite Hroot, (join_with_app segs more Hne Hmore).
    rewrite !append_assoc. reflexivity. }
  destruct (negb (Str.startsWith _ (publicDir cfg))); [discriminate|].
  destruct (Fs.existsSync fs _ && Fs.isDirectory fs _).
  - intros H. injection H as <-. right.
    rewrite join_two by reflexivity. cbn [Str.truthy String.eqb negb].
    destruct (normalize_below (segs ++ rest) Hall Hne' "index.html") as (t & _ & ->).
    { unfold dot_free. cbn. intros H.
      apply list_elem_of_singleton in H. discriminate H. }
    change (List.filter kept (Str.split Path.slash "index.html")) with ["index.html"].
    rewrite <- app_assoc.
    unfold Str.startsWith. apply prefix_spec.
    exists (Path.join_with "/" (rest ++ ["index.html"]) +:+ t).
    rewrite Hroot, (join_with_app segs (rest ++ ["index.html"]) Hne)
      by (destruct rest; discriminate).
    rewrite !append_assoc. reflexivity.
  - intros H. injection H as <-.
    destruct rest as [|r rest'] eqn:Er.
    + left. rewrite app_nil_r, Hroot. reflexivity.
    + right. apply Hbelow. discriminate.
Qed.

Lemma rev_cons_truthy (c : ascii) (s : string) :
  exists c' r, String.rev (String c s) = String c' r.
Proof.
  unfold String.rev. cbn [String.rev_app]. rewrite rev_app_spec.
  destruct (String.rev s) as [|c' r]; [exists c, EmptyString | exists c', (r +:+ String c EmptyString)];
    reflexivity.
Qed.

(** Whether a path ends with a slash is decided by its last part. *)
Lemma endsWith_slash_app (a b : string) :
  Str.truthy b = true ->
  Str.endsWith (a +:+ b) "/" = Str.endsWith b "/".
Proof.
  intros Hb. destruct b as [|c b]; [discriminate Hb|].
  unfold Str.endsWith. rewrite rev_append.
  destruct (rev_cons_truthy c b) as (c' & r & ->). reflexivity.
Qed.

(** For a [__dirname] that is absolute and in normal form, so is the
    static root. *)
Lemma rooted_dirname (cfg : Config) (dsegs : list string) :
  Forall (fun seg => plain seg = true) dsegs ->
  dirname cfg = "/" +:+ Path.join_with "/" dsegs ->
  rooted cfg.
Proof.
  intros Hplain Hdir. unfold rooted, publicDir.
  rewrite join_two by (rewrite Hdir; reflexivity). cbn [Str.truthy String.eqb negb].
  rewrite Hdir. destruct dsegs as [|d dsegs].
  - exists ["public"]. repeat split; [repeat constructor | discriminate].
  - exists ((d :: dsegs) ++ ["public"])%list. split; [|split].
    + apply Forall_app. split; [exact Hplain | repeat constructor].
    + discriminate.
    + rewrite (normalize_below_eq (d :: dsegs) Hplain ltac:(discriminate) "public").
      * change (List.filter kept (Str.split Path.slash "public")) with ["public"].
        rewrite <- (append_assoc ("/" +:+ Path.join_with "/" (d :: dsegs)) "/" "public").
        rewrite (endsWith_slash_app _ "public" eq_refl).
        change (Str.endsWith "public" "/") with false. cbv iota.
        rewrite append_nil_r. reflexivity.
      * unfold dot_free. cbn. intros H. apply list_elem_of_singleton in H.
        discriminate H.
Qed.

(** A file [serveStatic] serves for a pathname without [..] is a file at
    the static root or below it. *)
Theorem serveStatic_contained (cfg : Config) (fs : FS) (pathname : string)
    (r : response) :
  rooted cfg -> dot_free pathname ->
  serveStatic cfg fs pathname = Some r ->
  exists target contentType data,
    r = SendFile contentType data
    /\ Fs.readFileSync fs target = Ok data
    /\ (target = publicDir cfg
        \/ Str.startsWith target (publicDir cfg +:+ "/") = true).
Proof.
  intros Hroot Hfree. unfold serveStatic.
  destruct (static_target cfg fs pathname) as [target|] eqn:E; [|discriminate].
  destruct (negb (Fs.existsSync fs target)); [discriminate|].
  destruct (Fs.readFileSync fs target) as [data|] eqn:Er; [|discriminate].
  intros H. injection H as <-. eexists target, _, data.
  split; [reflexivity|]. split; [exact Er|].
  exact (static_target_contained cfg fs pathname target Hroot Hfree E).
Qed.

Example cfg0_rooted : rooted cfg0.
Proof.
  apply (rooted_dirname cfg0 ["srv"; "marisk"]); [repeat constructor | reflexivity].
Qed.

(** The guard refuses a pathname that resolves to a parent of the static
    root or to a directory beside it whose name does not start with the
    name of the root. *)
Example serveStatic_parent_refused :
  serveStatic cfg0 fs_sibling "/../../etc/passwd" = None
  /\ serveStatic cfg0 fs_sibling "/../data/faqs.json" = None
  /\ serveStatic cfg0 fs_sibling "/.." = None.
Proof. repeat split. Qed.

Example serveStatic_directory_index :
  serveStatic cfg0 fs_sibling "/"
  = Some (SendFile "text/html" (Fs.encode "<h1>Marisk</h1>")).
Proof. reflexivity. Qed.

(** The guard compares the characters of the resolved path with those of
    the root, without a separator after the root. Called on a pathname
    with [..] that resolves into a directory beside the root whose name
    starts with the name of the root, [serveStatic] serves the file. The
    request callback calls it on the pathname of a parsed URL, which has
    no [..] segment, so that no request reaches this case. *)
Example serveStatic_sibling_on_direct_call :
  Path.resolve (cwd cfg0) (Path.join [publicDir cfg0; "/../public-old/secret.txt"])
  = "/srv/marisk/public-old/secret.txt"
  /\ Str.startsWith "/srv/marisk/public-old/secret.txt" (publicDir cfg0 +:+ "/")
     = false
  /\ serveStatic cfg0 fs_sibling "/../public-old/secret.txt"
     = Some (SendFile "application/octet-stream" (Fs.encode "secret")).
Proof. repeat split. Qed.







(** * Further properties *)

(** ** Relations every request respects *)

Lemma assoc_wf (k : string) (fields : list (string * json)) (x : json) :
  forallb (fun kv => Json.wf (snd kv)) fields = true ->
  Json.assoc k fields = Some x -> Json.wf x = true.
Proof.
  induction fields as [|[k' v] fields IH]; [discriminate|].
  cbn [forallb snd Json.assoc]. intros H. apply andb_true_iff in H.
  destruct H as [Hv Hrest]. destruct (String.eqb k k').
  - intros E. injection E as <-. exact Hv.
  - exact (IH Hrest).
Qed.

(** A property of a value [JSON.parse] can yield is such a value. *)
Lemma field_wf (v : json) (k : string) (x : option json) :
  Json.wf v = true -> field v k = Ok x ->
  match x with Some j => Json.wf j = true | None => True end.
Proof.
  destruct v; cbn [field]; try discriminate;
    try (intros _ H; injection H as <-; exact I).
  cbn [Json.wf]. intros H E. injection E as <-.
  apply andb_true_iff in H. destruct H as [_ H].
  destruct (Json.assoc k fields) as [j|] eqn:Ej; [|exact I].
  exact (assoc_wf k fields j H Ej).
Qed.

Lemma or_else_wf (v : option json) (d : json) :
  match v with Some j => Json.wf j = true | None => True end ->
  Json.wf d = true -> Json.wf (or_else v d) = true.
Proof.
  destruct v as [j|]; cbn [or_else]; [|intros _ H; exact H].
  intros Hj Hd. destruct (Json.truthy j); assumption.
Qed.

Lemma assoc_finite (k : string) (fields : list (string * json)) (x : json) :
  forallb (fun kv => Json.finite (snd kv)) fields = true ->
  Json.assoc k fields = Some x -> Json.finite x = true.
Proof.
  induction fields as [|[k' v] fields IH]; [discriminate|].
  cbn [forallb snd Json.assoc]. intros H. apply andb_true_iff in H.
  destruct H as [Hv Hrest]. destruct (String.eqb k k').
  - intros E. injection E as <-. exact Hv.
  - exact (IH Hrest).
Qed.

(** A property of a value without infinite number is such a value, and
    so is what [v || ''] makes of it. *)
Lemma field_finite (v : json) (k : string) (x : option json) :
  Json.finite v = true -> field v k = Ok x ->
  Json.finite (or_else x (JStr EmptyString)) = true.
Proof.
  destruct v as [| | | | |fields]; cbn [field]; try discriminate;
    try (intros _ H; injection H as <-; reflexivity).
  cbn [Json.finite]. intros H E. injection E as <-.
  destruct (Json.assoc k fields) as [j|] eqn:Ej; [|reflexivity].
  cbn [or_else]. destruct (Json.truthy j); [|reflexivity].
  exact (assoc_finite k fields j H Ej).
Qed.

Lemma parseBody_wf (req : Request) : Json.wf (parseBody req) = true.
Proof.
  unfold parseBody. destruct (Str.includes _ _); [|reflexivity].
  destruct (Json.parse _) as [v|] eqn:E; [|reflexivity].
  exact (parse_wf _ _ E).
Qed.

Section Respects.

Variable R : State -> State -> Prop.
Hypothesis R_refl : forall st, R st st.
Hypothesis R_trans : forall a b c, R a b -> R b c -> R a c.

Lemma respects_ret {A} (a : A) : respects R (ret a).
Proof. intros st st' o H. unfold ret in H. injection H as <- _. apply R_refl. Qed.

Lemma respects_lift {A} (o : outcome A) : respects R (lift o).
Proof. intros st st' o' H. unfold lift in H. injection H as <- _. apply R_refl. Qed.

Lemma respects_gets {A} (f : State -> A) : respects R (gets f).
Proof. intros st st' o H. unfold gets in H. injection H as <- _. apply R_refl. Qed.

Lemma respects_bind {A B} (m : M A) (k : A -> M B) :
  respects R m -> (forall a, respects R (k a)) -> respects R (bind m k).
Proof.
  intros Hm Hk st st' o. unfold bind.
  destruct (m st) as [st1 [a|]] eqn:E.
  - intros H. exact (R_trans _ _ _ (Hm _ _ _ E) (Hk a _ _ _ H)).
  - intros H. injection H as <- _. exact (Hm _ _ _ E).
Qed.

Lemma respects_bind_lift {A B} (o : outcome A) (k : A -> M B) :
  (forall a, o = Ok a -> respects R (k a)) -> respects R (bind (lift o) k).
Proof.
  intros Hk st st' o'. unfold bind, lift. destruct o as [a|].
  - exact (Hk a eq_refl st st' o').
  - intros H. injection H as <- _. apply R_refl.
Qed.

Lemma respects_try_catch {A} (m handler : M A) :
  respects R m -> respects R handler -> respects R (try_catch m handler).
Proof.
  intros Hm Hh st st' o. unfold try_catch.
  destruct (m st) as [st1 [a|]] eqn:E.
  - intros H. injection H as <- _. exact (Hm _ _ _ E).
  - intros H. exact (R_trans _ _ _ (Hm _ _ _ E) (Hh _ _ _ H)).
Qed.

Lemma respects_modify (f : State -> State) :
  (forall st, R st (f st)) -> respects R (modify f).
Proof. intros Hf st st' o H. unfold modify in H. injection H as <- _. apply Hf. Qed.

Hypothesis R_disk : forall st fs, R st (set_disk fs st).

Lemma respects_writeFile (p : string) (data : list byte) :
  respects R (writeFile p data).
Proof.
  intros st st' o. unfold writeFile.
  destruct (Fs.writeFileSync (disk st) p data); intros H; injection H as <- _;
    [apply R_disk | apply R_refl].
Qed.

Hypothesis R_cache : forall st lang obj,
  cache_hit st lang = None ->
  R st (set_localesCache (<[lang := obj]> (localesCache st)) st).

Lemma respects_getLocale_fuel (cfg : Config) (fuel : nat) :
  forall lang st st' o,
    getLocale_fuel fuel cfg lang st = Some (st', o) -> R st st'.
Proof.
  induction fuel as [|f IH]; intros lang st st' o; [discriminate|].
  cbn [getLocale_fuel].
  destruct (cache_hit st lang) eqn:Eh;
    [intros H; injection H as <- _; apply R_refl|].
  destruct (Fs.readFile (disk st) (localePath cfg lang)) as [| |data].
  - intros H; injection H as <- _; apply R_refl.
  - destruct (negb (String.eqb lang "en")); [apply IH|].
    intros H; injection H as <- _; apply R_refl.
  - destruct (Json.parse (Fs.decode data));
      intros H; injection H as <- _; [apply R_cache; exact Eh | apply R_refl].
Qed.

Lemma respects_getLocale (cfg : Config) (lang : string) :
  respects R (getLocale cfg lang).
Proof.
  intros st st' o. unfold getLocale.
  destruct (getLocale_fuel 2 cfg lang st) as [[st1 o1]|] eqn:E.
  - intros H. injection H as <- _. exact (respects_getLocale_fuel cfg _ _ _ _ _ E).
  - intros H. injection H as <- _. apply R_refl.
Qed.

Hypothesis R_sessions : forall st s, R st (set_sessions s st).
Hypothesis R_prototype : forall st op, R st (set_objectPrototype op st).

Lemma respects_isAuthenticated (now : Z) (req : Request) (st : State) :
  R st (fst (isAuthenticated now req st)).
Proof.
  unfold isAuthenticated.
  destruct (authorization req) as [auth|]; [|apply R_refl].
  destruct (negb (Str.truthy auth)); [apply R_refl|].
  destruct (Str.split " " auth) as [|scheme [|token [|? ?]]];
    try apply R_refl.
  destruct (negb (String.eqb scheme "Bearer")); [apply R_refl|].
  destruct (sessions_get st token) as [r|]; [|apply R_refl].
  destruct (negb (truthy_ref r)); [apply R_refl|].
  destruct (expired now (read_timestamp st r)); [apply R_sessions|].
  destruct r as [s|[j|name|]]; cbn [fst write_timestamp];
    first [apply R_sessions | apply R_prototype | apply R_refl].
Qed.

Lemma respects_isAuthenticatedM (inp : Inputs) (req : Request) :
  respects R (isAuthenticatedM inp req).
Proof.
  intros st st' o. unfold isAuthenticatedM.
  pose proof (respects_isAuthenticated (now inp) req st) as H.
  destruct (isAuthenticated (now inp) req st) as [st1 b]. cbn [fst] in H.
  intros E. injection E as <- _. exact H.
Qed.

Ltac respects_step :=
  first
    [ apply respects_ret | apply respects_lift | apply respects_gets
    | apply respects_writeFile | apply respects_getLocale
    | apply respects_isAuthenticatedM
    | apply respects_bind_lift; intros ? ?
    | apply respects_bind; [|intros ?]
    | apply respects_try_catch
    | match goal with
      | |- respects _ (match ?x with _ => _ end) => destruct x eqn:?
      | |- respects _ (if ?x then _ else _) => destruct x eqn:?
      end ].

Lemma respects_saveImage (cfg : Config) (now : Z) (random : list byte)
    (dataUri : json) (prefix : string) :
  respects R (saveImage cfg now random dataUri prefix).
Proof. unfold saveImage. repeat respects_step. Qed.

Lemma respects_chat (cfg : Config) (req : Request) : respects R (chat cfg req).
Proof. unfold chat. repeat respects_step. Qed.

Lemma respects_login (inp : Inputs) (req : Request) : respects R (login inp req).
Proof.
  unfold login. repeat respects_step.
  apply respects_modify. intros st. apply R_sessions.
Qed.

(** [login] registers the token it draws, and nothing else. *)
Lemma respects_login_token (inp : Inputs) (req : Request) :
  (forall st,
      R st (set_sessions
              (<[Str.hex (tokenBytes inp) := {| timestamp := now inp |}]>
                 (sessions st)) st)) ->
  respects R (login inp req).
Proof.
  intros H. unfold login. repeat respects_step.
  apply respects_modify. exact H.
Qed.

Lemma respects_staticOrNotFound (cfg : Config) (req : Request) :
  respects R (staticOrNotFound cfg req).
Proof. unfold staticOrNotFound. repeat respects_step. Qed.

Hypothesis R_faqs : forall st q a,
  Str.truthy q = true -> Str.truthy a = true ->
  R st (set_faqs (faqs st ++ [faq_entry q a]) st).

Lemma respects_addFaq (cfg : Config) (inp : Inputs) (req : Request) :
  respects R (addFaq cfg inp req).
Proof.
  unfold addFaq. repeat respects_step.
  apply respects_modify. intros st.
  match goal with
  | H : _ && _ = true |- _ => apply andb_true_iff in H; destruct H as [Hq Ha]
  end.
  apply R_faqs; assumption.
Qed.

Hypothesis R_gallery : forall st bp ap title description,
  Json.wf title = true -> Json.wf description = true ->
  R st (set_gallery
          (gallery st ++ [JObj [("before", JStr bp); ("after", JStr ap);
                                ("title", title); ("description", description)]])
          st).

Lemma respects_uploadImage (cfg : Config) (inp : Inputs) (req : Request) :
  respects R (uploadImage cfg inp req).
Proof.
  unfold uploadImage. repeat respects_step; try apply respects_saveImage.
  apply respects_modify. intros st. apply R_gallery.
  all: apply or_else_wf; [eapply field_wf; [apply parseBody_wf | eassumption] | reflexivity].
Qed.

(** Every request takes the state to a related one. *)
Lemma respects_handle (cfg : Config) (inp : Inputs) (req : Request)
    (st st' : State) (r : response) :
  handle cfg inp req st = Some (st', r) -> R st st'.
Proof.
  unfold handle.
  destruct (route cfg inp req st) as [[st1 o]|] eqn:E; [|discriminate].
  intros H.
  assert (Hst : R st st1).
  { revert E. unfold route.
    repeat match goal with
           | |- context [if ?x then _ else _] => destruct x
           end;
      try (intros E; injection E as <- _; apply R_refl).
    - intros E. injection E as E.
      refine (respects_bind _ _ (respects_getLocale cfg _) _ _ _ _ E).
      intros a. apply respects_ret.
    - destruct (suggestions (draws inp) (faqs st)); [|discriminate].
      intros E; injection E as <- _; apply R_refl.
    - intros E. injection E as E. exact (respects_chat _ _ _ _ _ E).
    - intros E. injection E as E. exact (respects_login _ _ _ _ _ E).
    - intros E. injection E as E. exact (respects_addFaq _ _ _ _ _ _ E).
    - intros E. injection E as E. exact (respects_uploadImage _ _ _ _ _ _ E).
    - destruct (adminPage cfg (disk st)).
      + intros E; injection E as <- _; apply R_refl.
      + intros E. injection E as E. exact (respects_staticOrNotFound _ _ _ _ _ E).
    - intros E. injection E as E. exact (respects_staticOrNotFound _ _ _ _ _ E). }
  destruct o; injection H as <- _; exact Hst.
Qed.

(** The same for one request, of which [isAuthenticated] and, when it is
    a login, [login] are known to respect the relation. *)
Section Request.

Variables (cfg : Config) (inp : Inputs) (req : Request).
Hypothesis R_auth : respects R (isAuthenticatedM inp req).
Hypothesis R_log :
  method req = "POST" -> pathname req = "/api/admin/login" ->
  respects R (login inp req).

Ltac request_step :=
  first
    [ exact R_auth
    | apply respects_ret | apply respects_lift | apply respects_gets
    | apply respects_writeFile | apply respects_getLocale
    | apply respects_saveImage
    | apply respects_bind_lift; intros ? ?
    | apply respects_bind; [|intros ?]
    | apply respects_try_catch
    | match goal with
      | |- respects _ (match ?x with _ => _ end) => destruct x eqn:?
      | |- respects _ (if ?x then _ else _) => destruct x eqn:?
      end ].

Lemma respects_addFaq_request : respects R (addFaq cfg inp req).
Proof.
  unfold addFaq. repeat request_step.
  apply respects_modify. intros st.
  match goal with
  | H : _ && _ = true |- _ => apply andb_true_iff in H; destruct H as [Hq Ha]
  end.
  apply R_faqs; assumption.
Qed.

Lemma respects_uploadImage_request : respects R (uploadImage cfg inp req).
Proof.
  unfold uploadImage. repeat request_step.
  apply respects_modify. intros st. apply R_gallery.
  all: apply or_else_wf; [eapply field_wf; [apply parseBody_wf | eassumption] | reflexivity].
Qed.

Lemma respects_handle_request (st st' : State) (r : response) :
  handle cfg inp req st = Some (st', r) -> R st st'.
Proof.
  unfold handle.
  destruct (route cfg inp req st) as [[st1 o]|] eqn:E; [|discriminate].
  intros H.
  assert (Hst : R st st1).
  { revert E. unfold route. cbv zeta.
    repeat match goal with
           | |- context [if ?x then _ else _] => destruct x eqn:?
           end;
      try (intros E; injection E as <- _; apply R_refl).
    - intros E. injection E as E.
      refine (respects_bind _ _ (respects_getLocale cfg _) _ _ _ _ E).
      intros a. apply respects_ret.
    - destruct (suggestions (draws inp) (faqs st)); [|discriminate].
      intros E; injection E as <- _; apply R_refl.
    - intros E. injection E as E. exact (respects_chat _ _ _ _ _ E).
    - intros E. injection E as E.
      match goal with
      | H : (String.eqb (method req) "POST"
             && String.eqb (pathname req) "/api/admin/login") = true |- _ =>
          apply andb_true_iff in H; destruct H as [Hm Hp];
          apply String.eqb_eq in Hm, Hp
      end.
      exact (R_log Hm Hp _ _ _ E).
    - intros E. injection E as E. exact (respects_addFaq_request _ _ _ E).
    - intros E. injection E as E. exact (respects_uploadImage_request _ _ _ E).
    - destruct (adminPage cfg (disk st)).
      + intros E; injection E as <- _; apply R_refl.
      + intros E. injection E as E. exact (respects_staticOrNotFound _ _ _ _ _ E).
    - intros E. injection E as E. exact (respects_staticOrNotFound _ _ _ _ _ E). }
  destruct o; injection H as <- _; exact Hst.
Qed.

End Request.

End Respects.

(** ** What a request can change *)

Lemma grows_refl (st : State) : grows st st.
Proof. split; reflexivity. Qed.

Lemma grows_trans (a b c : State) : grows a b -> grows b c -> grows a c.
Proof. intros [H1 H2] [H3 H4]. split; etransitivity; eassumption. Qed.

Lemma handle_grows (cfg : Config) (inp : Inputs) (req : Request)
    (st st' : State) (r : response) :
  handle cfg inp req st = Some (st', r) -> grows st st'.
Proof.
  apply (respects_handle grows grows_refl grows_trans).
  - intros s fs. split; reflexivity.
  - intros s lang obj _. split; reflexivity.
  - intros s x. split; reflexivity.
  - intros s op. split; reflexivity.
  - intros s q a _ _. split; [|reflexivity]. cbn [faqs set_faqs].
    apply prefix_app_r. reflexivity.
  - intros s bp ap t d _ _. split; [reflexivity|]. cbn [gallery set_gallery].
    apply prefix_app_r. reflexivity.
Qed.

(** X2. No request removes, replaces or reorders a stored FAQ or gallery
    entry: along every run of the server the collections only grow at
    their end. *)
Theorem collections_only_grow (cfg : Config) (st st' : State) :
  runs cfg st st' ->
  faqs st `prefix_of` faqs st' /\ gallery st `prefix_of` gallery st'.
Proof.
  induction 1 as [st | inp req st st1 r st' H _ IH | fs st st' _ IH].
  - apply grows_refl.
  - exact (grows_trans _ _ _ (handle_grows _ _ _ _ _ _ H) IH).
  - exact IH.
Qed.

Lemma cache_kept_refl (st : State) : cache_kept st st.
Proof. intros lang v H _. exact H. Qed.

Lemma cache_kept_trans (a b c : State) :
  cache_kept a b -> cache_kept b c -> cache_kept a c.
Proof. intros H1 H2 lang v H Ht. exact (H2 lang v (H1 lang v H Ht) Ht). Qed.

Lemma handle_cache_kept (cfg : Config) (inp : Inputs) (req : Request)
    (st st' : State) (r : response) :
  handle cfg inp req st = Some (st', r) -> cache_kept st st'.
Proof.
  apply (respects_handle cache_kept cache_kept_refl cache_kept_trans).
  - intros s fs l v Hl _. exact Hl.
  - intros s lang obj Hmiss l v Hl Ht. cbn [localesCache set_localesCache].
    destruct (decide (l = lang)) as [->|Hne].
    + unfold cache_hit, cache_get in Hmiss. rewrite Hl in Hmiss.
      cbn [truthy_val] in Hmiss. rewrite Ht in Hmiss. discriminate Hmiss.
    + rewrite lookup_insert_ne by congruence. exact Hl.
  - intros s x l v Hl _. exact Hl.
  - intros s op l v Hl _. exact Hl.
  - intros s q a _ _ l v Hl _. exact Hl.
  - intros s bp ap t d _ _ l v Hl _. exact Hl.
Qed.

(** X4. A locale that has been cached (an object, or any other truthy
    value) is never read again: along every run of the server, whatever
    happens to the disk, the cache keeps the value and [getLocale] answers
    with it. *)
Theorem cached_locale_is_never_refreshed (cfg : Config) (st st' : State)
    (lang : string) (v : json) :
  runs cfg st st' ->
  localesCache st !! lang = Some v -> Json.truthy v = true ->
  localesCache st' !! lang = Some v
  /\ getLocale cfg lang st' = (st', Ok (VJson v)).
Proof.
  intros Hruns Hl Ht.
  assert (Hkept : cache_kept st st').
  { clear Hl Ht. induction Hruns as [st | inp req st st1 r st' H _ IH | fs st st' _ IH].
    - apply cache_kept_refl.
    - exact (cache_kept_trans _ _ _ (handle_cache_kept _ _ _ _ _ _ H) IH).
    - exact IH. }
  pose proof (Hkept lang v Hl Ht) as Hl'. split; [exact Hl'|].
  unfold getLocale. cbn [getLocale_fuel]. unfold cache_hit, cache_get.
  rewrite Hl'. cbn [truthy_val]. rewrite Ht. reflexivity.
Qed.

Lemma addFaq_unauthorized (cfg : Config) (inp : Inputs) (req : Request)
    (st : State) :
  snd (isAuthenticated (now inp) req st) = false ->
  addFaq cfg inp req st =
    (fst (isAuthenticated (now inp) req st),
     Ok (sendJson 403 (error_body "Unauthorized"))).
Proof.
  intros H. unfold addFaq, bind, isAuthenticatedM.
  rewrite (surjective_pairing (isAuthenticated (now inp) req st)), H.
  reflexivity.
Qed.

Lemma uploadImage_unauthorized (cfg : Config) (inp : Inputs) (req : Request)
    (st : State) :
  snd (isAuthenticated (now inp) req st) = false ->
  uploadImage cfg inp req st =
    (fst (isAuthenticated (now inp) req st),
     Ok (sendJson 403 (error_body "Unauthorized"))).
Proof.
  intros H. unfold uploadImage, bind, isAuthenticatedM.
  rewrite (surjective_pairing (isAuthenticated (now inp) req st)), H.
  reflexivity.
Qed.

Lemma same_data_refl (st : State) : same_data st st.
Proof. repeat split. Qed.

Lemma same_data_trans (a b c : State) :
  same_data a b -> same_data b c -> same_data a c.
Proof.
  intros (H1 & H2 & H3) (H4 & H5 & H6). repeat split; congruence.
Qed.

Lemma same_data_cache (st : State) (lang : string) (obj : json) :
  cache_hit st lang = None ->
  same_data st (set_localesCache (<[lang := obj]> (localesCache st)) st).
Proof. intros _. repeat split. Qed.

Lemma same_data_isAuthenticated (now : Z) (req : Request) (st : State) :
  same_data st (fst (isAuthenticated now req st)).
Proof.
  destruct (isAuthenticated_frame now req st) as (Hf & Hg & _ & Hd).
  repeat split; assumption.
Qed.

(** X1. The collections and the disk change only under an authenticated
    [POST] to one of the two admin endpoints that write: for every other
    request, and for a request to these endpoints that [isAuthenticated]
    refuses, the FAQs, the gallery and the disk are after the request what
    they were before. *)
Theorem writes_need_authentication (cfg : Config) (inp : Inputs) (req : Request)
    (st st' : State) (r : response) :
  handle cfg inp req st = Some (st', r) ->
  snd (isAuthenticated (now inp) req st) = false
  \/ method req <> "POST"
  \/ (pathname req <> "/api/admin/add-faq"
      /\ pathname req <> "/api/admin/upload-image") ->
  faqs st' = faqs st /\ gallery st' = gallery st /\ disk st' = disk st.
Proof.
  intros H Hcond. change (same_data st st'). revert H. unfold handle.
  destruct (route cfg inp req st) as [[st1 o]|] eqn:E; [|discriminate].
  intros H.
  assert (Hst : same_data st st1).
  { revert E. unfold route.
    destruct (String.eqb (method req) "OPTIONS");
      [intros E; injection E as <- _; apply same_data_refl|].
    destruct (String.eqb (method req) "GET" && _).
    { intros E. injection E as E.
      refine (respects_bind _ same_data_trans _ _
                (respects_getLocale _ same_data_refl same_data_cache cfg _) _
                _ _ _ E).
      intros a. apply respects_ret. exact same_data_refl. }
    destruct (String.eqb (method req) "GET" && _);
      [intros E; injection E as <- _; apply same_data_refl|].
    destruct (String.eqb (method req) "GET" && _);
      [intros E; injection E as <- _; apply same_data_refl|].
    destruct (String.eqb (method req) "GET" && _).
    { destruct (suggestions (draws inp) (faqs st)); [|discriminate].
      intros E; injection E as <- _; apply same_data_refl. }
    destruct (String.eqb (method req) "POST" && _).
    { intros E. injection E as E.
      exact (respects_chat _ same_data_refl same_data_trans same_data_cache
               _ _ _ _ _ E). }
    destruct (String.eqb (method req) "POST" && _).
    { intros E. injection E as E.
      refine (respects_login _ same_data_refl same_data_trans _ _ _ _ _ _ E).
      intros s x. repeat split. }
    destruct (String.eqb_spec (method req) "POST") as [Hm|Hm]; cbn [andb].
    - destruct (String.eqb_spec (pathname req) "/api/admin/add-faq") as [Hp|Hp].
      { destruct Hcond as [Ha | [Hc | [Hc _]]]; try contradiction.
        rewrite (addFaq_unauthorized cfg inp req st Ha).
        intros E. injection E as <- _. apply same_data_isAuthenticated. }
      destruct (String.eqb_spec (pathname req) "/api/admin/upload-image") as [Hp'|Hp'].
      { destruct Hcond as [Ha | [Hc | [_ Hc]]]; try contradiction.
        rewrite (uploadImage_unauthorized cfg inp req st Ha).
        intros E. injection E as <- _. apply same_data_isAuthenticated. }
      destruct (String.eqb (method req) "GET" && _).
      + destruct (adminPage cfg (disk st)).
        * intros E; injection E as <- _; apply same_data_refl.
        * intros E. injection E as E.
          exact (respects_staticOrNotFound _ same_data_refl same_data_trans
                   _ _ _ _ _ E).
      + intros E. injection E as E.
        exact (respects_staticOrNotFound _ same_data_refl same_data_trans
                 _ _ _ _ _ E).
    - destruct (String.eqb (method req) "GET" && _).
      + destruct (adminPage cfg (disk st)).
        * intros E; injection E as <- _; apply same_data_refl.
        * intros E. injection E as E.
          exact (respects_staticOrNotFound _ same_data_refl same_data_trans
                   _ _ _ _ _ E).
      + intros E. injection E as E.
        exact (respects_staticOrNotFound _ same_data_refl same_data_trans
                 _ _ _ _ _ E). }
  destruct o; injection H as <- _; exact Hst.
Qed.

(** ** [JSON.stringify] read back *)

Lemma closed_not_digit (rest : string) :
  closed rest = true ->
  Json.span_digits rest = (EmptyString, rest)
  /\ Json.starts_fraction rest = false.
Proof.
  destruct rest as [|c r]; [split; reflexivity|]. cbn [closed].
  intros H. apply orb_true_iff in H. destruct H as [H|H];
    [apply orb_true_iff in H; destruct H as [H|H]|];
    apply N.eqb_eq in H;
    unfold Json.span_digits, Json.is_digit, Json.starts_fraction;
    rewrite H; split; reflexivity.
Qed.

Lemma parse_digits_before (d : Decimal.uint) (neg : bool) (rest : string) :
  head_nonzero d ->
  Json.span_digits rest = (EmptyString, rest) ->
  Json.starts_fraction rest = false ->
  (let '(ds, r) := Json.span_digits (NilEmpty.string_of_uint d +:+ rest) in
   if Json.leading_zero ds || Json.starts_fraction r then None
   else match NilZero.uint_of_string ds with
        | Some u => Some (if neg then (- Z.of_uint u)%Z else Z.of_uint u, r)
        | None => None
        end) =
  Some (if neg then (- Z.of_uint d)%Z else Z.of_uint d, rest).
Proof.
  intros Hd Hs Hf.
  rewrite (span_digits_uint d rest Hs), Hf.
  destruct (head_nonzero_string d Hd) as (c & s & E & _ & H48 & _).
  assert (Hlz : Json.leading_zero (NilEmpty.string_of_uint d) = false).
  { rewrite E. destruct s; [reflexivity | exact H48]. }
  rewrite Hlz. cbn [orb].
  assert (Hu : NilZero.uint_of_string (NilEmpty.string_of_uint d) = Some d).
  { rewrite <- (NilZero.usu d) by (destruct d; cbn in Hd; congruence).
    destruct d; cbn in Hd; try contradiction; reflexivity. }
  rewrite Hu. reflexivity.
Qed.

(** A printed integer is read back when what follows is neither a digit
    nor the start of a fraction or an exponent. *)
Lemma parse_number_before (z : Z) (rest : string) :
  Json.span_digits rest = (EmptyString, rest) ->
  Json.starts_fraction rest = false ->
  Json.parse_number (Json.print_Z z +:+ rest) = Some (z, rest).
Proof.
  intros Hs Hf. destruct z as [|p|p].
  - change (Json.print_Z 0) with "0". rewrite append_cons, append_nil_l.
    unfold Json.parse_number.
    change (N_of_ascii "0" =? 45)%N with false. cbv iota beta.
    change (Json.span_digits (String "0" rest))
      with (let '(ds, r) := Json.span_digits rest in (String "0" ds, r)).
    rewrite Hs. cbv iota beta. rewrite Hf. reflexivity.
  - pose proof (to_uint_head_nonzero p) as Hd.
    change (Json.print_Z (Z.pos p)) with (NilZero.string_of_uint (Pos.to_uint p)).
    assert (E0 : NilZero.string_of_uint (Pos.to_uint p)
                 = NilEmpty.string_of_uint (Pos.to_uint p)).
    { destruct (Pos.to_uint p); cbn in Hd; try contradiction; reflexivity. }
    rewrite E0.
    destruct (head_nonzero_string _ Hd) as (c & s & E & _ & _ & H45).
    unfold Json.parse_number.
    assert (Hsplit : match NilEmpty.string_of_uint (Pos.to_uint p) +:+ rest with
                     | String c0 r =>
                         if (N_of_ascii c0 =? 45)%N then (true, r)
                         else (false, NilEmpty.string_of_uint (Pos.to_uint p) +:+ rest)
                     | EmptyString => (false, NilEmpty.string_of_uint (Pos.to_uint p) +:+ rest)
                     end = (false, NilEmpty.string_of_uint (Pos.to_uint p) +:+ rest)).
    { rewrite E, append_cons, H45. reflexivity. }
    rewrite Hsplit.
    rewrite (parse_digits_before _ false rest Hd Hs Hf).
    unfold Z.of_uint. rewrite DecimalPos.Unsigned.of_to. reflexivity.
  - pose proof (to_uint_head_nonzero p) as Hd.
    change (Json.print_Z (Z.neg p))
      with (String "-" (NilZero.string_of_uint (Pos.to_uint p))).
    assert (E0 : NilZero.string_of_uint (Pos.to_uint p)
                 = NilEmpty.string_of_uint (Pos.to_uint p)).
    { destruct (Pos.to_uint p); cbn in Hd; try contradiction; reflexivity. }
    rewrite E0, append_cons.
    unfold Json.parse_number.
    change (N_of_ascii "-" =? 45)%N with true. cbv iota beta.
    rewrite (parse_digits_before _ true rest Hd Hs Hf).
    unfold Z.of_uint. rewrite DecimalPos.Unsigned.of_to. reflexivity.
Qed.

Lemma stringify_head (v : json) :
  exists c s, stringify v = String c s /\ value_start c = true.
Proof.
  destruct v as [|[|]|[n|neg]|s|[|x xs]|[|[k x] xs]];
    try (eexists _, _; split; reflexivity).
  destruct (print_Z_head n) as (c & s & E & H).
  exists c, s. split; [exact E|]. unfold value_start.
  cbv zeta. rewrite H. reflexivity.
Qed.

Lemma skip_ws_stringify (v : json) (rest : string) :
  Json.skip_ws (stringify v +:+ rest) = stringify v +:+ rest.
Proof.
  destruct (stringify_head v) as (c & s & -> & H).
  destruct (value_start_facts c H) as (Hws & _).
  rewrite append_cons. cbn [Json.skip_ws]. rewrite Hws. reflexivity.
Qed.

Lemma closed_items (pr : json -> string) (xs : list json) (rest : string) :
  closed (stringify_items pr xs +:+ rest) = true.
Proof. destruct xs; reflexivity. Qed.

Lemma closed_members (pr : json -> string) (xs : list (string * json))
    (rest : string) :
  closed (stringify_members pr xs +:+ rest) = true.
Proof. destruct xs as [|[k y] ys]; reflexivity. Qed.

Lemma parse_elements_text (xs : list json) :
  Forall roundtrips_text xs ->
  forallb Json.exact xs = true ->
  forall x, roundtrips_text x -> Json.exact x = true ->
  forall (fuel : nat) (rest : string),
    (list_sum (map (fun y => S (Json.need y)) (x :: xs)) <= fuel)%nat ->
    Json.parse_elements fuel
      (stringify x +:+
       stringify_items stringify xs +:+ rest)
    = Some (x :: xs, rest).
Proof.
  induction xs as [|y ys IH]; intros Hrt Hwf x Hx Hwx fuel rest Hfuel;
    cbn [map list_sum fold_right] in Hfuel;
    (destruct fuel as [|f]; [lia|]); cbn [Json.parse_elements].
  - rewrite (Hx Hwx f _ ltac:(lia) (closed_items _ [] rest)).
    reflexivity.
  - rewrite (Hx Hwx f _ ltac:(lia) (closed_items _ (y :: ys) rest)).
    cbn [stringify_items]. rewrite !append_assoc, append_cons, append_nil_l.
    change (Json.skip_ws (String "," ?X)) with (String "," X).
    change (N_of_ascii "," =? 44)%N with true. cbv iota.
    cbn [forallb] in Hwf. apply andb_true_iff in Hwf. destruct Hwf as [Hwy Hwys].
    rewrite (IH (Forall_inv_tail Hrt) Hwys y (Forall_inv Hrt) Hwy f rest);
      [reflexivity | cbn [map list_sum fold_right]; lia].
Qed.

Lemma parse_key_text (k : string) (X : string) (f : nat) :
  Json.parse_members (S f) (Json.quote k +:+ ":" +:+ X) =
  match Json.parse_value f X with
  | Some (v, r3) =>
      match Json.skip_ws r3 with
      | String c' r4 =>
          if (N_of_ascii c' =? 44)%N then
            match Json.parse_members f r4 with
            | Some (ms, r5) => Some ((k, v) :: ms, r5)
            | None => None
            end
          else if (N_of_ascii c' =? 125)%N then Some ([(k, v)], r4)
          else None
      | EmptyString => None
      end
  | None => None
  end.
Proof.
  unfold Json.quote, Json.dq. rewrite !append_assoc, append_cons, append_nil_l.
  cbn [Json.parse_members].
  change (Json.skip_ws (String (ascii_of_nat 34) ?Y)) with (String (ascii_of_nat 34) Y).
  change (N_of_ascii (ascii_of_nat 34) =? 34)%N with true. cbv iota.
  change (String (ascii_of_nat 34) EmptyString) with Json.dq.
  rewrite parse_chars_escape.
  change (Json.skip_ws (":" +:+ X)) with (String ":" X).
  change (N_of_ascii ":" =? 58)%N with true. cbv iota.
  reflexivity.
Qed.

Lemma parse_members_text (xs : list (string * json)) :
  Forall (fun kv => roundtrips_text (snd kv)) xs ->
  forallb (fun kv => Json.exact (snd kv)) xs = true ->
  forall k x, roundtrips_text x -> Json.exact x = true ->
  forall (fuel : nat) (rest : string),
    (list_sum (map (fun kv => S (Json.need (snd kv))) ((k, x) :: xs)) <= fuel)%nat ->
    Json.parse_members fuel
      (Json.quote k +:+ ":" +:+ stringify x +:+
       stringify_members stringify xs +:+ rest)
    = Some ((k, x) :: xs, rest).
Proof.
  induction xs as [|[k' y] ys IH];
    intros Hrt Hwf k x Hx Hwx fuel rest Hfuel;
    cbn [map list_sum fold_right snd] in Hfuel;
    (destruct fuel as [|f]; [lia|]);
    rewrite parse_key_text.
  - rewrite (Hx Hwx f _ ltac:(lia) (closed_members _ [] rest)).
    reflexivity.
  - rewrite (Hx Hwx f _ ltac:(lia) (closed_members _ ((k', y) :: ys) rest)).
    cbn [stringify_members]. rewrite !append_assoc, append_cons, append_nil_l.
    change (Json.skip_ws (String "," ?X)) with (String "," X).
    change (N_of_ascii "," =? 44)%N with true. cbv iota.
    cbn [forallb snd] in Hwf. apply andb_true_iff in Hwf.
    destruct Hwf as [Hwy Hwys].
    rewrite (IH (Forall_inv_tail Hrt) Hwys k' y (Forall_inv Hrt) Hwy f rest);
      [reflexivity | cbn [map list_sum fold_right snd]; lia].
Qed.

Lemma parse_text (v : json) : roundtrips_text v.
Proof.
  induction v as [|b|n|s|l IH|l IH] using json_nested_ind;
    intros Hwf fuel rest Hfuel Hrest;
    (destruct fuel as [|f]; [cbn in Hfuel; lia|]).
  - reflexivity.
  - destruct b; reflexivity.
  - destruct n as [n|neg]; [|discriminate Hwf]. cbn [Json.exact] in Hwf.
    destruct (print_Z_head n) as (c & s & E & H).
    cbn [stringify Json.print_number].
    destruct (closed_not_digit rest Hrest) as [Hs Hf].
    pose proof (parse_number_before n rest Hs Hf) as Hn.
    rewrite E in *. rewrite append_cons in *.
    rewrite (number_dispatch f c _ H), Hn.
    unfold Json.number_of_literal. rewrite Hwf. reflexivity.
  - cbn [stringify]. unfold Json.quote, Json.dq.
    rewrite !append_assoc, append_cons, append_nil_l.
    change (Json.parse_value (S f) (String (ascii_of_nat 34) ?X)) with
      (match Json.parse_chars X with
       | Some (str, r) => Some (JStr str, r)
       | None => None
       end).
    change (String (ascii_of_nat 34) EmptyString) with Json.dq.
    rewrite parse_chars_escape. reflexivity.
  - destruct l as [|x xs]; [reflexivity|].
    cbn [stringify]. rewrite !append_assoc, append_cons, append_nil_l.
    cbn [Json.exact forallb] in Hwf. apply andb_true_iff in Hwf.
    destruct Hwf as [Hwx Hwxs].
    cbn [Json.need] in Hfuel.
    destruct (stringify_head x) as (c & s & E & Hc).
    destruct (value_start_facts c Hc) as (Hws & H93 & _).
    rewrite (array_dispatch f _ c
               (s +:+ stringify_items stringify xs +:+ rest)).
    + rewrite (parse_elements_text xs (Forall_inv_tail IH) Hwxs x
                 (Forall_inv IH) Hwx f rest); [reflexivity | lia].
    + rewrite skip_ws_stringify, E, append_cons. reflexivity.
    + exact H93.
  - destruct l as [|[k x] xs]; [reflexivity|].
    cbn [stringify]. rewrite !append_assoc, append_cons, append_nil_l.
    pose proof Hwf as Hwf0.
    cbn [Json.exact forallb snd] in Hwf. apply andb_true_iff in Hwf.
    destruct Hwf as [Hkeys Hwf]. apply andb_true_iff in Hwf.
    destruct Hwf as [Hwx Hwxs].
    cbn [Json.need] in Hfuel.
    rewrite (object_dispatch f _ (ascii_of_nat 34)
               (Json.escape k +:+ Json.dq +:+ ":" +:+ stringify x +:+
                stringify_members stringify xs +:+ rest)).
    + rewrite (parse_members_text xs (Forall_inv_tail IH) Hwxs k x
                 (Forall_inv IH) Hwx f rest); [| lia].
      rewrite (of_members_distinct _ Hkeys). reflexivity.
    + unfold Json.quote, Json.dq.
      rewrite !append_assoc, append_cons, append_nil_l. reflexivity.
    + reflexivity.
Qed.

Lemma need_items_text (pr : json -> string) (xs : list json) :
  Forall (fun y => Json.need y <= String.length (pr y))%nat xs ->
  (S (list_sum (map (fun y => S (Json.need y)) xs))
   <= String.length (stringify_items pr xs))%nat.
Proof.
  unfold list_sum.
  induction 1 as [|y ys Hy _ IH]; cbn [map fold_right stringify_items].
  - cbn. lia.
  - rewrite !length_append. cbn [String.length]. lia.
Qed.

Lemma need_members_text (pr : json -> string) (xs : list (string * json)) :
  Forall (fun kv => Json.need (snd kv) <= String.length (pr (snd kv)))%nat xs ->
  (S (list_sum (map (fun kv => S (Json.need (snd kv))) xs))
   <= String.length (stringify_members pr xs))%nat.
Proof.
  unfold list_sum.
  induction 1 as [|[k y] ys Hy _ IH];
    cbn [map fold_right stringify_members snd] in *.
  - cbn. lia.
  - rewrite !length_append. cbn [String.length]. lia.
Qed.

Lemma need_le_length_text (v : json) :
  (Json.need v <= String.length (stringify v))%nat.
Proof.
  induction v as [|b|n|s|l IH|l IH] using json_nested_ind.
  - cbn. lia.
  - destruct b; cbn; lia.
  - destruct n as [n|neg]; [|cbn; lia].
    destruct (print_Z_head n) as (c & s & E & _).
    cbn [stringify Json.print_number Json.need]. rewrite E.
    cbn [String.length]. lia.
  - cbn [stringify Json.need]. unfold Json.quote, Json.dq.
    rewrite append_cons. cbn [String.length]. lia.
  - destruct l as [|x xs]; [cbn; lia|].
    cbn [stringify Json.need map list_sum fold_right].
    rewrite !length_append. cbn [String.length].
    pose proof (Forall_inv IH) as Hx. cbv beta in Hx.
    pose proof (need_items_text stringify xs (Forall_inv_tail IH)) as Hxs.
    unfold list_sum in Hxs. lia.
  - destruct l as [|[k x] xs]; [cbn; lia|].
    cbn [stringify Json.need map list_sum fold_right snd].
    rewrite !length_append. cbn [String.length].
    pose proof (Forall_inv IH) as Hx. cbn [snd] in Hx.
    pose proof (need_members_text stringify xs (Forall_inv_tail IH)) as Hxs.
    unfold list_sum in Hxs. lia.
Qed.

(** [JSON.parse(JSON.stringify(v))] is [v], for a value without a number
    that is not finite. *)
Lemma parse_stringify (v : json) :
  Json.exact v = true -> Json.parse (stringify v) = Some v.
Proof.
  intros Hwf. unfold Json.parse.
  pose proof (parse_text v Hwf (S (String.length (stringify v)))
                EmptyString) as H.
  rewrite append_nil_r in H. rewrite H; [reflexivity | | reflexivity].
  pose proof (need_le_length_text v). lia.
Qed.

(** ** Where the images go *)

Lemma no_slash_app (a b : string) :
  no_slash (a +:+ b) = no_slash a && no_slash b.
Proof.
  induction a as [|c a IH]; [reflexivity|].
  rewrite append_cons. cbn [no_slash]. rewrite IH, andb_assoc. reflexivity.
Qed.

Lemma no_slash_uint (d : Decimal.uint) :
  no_slash (NilEmpty.string_of_uint d) = true.
Proof. induction d; cbn [NilEmpty.string_of_uint no_slash]; try reflexivity; exact IHd. Qed.

Lemma no_slash_print_Z (n : Z) : no_slash (Json.print_Z n) = true.
Proof.
  assert (H : forall d, no_slash (NilZero.string_of_uint d) = true).
  { intros d. destruct d; try reflexivity;
      change (NilZero.string_of_uint ?u) with (NilEmpty.string_of_uint u);
      apply no_slash_uint. }
  destruct n as [|p|p].
  - reflexivity.
  - exact (H (Pos.to_uint p)).
  - change (Json.print_Z (Z.neg p))
      with (String "-" (NilZero.string_of_uint (Pos.to_uint p))).
    cbn [no_slash]. exact (H (Pos.to_uint p)).
Qed.

Lemma no_slash_hex (bs : list byte) : no_slash (Str.hex bs) = true.
Proof.
  induction bs as [|b bs IH]; [reflexivity|].
  cbn [Str.hex no_slash]. rewrite IH.
  destruct b; reflexivity.
Qed.

Lemma plain_cons (c : ascii) (s : string) :
  no_slash (String c s) = true -> Ascii.eqb c Path.dot = false ->
  plain (String c s) = true.
Proof.
  intros Hs Hc. unfold plain. rewrite Hs. cbn [andb].
  change (String.eqb (String c s) EmptyString) with false.
  change (String.eqb (String c s) ".") with (Ascii.eqb c Path.dot && String.eqb s EmptyString).
  change (String.eqb (String c s) "..") with (Ascii.eqb c Path.dot && String.eqb s ".").
  rewrite Hc. reflexivity.
Qed.

(** The name [saveImage] generates is one path segment. *)
Lemma image_filename_plain (prefix : string) (now : Z) (random : list byte)
    (ext : string) :
  prefix = "before" \/ prefix = "after" -> ext = "png" \/ ext = "jpg" ->
  plain (image_filename prefix now random ext) = true.
Proof.
  intros Hp He.
  assert (Hns : no_slash (image_filename prefix now random ext) = true).
  { unfold image_filename.
    rewrite !no_slash_app, no_slash_print_Z, no_slash_hex.
    destruct Hp as [-> | ->], He as [-> | ->]; reflexivity. }
  revert Hns. unfold image_filename.
  destruct Hp as [-> | ->]; rewrite append_cons; intros Hns;
    apply plain_cons; [exact Hns | reflexivity | exact Hns | reflexivity].
Qed.

Lemma plain_truthy (seg : string) : plain seg = true -> Str.truthy seg = true.
Proof. destruct seg; [discriminate | reflexivity]. Qed.

Lemma filter_truthy_plain (segs : list string) :
  Forall (fun seg => plain seg = true) segs -> List.filter Str.truthy segs = segs.
Proof.
  induction 1 as [|seg segs H _ IH]; [reflexivity|].
  cbn [List.filter]. rewrite (plain_truthy seg H), IH. reflexivity.
Qed.

Lemma no_slash_rev (s : string) : no_slash s = true -> no_slash (String.rev s) = true.
Proof.
  induction s as [|c s IH]; [reflexivity|]. cbn [no_slash]. intros H.
  apply andb_true_iff in H. destruct H as [Hc Hs].
  unfold String.rev. cbn [String.rev_app]. rewrite rev_app_spec, no_slash_app.
  rewrite (IH Hs). cbn [no_slash andb]. rewrite Hc. reflexivity.
Qed.

Lemma endsWith_no_slash (seg : string) :
  no_slash seg = true -> Str.endsWith seg "/" = false.
Proof.
  intros H. apply no_slash_rev in H. unfold Str.endsWith.
  change (String.rev "/") with "/".
  destruct (String.rev seg) as [|c r]; [reflexivity|].
  cbn [no_slash] in H. apply andb_true_iff in H. destruct H as [Hc _].
  apply negb_true_iff in Hc. cbn [Str.prefix].
  destruct (Ascii.eqb_spec "/" c) as [<-|_]; [discriminate Hc | reflexivity].
Qed.

Lemma endsWith_joined (segs : list string) (pre : string) :
  Forall (fun seg => plain seg = true) segs -> segs <> [] ->
  Str.endsWith (pre +:+ Path.join_with "/" segs) "/" = false.
Proof.
  intros Hplain. revert pre. induction Hplain as [|seg segs Hseg _ IH]; [congruence|].
  intros pre _. destruct segs as [|seg' segs'].
  - cbn [Path.join_with].
    rewrite (endsWith_slash_app pre seg (plain_truthy seg Hseg)).
    exact (endsWith_no_slash seg (plain_no_slash seg Hseg)).
  - change (Path.join_with "/" (seg :: seg' :: segs'))
      with (seg +:+ "/" +:+ Path.join_with "/" (seg' :: segs')).
    rewrite <- !append_assoc. apply IH. discriminate.
Qed.

(** [path.normalize] leaves an absolute path in normal form as it is. *)
Lemma normalize_plain (segs : list string) :
  Forall (fun seg => plain seg = true) segs -> segs <> [] ->
  Path.normalize ("/" +:+ Path.join_with "/" segs) = "/" +:+ Path.join_with "/" segs.
Proof.
  intros Hplain Hne. unfold Path.normalize.
  change (String.eqb ("/" +:+ Path.join_with "/" segs) EmptyString) with false.
  change (Path.isAbsolute ("/" +:+ Path.join_with "/" segs)) with true.
  cbn [negb]. cbv iota zeta.
  rewrite (normalizeString_root segs Hplain Hne).
  pose proof (segs_joined_truthy segs Hplain Hne []) as H3.
  rewrite app_nil_r in H3. rewrite H3.
  rewrite (endsWith_joined segs "/" Hplain Hne). reflexivity.
Qed.

(** [path.join] of an absolute path in normal form and further segments. *)
Lemma join_rooted (segs more : list string) :
  Forall (fun seg => plain seg = true) segs -> segs <> [] ->
  Forall (fun seg => plain seg = true) more ->
  Path.join (("/" +:+ Path.join_with "/" segs) :: more)
  = "/" +:+ Path.join_with "/" (segs ++ more).
Proof.
  intros Hplain Hne Hmore. unfold Path.join.
  cbn [List.filter]. change (Str.truthy ("/" +:+ Path.join_with "/" segs)) with true.
  cbv iota. rewrite (filter_truthy_plain more Hmore).
  assert (Hall : Forall (fun seg => plain seg = true) (segs ++ more))
    by (apply Forall_app; split; assumption).
  assert (Hne' : (segs ++ more)%list <> [])
    by (destruct segs; [congruence | discriminate]).
  assert (E : Path.join_with "/" (("/" +:+ Path.join_with "/" segs) :: more)
              = "/" +:+ Path.join_with "/" (segs ++ more)).
  { destruct more as [|m more'].
    - rewrite app_nil_r. reflexivity.
    - rewrite (join_with_app segs (m :: more') Hne) by discriminate.
      change (Path.join_with "/" (("/" +:+ Path.join_with "/" segs) :: m :: more'))
        with (("/" +:+ Path.join_with "/" segs) +:+ "/" +:+
              Path.join_with "/" (m :: more')).
      rewrite !append_assoc. reflexivity. }
  rewrite E. exact (normalize_plain (segs ++ more) Hall Hne').
Qed.

(** Two absolute paths in normal form are equal only when their segments
    are. *)
Lemma rooted_path_inj (l1 l2 : list string) :
  Forall (fun seg => plain seg = true) l1 -> l1 <> [] ->
  Forall (fun seg => plain seg = true) l2 -> l2 <> [] ->
  "/" +:+ Path.join_with "/" l1 = "/" +:+ Path.join_with "/" l2 -> l1 = l2.
Proof.
  intros H1 N1 H2 N2 E.
  pose proof (split_root l1 H1 N1) as S1.
  pose proof (split_root l2 H2 N2) as S2.
  rewrite E in S1. rewrite S1 in S2. injection S2 as S2. exact S2.
Qed.

Lemma basename_rooted (segs : list string) (f : string) :
  Forall (fun seg => plain seg = true) (segs ++ [f]) ->
  Path.basename ("/" +:+ Path.join_with "/" (segs ++ [f])) = f.
Proof.
  intros Hplain. unfold Path.basename.
  rewrite (split_root (segs ++ [f]) Hplain) by (destruct segs; discriminate).
  cbn [List.filter Str.truthy String.eqb negb].
  rewrite (filter_truthy_plain _ Hplain). apply List.last_last.
Qed.

Lemma from_last_dot_none (e : string) :
  no_dot e = true -> Path.from_last_dot e = None.
Proof.
  induction e as [|c e IH]; [reflexivity|]. cbn [no_dot Path.from_last_dot].
  intros H. apply andb_true_iff in H. destruct H as [Hc He].
  rewrite (IH He). apply negb_true_iff in Hc. rewrite Hc. reflexivity.
Qed.

Lemma from_last_dot_app (stem e : string) :
  no_dot e = true ->
  Path.from_last_dot (stem +:+ "." +:+ e) = Some ("." +:+ e).
Proof.
  intros He. induction stem as [|c stem IH].
  - rewrite append_nil_l, append_cons, append_nil_l.
    cbn [Path.from_last_dot]. rewrite (from_last_dot_none e He). reflexivity.
  - rewrite append_cons. cbn [Path.from_last_dot]. rewrite IH. reflexivity.
Qed.

(** The extension of a generated name is the one it was given. *)
Lemma extname_image (segs : list string) (prefix : string) (now : Z)
    (random : list byte) (ext : string) :
  Forall (fun seg => plain seg = true) segs ->
  prefix = "before" \/ prefix = "after" -> ext = "png" \/ ext = "jpg" ->
  Path.extname ("/" +:+ Path.join_with "/"
                  (segs ++ [image_filename prefix now random ext]))
  = "." +:+ ext.
Proof.
  intros Hplain Hp He.
  pose proof (image_filename_plain prefix now random ext Hp He) as Hf.
  unfold Path.extname.
  rewrite basename_rooted
    by (apply Forall_app; split; [exact Hplain | repeat constructor; exact Hf]).
  assert (E : image_filename prefix now random ext =
              (prefix +:+ "-" +:+ Json.print_Z now +:+ "-" +:+ Str.hex random)
              +:+ "." +:+ ext).
  { unfold image_filename. rewrite !append_assoc. reflexivity. }
  rewrite E at 1.
  rewrite from_last_dot_app by (destruct He as [-> | ->]; reflexivity).
  unfold image_filename.
  destruct Hp as [-> | ->]; rewrite (append_cons _ _ _); reflexivity.
Qed.

(** Where [serveStatic] looks for a pathname without [..]. *)
Lemma resolve_public (cfg : Config) (segs : list string) (pathname : string) :
  Forall (fun seg => plain seg = true) segs -> segs <> [] ->
  publicDir cfg = "/" +:+ Path.join_with "/" segs ->
  dot_free pathname ->
  Path.resolve (cwd cfg) (Path.join [publicDir cfg; pathname])
  = "/" +:+ Path.join_with "/"
              (segs ++ List.filter kept (Str.split Path.slash pathname)).
Proof.
  intros Hplain Hne Hroot Hfree.
  set (rest := List.filter kept (Str.split Path.slash pathname)).
  assert (Hrest : Forall (fun seg => plain seg = true) rest)
    by exact (kept_split_plain pathname Hfree).
  assert (Hall : Forall (fun seg => plain seg = true) (segs ++ rest))
    by (apply Forall_app; split; assumption).
  assert (Hne' : (segs ++ rest)%list <> [])
    by (destruct segs; [congruence | discriminate]).
  rewrite join_two by (rewrite Hroot; reflexivity). rewrite Hroot.
  destruct (Str.truthy pathname) eqn:Et.
  - destruct (normalize_below segs Hplain Hne pathname Hfree) as (t & Ht & ->).
    exact (resolve_normal (cwd cfg) (segs ++ rest) t Hall Hne' Ht).
  - destruct (normalize_root segs Hplain Hne) as (t & Ht & ->).
    assert (rest = []) as Hnil.
    { subst rest. destruct pathname; [reflexivity | discriminate Et]. }
    rewrite Hnil, app_nil_r in *.
    exact (resolve_normal (cwd cfg) segs t Hplain Hne Ht).
Qed.

Lemma startsWith_below (segs more : list string) :
  segs <> [] ->
  Str.startsWith ("/" +:+ Path.join_with "/" (segs ++ more))
    ("/" +:+ Path.join_with "/" segs) = true.
Proof.
  intros Hne. unfold Str.startsWith. apply prefix_spec.
  destruct more as [|m more].
  - exists EmptyString. rewrite app_nil_r, append_nil_r. reflexivity.
  - exists ("/" +:+ Path.join_with "/" (m :: more)).
    rewrite (join_with_app segs (m :: more) Hne) by discriminate.
    rewrite !append_assoc. reflexivity.
Qed.

(** The run of [serveStatic] on the path of a stored image. *)
Lemma serveStatic_image (cfg : Config) (fs : FS) (prefix : string) (now : Z)
    (random : list byte) (ext : string) (data : list byte) :
  rooted cfg ->
  prefix = "before" \/ prefix = "after" -> ext = "png" \/ ext = "jpg" ->
  let filename := image_filename prefix now random ext in
  Fs.readFileSync fs (Path.join [publicDir cfg; "assets"; "img"; filename])
  = Ok data ->
  serveStatic cfg fs ("/" +:+ "assets/img/" +:+ filename)
  = Some (SendFile (if String.eqb ext "jpg" then "image/jpeg" else "image/png")
            data).
Proof.
  intros (segs & Hplain & Hne & Hroot) Hp He filename Hread.
  pose proof (image_filename_plain prefix now random ext Hp He) as Hf.
  fold filename in Hf.
  assert (Hmore : Forall (fun seg => plain seg = true) ["assets"; "img"; filename])
    by (repeat constructor; exact Hf).
  assert (Hpath : Path.join [publicDir cfg; "assets"; "img"; filename]
                  = "/" +:+ Path.join_with "/" (segs ++ ["assets"; "img"; filename])).
  { rewrite Hroot. exact (join_rooted segs _ Hplain Hne Hmore). }
  rewrite Hpath in Hread.
  assert (Hsplit : List.filter kept
                     (Str.split Path.slash ("/" +:+ "assets/img/" +:+ filename))
                   = ["assets"; "img"; filename]).
  { change ("/" +:+ "assets/img/" +:+ filename)
      with ("/" +:+ Path.join_with "/" ["assets"; "img"; filename]).
    rewrite (split_root _ Hmore) by discriminate.
    cbn [List.filter kept String.eqb orb negb].
    exact (filter_kept_plain _ Hmore). }
  assert (Hfree : dot_free ("/" +:+ "assets/img/" +:+ filename)).
  { unfold dot_free.
    change ("/" +:+ "assets/img/" +:+ filename)
      with ("/" +:+ Path.join_with "/" ["assets"; "img"; filename]).
    rewrite (split_root _ Hmore) by discriminate.
    apply not_elem_of_cons. split; [discriminate | exact (plain_no_dots _ Hmore)]. }
  unfold serveStatic, static_target.
  rewrite (resolve_public cfg segs _ Hplain Hne Hroot Hfree), Hsplit.
  rewrite Hroot at 1. rewrite (startsWith_below segs _ Hne). cbn [negb].
  set (target := "/" +:+ Path.join_with "/" (segs ++ ["assets"; "img"; filename])) in *.
  assert (Hnode : exists d, nodes fs !! target = Some (File d) /\ d = data).
  { unfold Fs.readFileSync in Hread.
    destruct (nodes fs !! target) as [[|d]|]; try discriminate.
    injection Hread as ->. exists data. split; reflexivity. }
  destruct Hnode as (d & Hnode & ->).
  unfold Fs.existsSync, Fs.isDirectory. rewrite Hnode. cbn [andb negb].
  rewrite Hnode. cbn [negb]. unfold Fs.readFileSync. rewrite Hnode.
  subst target.
  replace (segs ++ ["assets"; "img"; filename])%list
    with ((segs ++ ["assets"; "img"]) ++ [filename])%list
    by (rewrite <- app_assoc; reflexivity).
  unfold filename.
  rewrite (extname_image (segs ++ ["assets"; "img"]) prefix now random ext)
    by (try apply Forall_app; try split; try assumption; repeat constructor).
  destruct He as [-> | ->]; reflexivity.
Qed.

(** X22. What [saveImage] has stored is served back: a request for the
    path it returned, under the static root, is answered with the bytes
    decoded from the payload and with the content type of the image. *)
Theorem saved_image_is_served (cfg : Config) (now : Z) (random : list byte)
    (dataUri : json) (prefix path : string) (st st' : State) :
  rooted cfg ->
  prefix = "before" \/ prefix = "after" ->
  saveImage cfg now random dataUri prefix st = (st', Ok (Some path)) ->
  exists kind payload,
    pattern_exec dataUri = Ok (Some (kind, payload))
    /\ serveStatic cfg (disk st') ("/" +:+ path)
       = Some (SendFile ("image/" +:+ kind) (Base64.decode payload)).
Proof.
  intros Hroot Hp Hsave.
  destruct (pattern_exec dataUri) as [[[kind payload]|]|] eqn:E;
    [|rewrite (saveImage_no_match _ _ _ _ _ _ E) in Hsave; discriminate
     |rewrite (saveImage_throws _ _ _ _ _ _ E) in Hsave; discriminate].
  exists kind, payload. split; [reflexivity|].
  rewrite (saveImage_match cfg now random dataUri prefix kind payload st E) in Hsave.
  destruct (Fs.writeFileSync _ _ _) as [fs|] eqn:Ew; [|discriminate].
  injection Hsave as <- <-. cbn [disk set_disk].
  pose proof (read_after_write _ _ _ _ Ew) as Hread.
  destruct (pattern_exec_kind _ _ _ E) as [-> | ->].
  - exact (serveStatic_image cfg fs prefix now random "png" _ Hroot Hp
             (or_introl eq_refl) Hread).
  - exact (serveStatic_image cfg fs prefix now random "jpg" _ Hroot Hp
             (or_intror eq_refl) Hread).
Qed.

(** ** Uploading a pair of images *)

Lemma write_writable (fs : FS) (p : string) (data : list byte) :
  writable fs p = true -> Fs.writeFileSync fs p data = Ok (written fs p data).
Proof.
  unfold writable, Fs.writeFileSync, Fs.isDirectory, written. intros H.
  apply andb_true_iff in H. destruct H as [Hf Hd].
  apply negb_true_iff in Hf. rewrite Hf.
  destruct (nodes fs !! p) as [[|d]|]; [discriminate Hd | reflexivity | reflexivity].
Qed.

Lemma write_not_writable (fs : FS) (p : string) (data : list byte) :
  writable fs p = false -> Fs.writeFileSync fs p data = Throw.
Proof.
  unfold writable, Fs.writeFileSync, Fs.isDirectory. intros H.
  destruct (bool_decide (p ∈ failing fs)); [reflexivity|].
  destruct (nodes fs !! p) as [[|d]|]; [reflexivity | discriminate H | discriminate H].
Qed.

Lemma writable_written (fs : FS) (p q : string) (data : list byte) :
  p <> q -> writable (written fs q data) p = writable fs p.
Proof.
  intros Hne. unfold writable, written, Fs.isDirectory. cbn [nodes failing].
  rewrite lookup_insert_ne by congruence. reflexivity.
Qed.

Lemma read_written (fs : FS) (p : string) (data : list byte) :
  Fs.readFileSync (written fs p data) p = Ok data.
Proof. unfold Fs.readFileSync, written. cbn [nodes]. rewrite lookup_insert_eq. reflexivity. Qed.

Lemma read_written_ne (fs : FS) (p q : string) (data : list byte) :
  p <> q -> Fs.readFileSync (written fs q data) p = Fs.readFileSync fs p.
Proof.
  intros Hne. unfold Fs.readFileSync, written. cbn [nodes].
  rewrite lookup_insert_ne by congruence. reflexivity.
Qed.

(** An input the pattern of [saveImage] matches is truthy. *)
Lemma data_uri_truthy (v : json) (kind payload : string) :
  pattern_exec v = Ok (Some (kind, payload)) -> Json.truthy v = true.
Proof.
  destruct v as [|[|]|[n|[|]]|s|l|l]; try discriminate; try reflexivity.
  - unfold pattern_exec. cbn [to_String].
    destruct (print_Z_head n) as (c & s & -> & H).
    unfold data_uri_exec. cbn [Str.strip_prefix].
    destruct (Ascii.eqb_spec "d" c) as [<-|_]; [discriminate H | discriminate].
  - destruct s; [discriminate | reflexivity].
Qed.

Section Upload.

Variables (cfg : Config) (inp : Inputs) (req : Request) (st : State).
Variable dsegs : list string.
Variables (b a : json) (kb pb : string).

Hypothesis Hplain : Forall (fun seg => plain seg = true) dsegs.
Hypothesis Hne : dsegs <> [].
Hypothesis Hdir : dirname cfg = "/" +:+ Path.join_with "/" dsegs.

Hypothesis Hauth : snd (isAuthenticated (now inp) req st) = true.
Hypothesis Hb : field (parseBody req) "before" = Ok (Some b).
Hypothesis Ha : field (parseBody req) "after" = Ok (Some a).
Hypothesis Hmb : pattern_exec b = Ok (Some (kb, pb)).

Let st0 := fst (isAuthenticated (now inp) req st).
Let extb := if String.eqb kb "jpeg" then "jpg" else kb.
Let nameb := image_filename "before" (nowBefore inp) (randomBefore inp) extb.
Let pathb := Path.join [publicDir cfg; "assets"; "img"; nameb].

Lemma publicDir_rooted : publicDir cfg = "/" +:+ Path.join_with "/" (dsegs ++ ["public"]).
Proof.
  unfold publicDir. rewrite Hdir.
  apply (join_rooted dsegs ["public"] Hplain Hne). repeat constructor.
Qed.

Lemma dataDir_rooted : dataDir cfg = "/" +:+ Path.join_with "/" (dsegs ++ ["data"]).
Proof.
  unfold dataDir. rewrite Hdir.
  apply (join_rooted dsegs ["data"] Hplain Hne). repeat constructor.
Qed.

Lemma plain_public : Forall (fun seg => plain seg = true) (dsegs ++ ["public"]).
Proof. apply Forall_app. split; [exact Hplain | repeat constructor]. Qed.

Lemma plain_data : Forall (fun seg => plain seg = true) (dsegs ++ ["data"]).
Proof. apply Forall_app. split; [exact Hplain | repeat constructor]. Qed.

Lemma extb_cases : extb = "png" \/ extb = "jpg".
Proof.
  unfold extb. destruct (pattern_exec_kind _ _ _ Hmb) as [-> | ->];
    [left | right]; reflexivity.
Qed.

Lemma image_path (prefix : string) (now : Z) (random : list byte) (ext : string) :
  prefix = "before" \/ prefix = "after" -> ext = "png" \/ ext = "jpg" ->
  Path.join [publicDir cfg; "assets"; "img"; image_filename prefix now random ext]
  = "/" +:+ Path.join_with "/"
              ((dsegs ++ ["public"]) ++
               ["assets"; "img"; image_filename prefix now random ext]).
Proof.
  intros Hp He. rewrite publicDir_rooted.
  apply (join_rooted _ _ plain_public); [destruct dsegs; discriminate|].
  repeat constructor. exact (image_filename_plain prefix now random ext Hp He).
Qed.

Lemma galleryPath_rooted :
  galleryPath cfg
  = "/" +:+ Path.join_with "/" ((dsegs ++ ["data"]) ++ ["gallery.json"]).
Proof.
  unfold galleryPath. rewrite dataDir_rooted.
  apply (join_rooted _ _ plain_data); [destruct dsegs; discriminate|].
  repeat constructor.
Qed.

(** The image files and the gallery document are three different files. *)
Lemma image_not_gallery (prefix : string) (now : Z) (random : list byte)
    (ext : string) :
  prefix = "before" \/ prefix = "after" -> ext = "png" \/ ext = "jpg" ->
  Path.join [publicDir cfg; "assets"; "img"; image_filename prefix now random ext]
  <> galleryPath cfg.
Proof.
  intros Hp He. rewrite (image_path prefix now random ext Hp He), galleryPath_rooted.
  intros E. apply rooted_path_inj in E.
  - rewrite <- !app_assoc in E. apply app_inv_head in E. discriminate E.
  - apply Forall_app. split; [exact plain_public|]. repeat constructor.
    exact (image_filename_plain prefix now random ext Hp He).
  - destruct dsegs; discriminate.
  - apply Forall_app. split; [exact plain_data | repeat constructor].
  - destruct dsegs; discriminate.
Qed.

Lemma before_not_after (n1 n2 : Z) (r1 r2 : list byte) (e1 e2 : string) :
  e1 = "png" \/ e1 = "jpg" -> e2 = "png" \/ e2 = "jpg" ->
  Path.join [publicDir cfg; "assets"; "img"; image_filename "before" n1 r1 e1]
  <> Path.join [publicDir cfg; "assets"; "img"; image_filename "after" n2 r2 e2].
Proof.
  intros H1 H2.
  rewrite (image_path "before" n1 r1 e1 (or_introl eq_refl) H1).
  rewrite (image_path "after" n2 r2 e2 (or_intror eq_refl) H2).
  intros E. apply rooted_path_inj in E.
  - apply app_inv_head in E. injection E as E. unfold image_filename in E.
    discriminate E.
  - apply Forall_app. split; [exact plain_public|]. repeat constructor.
    exact (image_filename_plain _ n1 r1 e1 (or_introl eq_refl) H1).
  - destruct dsegs; discriminate.
  - apply Forall_app. split; [exact plain_public|]. repeat constructor.
    exact (image_filename_plain _ n2 r2 e2 (or_intror eq_refl) H2).
  - destruct dsegs; discriminate.
Qed.

Let title := match field (parseBody req) "title" with Ok t => t | Throw => None end.
Let description :=
  match field (parseBody req) "description" with Ok t => t | Throw => None end.

Lemma title_field : field (parseBody req) "title" = Ok title.
Proof.
  unfold title. destruct (field_total _ _ "title" _ Hb) as [t ->]. reflexivity.
Qed.

Lemma description_field : field (parseBody req) "description" = Ok description.
Proof.
  unfold description. destruct (field_total _ _ "description" _ Hb) as [t ->].
  reflexivity.
Qed.

Lemma disk_st0 : disk st0 = disk st.
Proof. exact (proj2 (proj2 (proj2 (isAuthenticated_frame (now inp) req st)))). Qed.

Lemma gallery_st0 : gallery st0 = gallery st.
Proof. exact (proj1 (proj2 (isAuthenticated_frame (now inp) req st))). Qed.

Lemma faqs_st0 : faqs st0 = faqs st.
Proof. exact (proj1 (isAuthenticated_frame (now inp) req st)). Qed.

(** The handler once the request is authenticated and has both images. *)
Lemma uploadImage_body :
  Json.truthy a = true ->
  uploadImage cfg inp req st =
  try_catch
    (beforePath <- saveImage cfg (nowBefore inp) (randomBefore inp) b "before" ;;
     afterPath <- saveImage cfg (nowAfter inp) (randomAfter inp) a "after" ;;
     match beforePath, afterPath with
     | Some bp, Some ap =>
         let newEntry := gallery_entry bp ap title description in
         modify (fun s => set_gallery (gallery s ++ [newEntry]) s) ;;;
         l <- gets gallery ;;
         writeFile (galleryPath cfg) (Fs.encode (Json.stringify2 (JArr l))) ;;;
         ret (sendJson 200 (JObj [("success", JBool true); ("entry", newEntry)]))
     | _, _ => ret (sendJson 400 (error_body "Invalid image data"))
     end)
    (ret (sendJson 500 (error_body "Failed to save images"))) st0.
Proof.
  intros Hta. unfold uploadImage at 1, bind at 1, isAuthenticatedM.
  rewrite (surjective_pairing (isAuthenticated (now inp) req st)), Hauth.
  fold st0. cbn [negb].
  unfold bind at 1, lift at 1. rewrite Hb.
  unfold bind at 1, lift at 1. rewrite Ha.
  unfold bind at 1, lift at 1. rewrite title_field.
  unfold bind at 1, lift at 1. rewrite description_field.
  rewrite (data_uri_truthy b kb pb Hmb), Hta. reflexivity.
Qed.

Lemma saveImage_before :
  writable (disk st) pathb = true ->
  saveImage cfg (nowBefore inp) (randomBefore inp) b "before" st0
  = (set_disk (written (disk st) pathb (Base64.decode pb)) st0,
     Ok (Some ("assets/img/" +:+ nameb))).
Proof.
  intros Hw.
  rewrite (saveImage_match cfg _ _ b "before" kb pb st0 Hmb).
  fold extb. fold nameb. fold pathb. rewrite disk_st0.
  rewrite (write_writable _ _ _ Hw). reflexivity.
Qed.

Hypothesis Hmethod : method req = "POST".
Hypothesis Hpath : pathname req = "/api/admin/upload-image".

Lemma route_upload : route cfg inp req st = Some (uploadImage cfg inp req st).
Proof. unfold route. rewrite Hmethod, Hpath. reflexivity. Qed.

(** X21. An upload whose first image is accepted and stored and whose
    second image is refused, the pattern not matching its text, is
    answered 400; when the second value has no text, its coercion throwing
    (an object with a property [toString]), the answer is 500. In both
    cases the gallery is as before, and the file of the first image stays
    on the disk. *)
Theorem upload_leaves_first_image_behind :
  Json.truthy a = true ->
  writable (disk st) pathb = true ->
  forall refusal : outcome (option (string * string)),
    refusal = Ok None \/ refusal = Throw ->
    pattern_exec a = refusal ->
    exists st',
      handle cfg inp req st
      = Some (st', match refusal with
                   | Ok _ => sendJson 400 (error_body "Invalid image data")
                   | Throw => sendJson 500 (error_body "Failed to save images")
                   end)
      /\ gallery st' = gallery st
      /\ Fs.readFileSync (disk st') pathb = Ok (Base64.decode pb)
      /\ Fs.readFileSync (disk st') (galleryPath cfg)
         = Fs.readFileSync (disk st) (galleryPath cfg).
Proof.
  intros Hta Hw refusal Hcase Hna.
  exists (set_disk (written (disk st) pathb (Base64.decode pb)) st0). split.
  - unfold handle. rewrite route_upload, (uploadImage_body Hta).
    unfold try_catch. unfold bind at 1. rewrite (saveImage_before Hw).
    unfold bind at 1.
    destruct Hcase as [-> | ->].
    + rewrite (saveImage_no_match _ _ _ _ _ _ Hna). unfold ret. reflexivity.
    + rewrite (saveImage_throws _ _ _ _ _ _ Hna). unfold ret. reflexivity.
  - cbn [gallery set_disk disk]. split; [exact gallery_st0|].
    split; [apply read_written|].
    apply read_written_ne. intros E. symmetry in E. revert E.
    apply (image_not_gallery "before" _ _ extb (or_introl eq_refl) extb_cases).
Qed.

Section Pair.

Variables (ka pa : string).
Hypothesis Hma : pattern_exec a = Ok (Some (ka, pa)).

Let exta := if String.eqb ka "jpeg" then "jpg" else ka.
Let namea := image_filename "after" (nowAfter inp) (randomAfter inp) exta.
Let patha := Path.join [publicDir cfg; "assets"; "img"; namea].
Let entry :=
  gallery_entry ("assets/img/" +:+ nameb) ("assets/img/" +:+ namea)
    title description.
Let disk2 :=
  written (written (disk st) pathb (Base64.decode pb)) patha (Base64.decode pa).
Let document := Fs.encode (Json.stringify2 (JArr (gallery st ++ [entry]))).

Hypothesis Hwb : writable (disk st) pathb = true.
Hypothesis Hwa : writable (disk st) patha = true.

Lemma exta_cases : exta = "png" \/ exta = "jpg".
Proof.
  unfold exta. destruct (pattern_exec_kind _ _ _ Hma) as [-> | ->];
    [left | right]; reflexivity.
Qed.

Lemma pathb_not_patha : pathb <> patha.
Proof. exact (before_not_after _ _ _ _ extb exta extb_cases exta_cases). Qed.

Lemma patha_not_gallery : patha <> galleryPath cfg.
Proof. exact (image_not_gallery "after" _ _ exta (or_intror eq_refl) exta_cases). Qed.

Lemma pathb_not_gallery : pathb <> galleryPath cfg.
Proof. exact (image_not_gallery "before" _ _ extb (or_introl eq_refl) extb_cases). Qed.

(** The run of the handler up to the write of the gallery document. *)
Lemma uploadImage_pair :
  uploadImage cfg inp req st =
  match Fs.writeFileSync disk2 (galleryPath cfg) document with
  | Ok fs =>
      (set_disk fs (set_gallery (gallery st ++ [entry]) (set_disk disk2 st0)),
       Ok (sendJson 200 (JObj [("success", JBool true); ("entry", entry)])))
  | Throw =>
      (set_gallery (gallery st ++ [entry]) (set_disk disk2 st0),
       Ok (sendJson 500 (error_body "Failed to save images")))
  end.
Proof.
  rewrite (uploadImage_body (data_uri_truthy a ka pa Hma)).
  unfold try_catch. unfold bind at 1. rewrite (saveImage_before Hwb).
  unfold bind at 1.
  rewrite (saveImage_match cfg _ _ a "after" ka pa _ Hma).
  fold exta. fold namea. fold patha. cbn [disk set_disk].
  rewrite (write_writable _ patha (Base64.decode pa))
    by (rewrite writable_written; [exact Hwa | intros E; exact (pathb_not_patha (eq_sym E))]).
  fold disk2. cbv iota beta. fold entry.
  unfold bind, modify, gets, writeFile, ret.
  cbn [gallery set_gallery set_disk disk]. rewrite gallery_st0. fold document.
  destruct (Fs.writeFileSync disk2 (galleryPath cfg) document); reflexivity.
Qed.

Lemma entry_finite :
  Json.finite (parseBody req) = true -> Json.finite entry = true.
Proof.
  intros H. unfold entry, gallery_entry. cbn [Json.finite forallb snd].
  rewrite (field_finite _ _ _ H title_field).
  rewrite (field_finite _ _ _ H description_field). reflexivity.
Qed.

Lemma entry_wf : Json.wf entry = true.
Proof.
  unfold entry, gallery_entry. cbn [Json.wf forallb snd].
  rewrite !(or_else_wf _ (JStr EmptyString)); try reflexivity.
  - exact (field_wf _ _ _ (parseBody_wf req) description_field).
  - exact (field_wf _ _ _ (parseBody_wf req) title_field).
Qed.

Lemma writable_disk2 (p : string) :
  p <> pathb -> p <> patha -> writable disk2 p = writable (disk st) p.
Proof.
  intros H1 H2. unfold disk2. rewrite !writable_written by assumption.
  reflexivity.
Qed.

(** X19. An authenticated upload of two accepted images, on a disk that
    takes the three writes, is answered 200 with the new entry; the entry
    is the new last element of the gallery and the two files hold the
    bytes decoded from the payloads; and when neither the stored gallery
    nor the body of the request holds a number that is not finite, the
    gallery document on the disk parses back to the whole in-memory
    gallery. *)
Theorem upload_stores_pair :
  writable (disk st) (galleryPath cfg) = true ->
  gallery_wf st ->
  exists st',
    handle cfg inp req st
    = Some (st', sendJson 200 (JObj [("success", JBool true); ("entry", entry)]))
    /\ gallery st' = (gallery st ++ [entry])%list
    /\ faqs st' = faqs st
    /\ Fs.readFileSync (disk st') pathb = Ok (Base64.decode pb)
    /\ Fs.readFileSync (disk st') patha = Ok (Base64.decode pa)
    /\ exists data,
         Fs.readFileSync (disk st') (galleryPath cfg) = Ok data
         /\ (gallery_finite st -> Json.finite (parseBody req) = true ->
             Json.parse (Fs.decode data) = Some (JArr (gallery st'))).
Proof.
  intros Hwg Hwf. eexists. split.
  - unfold handle. rewrite route_upload, uploadImage_pair.
    rewrite (write_writable disk2 (galleryPath cfg) document)
      by (rewrite writable_disk2;
          [exact Hwg | intros E; exact (pathb_not_gallery (eq_sym E))
          | intros E; exact (patha_not_gallery (eq_sym E))]).
    reflexivity.
  - cbn [gallery faqs disk set_disk set_gallery].
    split; [reflexivity|]. split; [exact faqs_st0|]. split; [|split].
    + rewrite (read_written_ne _ pathb _ _ pathb_not_gallery). unfold disk2.
      rewrite (read_written_ne _ pathb _ _ pathb_not_patha). apply read_written.
    + rewrite (read_written_ne _ patha _ _ patha_not_gallery). apply read_written.
    + exists document. split; [apply read_written|].
      intros Hfin Hbody. unfold document, Fs.decode, Fs.encode.
      rewrite string_of_list_byte_of_string. apply parse_stringify2.
      rewrite exact_wf_finite. cbn [Json.wf Json.finite]. rewrite !forallb_app.
      unfold gallery_wf in Hwf. unfold gallery_finite in Hfin.
      rewrite Hwf, Hfin. cbn [forallb].
      rewrite entry_wf, (entry_finite Hbody). reflexivity.
Qed.

(** X20. When the write of the gallery document fails, the same upload is
    answered 500; the new entry is in the in-memory gallery all the same,
    [GET /api/gallery] lists it, and the two image files are on the disk. *)
Theorem upload_failure_is_not_rolled_back :
  writable (disk st) (galleryPath cfg) = false ->
  exists st',
    handle cfg inp req st
    = Some (st', sendJson 500 (error_body "Failed to save images"))
    /\ gallery st' = (gallery st ++ [entry])%list
    /\ (forall inp' get, method get = "GET" -> pathname get = "/api/gallery" ->
          handle cfg inp' get st'
          = Some (st', sendJson 200 (JArr (gallery st ++ [entry]))))
    /\ Fs.readFileSync (disk st') pathb = Ok (Base64.decode pb)
    /\ Fs.readFileSync (disk st') patha = Ok (Base64.decode pa)
    /\ Fs.readFileSync (disk st') (galleryPath cfg)
       = Fs.readFileSync (disk st) (galleryPath cfg).
Proof.
  intros Hwg. eexists. split.
  - unfold handle. rewrite route_upload, uploadImage_pair.
    rewrite (write_not_writable disk2 (galleryPath cfg) document)
      by (rewrite writable_disk2;
          [exact Hwg | intros E; exact (pathb_not_gallery (eq_sym E))
          | intros E; exact (patha_not_gallery (eq_sym E))]).
    reflexivity.
  - cbn [gallery faqs disk set_disk set_gallery].
    split; [reflexivity|]. split; [|split; [|split]].
    + intros inp' get Hm Hp. unfold handle, route. rewrite Hm, Hp. reflexivity.
    + unfold disk2.
      rewrite (read_written_ne _ pathb _ _ pathb_not_patha). apply read_written.
    + apply read_written.
    + unfold disk2.
      rewrite (read_written_ne _ _ patha _ (fun E => patha_not_gallery (eq_sym E))).
      exact (read_written_ne _ _ pathb _ (fun E => pathb_not_gallery (eq_sym E))).
Qed.

End Pair.

End Upload.

Lemma parseBody_post_json (path : string) (token : option string) (payload : json) :
  Json.exact payload = true -> parseBody (post_json path token payload) = payload.
Proof.
  intros Hwf. unfold parseBody, post_json. cbn [content_type body].
  change (Str.truthy "application/json") with true. cbv iota.
  change (Str.includes "application/json" "application/json") with true.
  cbv iota.
  destruct (stringify_head payload) as (c & s & E & _).
  assert (Ht : Str.truthy (stringify payload) = true) by (rewrite E; reflexivity).
  rewrite Ht, (parse_stringify payload Hwf). reflexivity.
Qed.

Lemma split_no_comma (s : string) :
  Forall (fun seg => no_comma seg = true) (Str.split "," s).
Proof.
  induction s as [|c s IH]; cbn [Str.split]; [repeat constructor|].
  destruct (Ascii.eqb c ",") eqn:E.
  - constructor; [reflexivity | exact IH].
  - destruct (Str.split "," s) as [|w ws];
      [repeat constructor; cbn; rewrite E; reflexivity|].
    inversion IH as [|? ? Hw Hws]; subst. constructor; [|exact Hws].
    cbn [no_comma]. rewrite E, Hw. reflexivity.
Qed.

Lemma toDataURL_no_comma (result s : string) :
  toDataURL result = Some s -> no_comma s = true.
Proof.
  unfold toDataURL. intros H.
  pose proof (split_no_comma result) as Hall. rewrite Forall_forall in Hall.
  apply Hall. apply list_elem_of_lookup. exists 1%nat. exact H.
Qed.

Lemma no_comma_app (a b : string) :
  no_comma (a +:+ b) = no_comma a && no_comma b.
Proof.
  induction a as [|c a IH]; [reflexivity|].
  rewrite append_cons. cbn [no_comma]. rewrite IH, andb_assoc. reflexivity.
Qed.

(** The pattern of [saveImage] matches no text without comma. *)
Lemma data_uri_exec_no_comma (s : string) :
  no_comma s = true -> data_uri_exec s = None.
Proof.
  intros Hs. destruct (data_uri_exec s) as [[kind payload]|] eqn:E; [|reflexivity].
  exfalso. revert E. unfold data_uri_exec.
  destruct (Str.strip_prefix "data:image/" s) as [r|] eqn:E0; [|discriminate].
  apply strip_prefix_spec in E0. subst s.
  assert (Htail : forall k r1 p,
            Str.strip_prefix k r = Some r1 ->
            Str.strip_prefix ";base64," r1 = Some p -> False).
  { intros k r1 p H1 H2. apply strip_prefix_spec in H1, H2. subst r r1.
    rewrite !no_comma_app in Hs.
    change (no_comma ";base64,") with false in Hs.
    rewrite !andb_false_r, ?andb_false_l in Hs.
    repeat rewrite ?andb_false_r, ?andb_false_l in Hs. discriminate Hs. }
  destruct (Str.strip_prefix "png" r) as [r1|] eqn:E1.
  - destruct (Str.strip_prefix ";base64," r1) as [p|] eqn:E2;
      [exfalso; exact (Htail _ _ _ E1 E2)|].
    destruct (Str.strip_prefix "jpeg" r) as [r2|] eqn:E3; [|discriminate].
    destruct (Str.strip_prefix ";base64," r2) as [p2|] eqn:E4;
      [exfalso; exact (Htail _ _ _ E3 E4) | discriminate].
  - destruct (Str.strip_prefix "jpeg" r) as [r2|] eqn:E3; [|discriminate].
    destruct (Str.strip_prefix ";base64," r2) as [p2|] eqn:E4;
      [exfalso; exact (Htail _ _ _ E3 E4) | discriminate].
Qed.

Lemma pattern_exec_no_comma (s : string) :
  no_comma s = true -> pattern_exec (JStr s) = Ok None.
Proof.
  intros H. unfold pattern_exec. cbn [to_String].
  rewrite (data_uri_exec_no_comma s H). reflexivity.
Qed.

Lemma uploadImage_bare (cfg : Config) (inp : Inputs) (req : Request) (st : State)
    (before after : option json) :
  snd (isAuthenticated (now inp) req st) = true ->
  field (parseBody req) "before" = Ok before ->
  field (parseBody req) "after" = Ok after ->
  bare_payload before -> bare_payload after ->
  exists msg,
    uploadImage cfg inp req st
    = (fst (isAuthenticated (now inp) req st),
       Ok (sendJson 400 (error_body msg))).
Proof.
  intros Hauth Hb Ha Hbare_b Hbare_a.
  destruct (field_total _ _ "title" _ Hb) as [title Ht].
  destruct (field_total _ _ "description" _ Hb) as [description Hd].
  unfold uploadImage, bind, isAuthenticatedM.
  rewrite (surjective_pairing (isAuthenticated (now inp) req st)), Hauth.
  cbn [negb]. unfold lift. rewrite Hb, Ha, Ht, Hd.
  destruct Hbare_b as [-> | (sb & -> & Hsb)];
    [eexists; reflexivity|].
  destruct Hbare_a as [-> | (sa & -> & Hsa)];
    [eexists; reflexivity|].
  destruct (negb (Json.truthy (JStr sb)) || negb (Json.truthy (JStr sa)));
    [eexists; reflexivity|].
  unfold try_catch.
  rewrite (saveImage_no_match cfg _ _ (JStr sb) "before" _
             (pattern_exec_no_comma sb Hsb)).
  rewrite (saveImage_no_match cfg _ _ (JStr sa) "after" _
             (pattern_exec_no_comma sa Hsa)).
  eexists; reflexivity.
Qed.

Lemma bare_toDataURL (result : string) : bare_payload (JStr <$> toDataURL result).
Proof.
  destruct (toDataURL result) as [s|] eqn:E; [right | left; reflexivity].
  exists s. split; [reflexivity | exact (toDataURL_no_comma result s E)].
Qed.

Lemma gallery_form_fields (token rb ra : string) :
  parseBody (gallery_form token rb ra)
  = JObj (defined_members [("before", JStr <$> toDataURL rb);
                           ("after", JStr <$> toDataURL ra)])
  /\ field (parseBody (gallery_form token rb ra)) "before"
     = Ok (JStr <$> toDataURL rb)
  /\ field (parseBody (gallery_form token rb ra)) "after"
     = Ok (JStr <$> toDataURL ra).
Proof.
  unfold gallery_form. rewrite parseBody_post_json.
  - destruct (toDataURL rb), (toDataURL ra); repeat split.
  - destruct (toDataURL rb), (toDataURL ra); reflexivity.
Qed.

(** X26. The gallery form of the admin console sends, for each image, the
    part of the data URL after its comma, and the server accepts an image
    only with the header before that comma: whatever the two files are and
    whatever the token, the upload is refused (403 or 400), no file is
    written and the gallery is as before. *)
Theorem gallery_form_is_always_refused (cfg : Config) (inp : Inputs)
    (token beforeResult afterResult : string) (st : State) :
  exists st' status msg,
    handle cfg inp (gallery_form token beforeResult afterResult) st
    = Some (st', sendJson status (error_body msg))
    /\ (status = 403 \/ status = 400)
    /\ gallery st' = gallery st /\ disk st' = disk st.
Proof.
  set (req := gallery_form token beforeResult afterResult).
  destruct (gallery_form_fields token beforeResult afterResult) as (_ & Hb & Ha).
  fold req in Hb, Ha.
  destruct (isAuthenticated_frame (now inp) req st) as (_ & Hg & _ & Hd).
  assert (Hroute : route cfg inp req st = Some (uploadImage cfg inp req st))
    by reflexivity.
  unfold handle. rewrite Hroute.
  destruct (snd (isAuthenticated (now inp) req st)) eqn:Hauth.
  - destruct (uploadImage_bare cfg inp req st _ _ Hauth Hb Ha
                (bare_toDataURL beforeResult) (bare_toDataURL afterResult))
      as [msg ->].
    eexists _, 400, msg. split; [reflexivity|]. split; [right; reflexivity|].
    split; assumption.
  - rewrite (uploadImage_unauthorized cfg inp req st Hauth).
    eexists _, 403, _. split; [reflexivity|]. split; [left; reflexivity|].
    split; assumption.
Qed.

(** ** Trimming *)

Lemma rev_cons (c : ascii) (s : string) :
  String.rev (String c s) = String.rev s +:+ String c EmptyString.
Proof. unfold String.rev. cbn [String.rev_app]. apply rev_app_spec. Qed.

Lemma string_rev_involutive (s : string) : String.rev (String.rev s) = s.
Proof.
  induction s as [|c s IH]; [reflexivity|].
  rewrite rev_cons, rev_append, IH. reflexivity.
Qed.

Lemma trimStart_starts_black (s : string) : starts_black (Str.trimStart s) = true.
Proof.
  induction s as [|c s IH]; [reflexivity|]. cbn [Str.trimStart].
  destruct (Str.is_white c) eqn:E; [exact IH|]. cbn [starts_black].
  rewrite E. reflexivity.
Qed.

Lemma trimStart_black (s : string) : starts_black s = true -> Str.trimStart s = s.
Proof.
  destruct s as [|c s]; [reflexivity|]. cbn [starts_black Str.trimStart].
  intros H. apply negb_true_iff in H. rewrite H. reflexivity.
Qed.

Lemma trimStart_suffix (s : string) : exists pre, s = pre +:+ Str.trimStart s.
Proof.
  induction s as [|c s (pre & IH)]; [exists EmptyString; reflexivity|].
  cbn [Str.trimStart]. destruct (Str.is_white c).
  - exists (String c pre). rewrite append_cons, <- IH. reflexivity.
  - exists EmptyString. reflexivity.
Qed.

Lemma starts_black_app (a b : string) :
  starts_black (a +:+ b) = true -> Str.truthy a = true -> starts_black a = true.
Proof. destruct a; [discriminate | intros H _; exact H]. Qed.

(** What is left after [trimStart] ends as the text did. *)
Lemma trimStart_ends_black (s : string) :
  starts_black (String.rev s) = true ->
  starts_black (String.rev (Str.trimStart s)) = true.
Proof.
  intros H. destruct (trimStart_suffix s) as (pre & E).
  destruct (Str.trimStart s) as [|c t] eqn:Et; [reflexivity|].
  rewrite E, rev_append in H.
  apply (starts_black_app _ _ H).
  destruct (rev_cons_truthy c t) as (c' & r & ->). reflexivity.
Qed.

(** [trim] removes all there is to remove. *)
Lemma trim_idempotent (s : string) : Str.trim (Str.trim s) = Str.trim s.
Proof.
  unfold Str.trim.
  set (t := Str.trimStart s).
  set (u := Str.trimStart (String.rev t)).
  assert (Hu : starts_black u = true) by apply trimStart_starts_black.
  assert (Hu' : starts_black (String.rev u) = true).
  { apply trimStart_ends_black. rewrite string_rev_involutive.
    apply trimStart_starts_black. }
  rewrite (trimStart_black _ Hu'), string_rev_involutive, (trimStart_black _ Hu).
  reflexivity.
Qed.

(** ** Logging in *)

Lemma route_login (cfg : Config) (inp : Inputs) (req : Request) (st : State) :
  method req = "POST" -> pathname req = "/api/admin/login" ->
  route cfg inp req st = Some (login inp req st).
Proof. intros Hm Hp. unfold route. rewrite Hm, Hp. reflexivity. Qed.

(** X5. The login succeeds exactly when the body holds, as [username]
    and as [password], the text [admin]: the server then stores the time
    under the new token and answers with the token; for any other body
    that is not [null], missing or non-text credentials included, the
    answer is 401 and the state is as before. *)
Theorem login_checks_credentials (cfg : Config) (inp : Inputs) (req : Request)
    (st : State) (u p : option json) :
  method req = "POST" -> pathname req = "/api/admin/login" ->
  field (parseBody req) "username" = Ok u ->
  field (parseBody req) "password" = Ok p ->
  (u = Some (JStr "admin") /\ p = Some (JStr "admin") ->
   handle cfg inp req st
   = Some (set_sessions
             (<[Str.hex (tokenBytes inp) := {| timestamp := now inp |}]>
                (sessions st)) st,
           sendJson 200 (JObj [("token", JStr (Str.hex (tokenBytes inp)))])))
  /\ (~ (u = Some (JStr "admin") /\ p = Some (JStr "admin")) ->
      handle cfg inp req st
      = Some (st, sendJson 401 (error_body "Invalid credentials"))).
Proof.
  intros Hm Hp Hu Hpw. unfold handle. rewrite (route_login cfg inp req st Hm Hp).
  split.
  - intros [-> ->]. rewrite (login_creates_session inp req st Hu Hpw). reflexivity.
  - intros Hno. unfold login, bind, lift, modify, ret. rewrite Hu, Hpw.
    destruct u as [[| | |us| |]|]; try reflexivity.
    destruct p as [[| | |ps| |]|]; try reflexivity.
    destruct (String.eqb_spec us "admin") as [->|_]; [|reflexivity].
    destruct (String.eqb_spec ps "admin") as [->|_]; [|reflexivity].
    exfalso. apply Hno. split; reflexivity.
Qed.

Lemma parseBody_login_form (username password : string) :
  parseBody (login_form username password)
  = JObj [("username", JStr (Str.trim username)); ("password", JStr password)].
Proof. unfold login_form. apply parseBody_post_json. reflexivity. Qed.

(** X25. The admin console end to end: the login form with the user name
    [admin], blanks around it or not, and the password [admin] obtains a
    token; the FAQ form sent with that token within 24 hours is answered
    200, and the entry the form sent, trimmed, is the new last FAQ. *)
Theorem console_login_then_add_faq (cfg : Config) (inp1 inp2 : Inputs) (st : State)
    (username password question answer : string) (req : Request) :
  Str.trim username = "admin" -> password = "admin" ->
  faq_form (Str.hex (tokenBytes inp1)) question answer = Some req ->
  now inp2 - now inp1 <= DAY ->
  exists st1 st2,
    handle cfg inp1 (login_form username password) st
    = Some (st1, sendJson 200 (JObj [("token", JStr (Str.hex (tokenBytes inp1)))]))
    /\ handle cfg inp2 req st1
       = Some (st2, sendJson 200 (JObj [("success", JBool true)]))
    /\ faqs st2 = (faqs st ++ [faq_entry (Str.trim question) (Str.trim answer)])%list.
Proof.
  intros Hu -> Hform Hnow.
  set (token := Str.hex (tokenBytes inp1)) in *.
  set (st1 := set_sessions (<[token := {| timestamp := now inp1 |}]> (sessions st)) st).
  assert (Hlogin : handle cfg inp1 (login_form username "admin") st
                   = Some (st1, sendJson 200 (JObj [("token", JStr token)]))).
  { unfold handle.
    rewrite (route_login cfg inp1 (login_form username "admin") st eq_refl eq_refl).
    rewrite (login_creates_session inp1 (login_form username "admin") st);
      [reflexivity | rewrite parseBody_login_form, Hu; reflexivity
      | rewrite parseBody_login_form; reflexivity]. }
  unfold faq_form in Hform.
  destruct (negb (Str.truthy (Str.trim question))
            || negb (Str.truthy (Str.trim answer))) eqn:Eblank; [discriminate|].
  apply orb_false_iff in Eblank. destruct Eblank as [Hq Ha].
  apply negb_false_iff in Hq, Ha.
  injection Hform as <-.
  set (req := post_json "/api/admin/add-faq" (Some token)
                (JObj [("question", JStr (Str.trim question));
                       ("answer", JStr (Str.trim answer))])).
  assert (Hbody : parseBody req
                  = JObj [("question", JStr (Str.trim question));
                          ("answer", JStr (Str.trim answer))])
    by (apply parseBody_post_json; reflexivity).
  assert (Hauth : isAuthenticated (now inp2) req st1
                  = (set_sessions (<[token := {| timestamp := now inp2 |}]>
                                     (sessions st1)) st1, true)).
  { rewrite (isAuthenticated_registered (now inp2) req st1 (tokenBytes inp1)
               {| timestamp := now inp1 |} eq_refl);
      [|apply lookup_insert_eq].
    cbn [timestamp]. destruct (Z.ltb_spec DAY (now inp2 - now inp1)); [lia|].
    reflexivity. }
  exists st1. eexists. split; [exact Hlogin|]. split.
  - apply (handle_addFaq cfg inp2 req st1 (Str.trim question) (Str.trim answer)).
    + rewrite Hauth. reflexivity.
    + rewrite Hbody. reflexivity.
    + rewrite Hbody. reflexivity.
    + rewrite trim_idempotent. exact Hq.
    + rewrite trim_idempotent. exact Ha.
    + reflexivity.
    + reflexivity.
  - rewrite !trim_idempotent.
    destruct (Fs.writeFileSync _ _ _); reflexivity.
Qed.

(** ** Tokens *)

Lemma hex_all_hex (bs : list byte) : all_hex (Str.hex bs) = true.
Proof.
  induction bs as [|b bs IH]; [reflexivity|].
  cbn [Str.hex all_hex]. rewrite IH. destruct b; reflexivity.
Qed.

(** No token that [login] issues is the name of something [sessions]
    inherits. *)
Lemma inherited_hex (op : ObjectPrototype) (bs : list byte) :
  inherited op (Str.hex bs) = None.
Proof.
  pose proof (hex_all_hex bs) as H. unfold inherited.
  case_bool_decide as Hin.
  - exfalso. unfold member_functions in Hin.
    repeat (apply elem_of_cons in Hin; destruct Hin as [E | Hin];
            [rewrite E in H; discriminate H|]).
    inversion Hin.
  - destruct (String.eqb_spec (Str.hex bs) "__proto__") as [E|_];
      [rewrite E in H; discriminate H|].
    destruct (String.eqb_spec (Str.hex bs) "timestamp") as [E|_];
      [rewrite E in H; discriminate H|].
    reflexivity.
Qed.

(** A token of the kind [login] issues that is not in the registry is
    refused, and nothing changes. *)
Lemma isAuthenticated_unregistered (now : Z) (req : Request) (st : State)
    (bytes : list byte) :
  authorization req = Some ("Bearer " +:+ Str.hex bytes) ->
  sessions st !! Str.hex bytes = None ->
  isAuthenticated now req st = (st, false).
Proof.
  intros Hauth Hnone. unfold isAuthenticated. rewrite Hauth.
  change (Str.truthy ("Bearer " +:+ Str.hex bytes)) with true. cbn [negb].
  rewrite (split_bearer _ (split_hex bytes)).
  change (String.eqb "Bearer" "Bearer") with true. cbn [negb].
  unfold sessions_get. rewrite Hnone, inherited_hex. reflexivity.
Qed.

(** [isAuthenticated] registers nothing: it deletes the session of the
    token presented, or refreshes it where it is. *)
Lemma unregistered_isAuthenticated (token : string) (now : Z) (req : Request)
    (st : State) :
  unregistered token st -> unregistered token (fst (isAuthenticated now req st)).
Proof.
  unfold unregistered. intros Hnone. unfold isAuthenticated.
  destruct (authorization req) as [auth|]; [|exact Hnone].
  destruct (negb (Str.truthy auth)); [exact Hnone|].
  destruct (Str.split " " auth) as [|scheme [|presented [|? ?]]];
    try exact Hnone.
  destruct (negb (String.eqb scheme "Bearer")); [exact Hnone|].
  destruct (sessions_get st presented) as [r|] eqn:Eg; [|exact Hnone].
  destruct (negb (truthy_ref r)); [exact Hnone|].
  destruct (expired now (read_timestamp st r)).
  - cbn [fst sessions set_sessions].
    destruct (decide (presented = token)) as [->|Hne];
      [apply lookup_delete_eq | rewrite lookup_delete_ne by exact Hne; exact Hnone].
  - destruct r as [s|[j|name|]]; cbn [fst write_timestamp sessions set_sessions
                                       set_objectPrototype]; try exact Hnone.
    assert (Hne : presented <> token).
    { intros ->. unfold sessions_get in Eg. rewrite Hnone in Eg.
      destruct (inherited (objectPrototype st) token); discriminate Eg. }
    rewrite lookup_insert_ne by exact Hne. exact Hnone.
Qed.

(** A request that is not a login drawing the bytes of [token] leaves
    [token] unregistered. *)
Lemma unregistered_handle (token : string) (cfg : Config) (inp : Inputs)
    (req : Request) (st st' : State) (r : response) :
  (method req = "POST" -> pathname req = "/api/admin/login" ->
   Str.hex (tokenBytes inp) <> token) ->
  handle cfg inp req st = Some (st', r) ->
  unregistered token st -> unregistered token st'.
Proof.
  intros Hfresh.
  apply (respects_handle_request
           (fun s s' => unregistered token s -> unregistered token s')).
  - intros s H. exact H.
  - intros a b c Hab Hbc H. exact (Hbc (Hab H)).
  - intros s fs H. exact H.
  - intros s lang obj _ H. exact H.
  - intros s q a _ _ H. exact H.
  - intros s bp ap t d _ _ H. exact H.
  - intros s s' o. unfold isAuthenticatedM.
    pose proof (unregistered_isAuthenticated token (now inp) req s) as Hkeep.
    destruct (isAuthenticated (now inp) req s) as [s1 ok]. cbn [fst] in Hkeep.
    intros E. injection E as <- _. exact Hkeep.
  - intros Hm Hp. specialize (Hfresh Hm Hp).
    apply respects_login_token.
    + intros s H. exact H.
    + intros a b c Hab Hbc H. exact (Hbc (Hab H)).
    + intros s H. unfold unregistered in *.
      cbn [sessions set_sessions]. rewrite lookup_insert_ne by exact Hfresh.
      exact H.
Qed.

Lemma unregistered_runs (token : string) (cfg : Config) (st st' : State) :
  runs_without token cfg st st' ->
  unregistered token st -> unregistered token st'.
Proof.
  induction 1 as [st | inp req st st1 r st' Hfresh Hh _ IH | fs st st' _ IH];
    intros Hgone.
  - exact Hgone.
  - apply IH. exact (unregistered_handle _ cfg inp req st st1 r Hfresh Hh Hgone).
  - apply IH. exact Hgone.
Qed.

(** X7. A session that has expired does not come back by itself: a token
    that a login issued and that has been refused for its age is refused
    again at the end of every run of the server in which no login draws
    the same token anew, whatever the clock says then, and that request
    changes nothing. *)
Theorem expired_token_stays_refused (cfg : Config) (now now' : Z) (req : Request)
    (st st' : State) (bytes : list byte) (s : session) :
  authorization req = Some ("Bearer " +:+ Str.hex bytes) ->
  sessions st !! Str.hex bytes = Some s ->
  DAY < now - timestamp s ->
  runs_without (Str.hex bytes) cfg (fst (isAuthenticated now req st)) st' ->
  snd (isAuthenticated now req st) = false
  /\ isAuthenticated now' req st' = (st', false).
Proof.
  intros Hauth Hs Hold Hruns.
  rewrite (isAuthenticated_registered now req st bytes s Hauth Hs) in *.
  destruct (Z.ltb_spec DAY (now - timestamp s)) as [_|Hle]; [|lia].
  cbn [fst snd] in *. split; [reflexivity|].
  apply (isAuthenticated_unregistered now' req _ bytes Hauth).
  apply (unregistered_runs _ cfg _ st' Hruns).
  unfold unregistered. cbn [sessions set_sessions]. apply lookup_delete_eq.
Qed.

(** ** A fresh server *)

Lemma loadData_fresh (cfg : Config) (fs : FS) (st : State) :
  loadData cfg fs = Some st ->
  sessions st = ∅ /\ localesCache st = ∅ /\ objectPrototype st = no_pollution
  /\ disk st = fs.
Proof.
  unfold loadData.
  destruct (load_collection fs _); [|discriminate].
  destruct (load_collection fs _); [|discriminate].
  intros H. injection H as <-. repeat split.
Qed.

(** X8. [sessions] is an object literal, and a token is looked up in it
    with [sessions[token]]: on a server that has just started, where
    nobody has logged in, a request whose bearer token is the name of a
    function every object inherits ([constructor], [toString], ...) passes
    [isAuthenticated], and its FAQ is added. *)
Theorem inherited_name_passes_for_a_token (cfg : Config) (fs : FS) (st : State)
    (inp : Inputs) (req : Request) (name q a : string) :
  loadData cfg fs = Some st ->
  name ∈ member_functions ->
  method req = "POST" -> pathname req = "/api/admin/add-faq" ->
  authorization req = Some ("Bearer " +:+ name) ->
  field (parseBody req) "question" = Ok (Some (JStr q)) ->
  field (parseBody req) "answer" = Ok (Some (JStr a)) ->
  Str.truthy (Str.trim q) = true -> Str.truthy (Str.trim a) = true ->
  sessions st = ∅
  /\ snd (isAuthenticated (now inp) req st) = true
  /\ exists st',
       handle cfg inp req st
       = Some (st', sendJson 200 (JObj [("success", JBool true)]))
       /\ faqs st' = (faqs st ++ [faq_entry (Str.trim q) (Str.trim a)])%list.
Proof.
  intros Hload Hin Hm Hp Hauth Hq Ha Htq Hta.
  destruct (loadData_fresh cfg fs st Hload) as (Hs & _ & Hop & _).
  assert (Hok : snd (isAuthenticated (now inp) req st) = true).
  { rewrite (isAuthenticated_member_function (now inp) req st name Hin Hauth);
      [reflexivity | rewrite Hs; apply lookup_empty | exact Hop]. }
  split; [exact Hs|]. split; [exact Hok|]. eexists. split.
  - exact (handle_addFaq cfg inp req st q a Hok Hq Ha Htq Hta Hm Hp).
  - destruct (Fs.writeFileSync _ _ _); reflexivity.
Qed.

(** ** What is written is read back *)

Lemma gallery_wf_handle (cfg : Config) (inp : Inputs) (req : Request)
    (st st' : State) (r : response) :
  handle cfg inp req st = Some (st', r) -> gallery_wf st -> gallery_wf st'.
Proof.
  apply (respects_handle (fun s s' => gallery_wf s -> gallery_wf s')).
  - intros s. exact id.
  - intros x y z H1 H2 H. exact (H2 (H1 H)).
  - intros s fs. exact id.
  - intros s lang obj _. exact id.
  - intros s x. exact id.
  - intros s op. exact id.
  - intros s q a _ _. exact id.
  - intros s bp ap t d Ht Hd H. unfold gallery_wf in *.
    cbn [gallery set_gallery]. rewrite forallb_app, H.
    cbn [forallb Json.wf snd]. rewrite Ht, Hd. reflexivity.
Qed.

Lemma loadData_gallery_wf (cfg : Config) (fs : FS) (st : State) :
  loadData cfg fs = Some st -> gallery_wf st.
Proof.
  unfold loadData.
  destruct (load_collection fs (Path.join [dataDir cfg; "faqs.json"]));
    [|discriminate].
  destruct (load_collection fs (Path.join [dataDir cfg; "gallery.json"]))
    as [g|] eqn:Eg; [|discriminate].
  intros H. injection H as <-. unfold gallery_wf. cbn [gallery].
  revert Eg. unfold load_collection.
  destruct (Fs.readFileSync fs _) as [data|];
    [|intros H; injection H as <-; reflexivity].
  destruct (Json.parse (Fs.decode data)) as [v|] eqn:Ep;
    [|intros H; injection H as <-; reflexivity].
  pose proof (parse_wf _ _ Ep) as Hwf.
  destruct v; try discriminate. intros H. injection H as <-. exact Hwf.
Qed.

Lemma reachable_gallery_wf (cfg : Config) (st : State) :
  reachable cfg st -> gallery_wf st.
Proof.
  induction 1 as [fs st H | inp req st st' r _ IH H | fs st _ IH].
  - exact (loadData_gallery_wf cfg fs st H).
  - exact (gallery_wf_handle cfg inp req st st' r H IH).
  - exact IH.
Qed.

Lemma exact_collection (l : list json) :
  forallb Json.wf l = true -> forallb Json.finite l = true ->
  Json.exact (JArr l) = true.
Proof.
  intros Hwf Hfin. rewrite exact_wf_finite. cbn [Json.wf Json.finite].
  rewrite Hwf, Hfin. reflexivity.
Qed.

(** X17. In every state the server reaches, the two list endpoints
    answer 200, and the body of the answer is a JSON text that parses
    back, on the side of the page, to the stored FAQs, respectively to the
    stored gallery, in their order, when the collection holds no number
    that is not finite. *)
Theorem listed_collections_parse_back (cfg : Config) (inp : Inputs)
    (req : Request) (st : State) :
  reachable cfg st -> method req = "GET" ->
  (pathname req = "/api/faqs" ->
   exists v, handle cfg inp req st = Some (st, SendJson 200 v)
             /\ (faqs_finite st ->
                 Json.parse (sendJson_body (objectPrototype st) v)
                 = Some (JArr (faqs st))))
  /\ (pathname req = "/api/gallery" ->
      exists v, handle cfg inp req st = Some (st, SendJson 200 v)
                /\ (gallery_finite st ->
                    Json.parse (sendJson_body (objectPrototype st) v)
                    = Some (JArr (gallery st)))).
Proof.
  intros Hreach Hm. split; intros Hp.
  - exists (VJson (JArr (faqs st))). split.
    + unfold handle, route. rewrite Hm, Hp. reflexivity.
    + intros Hfin. apply parse_stringify.
      exact (exact_collection _ (reachable_faqs_wf cfg st Hreach) Hfin).
  - exists (VJson (JArr (gallery st))). split.
    + unfold handle, route. rewrite Hm, Hp. reflexivity.
    + intros Hfin. apply parse_stringify.
      exact (exact_collection _ (reachable_gallery_wf cfg st Hreach) Hfin).
Qed.

Section Reload.

Variables (cfg : Config) (inp : Inputs) (req : Request) (st : State).
Variables (q a : string).

Hypothesis Hmethod : method req = "POST".
Hypothesis Hpath : pathname req = "/api/admin/add-faq".
Hypothesis Hauth : snd (isAuthenticated (now inp) req st) = true.
Hypothesis Hquestion : field (parseBody req) "question" = Ok (Some (JStr q)).
Hypothesis Hanswer : field (parseBody req) "answer" = Ok (Some (JStr a)).
Hypothesis Hq : Str.truthy (Str.trim q) = true.
Hypothesis Ha : Str.truthy (Str.trim a) = true.
Hypothesis Hwf : faqs_wf st.
Hypothesis Hfin : faqs_finite st.
Hypothesis Hw : writable (disk st) (faqsPath cfg) = true.

Let entry := faq_entry (Str.trim q) (Str.trim a).

(** X18. What [add-faq] writes, [loadData] reads: when the write of the
    document goes through and no stored FAQ holds a number that is not
    finite, a server started on the disk the request left holds the same
    FAQs, the new one last, and starts without session and without cached
    locale, its gallery being what [loadData] reads from the gallery
    document of that disk. *)
Theorem restart_restores_the_faqs :
  exists st',
    handle cfg inp req st
    = Some (st', sendJson 200 (JObj [("success", JBool true)]))
    /\ faqs st' = (faqs st ++ [entry])%list
    /\ loadData cfg (disk st')
       = option_map
           (fun g => {| faqs := faqs st'; gallery := g; localesCache := ∅;
                        sessions := ∅; objectPrototype := no_pollution;
                        disk := disk st' |})
           (load_collection (disk st') (galleryPath cfg)).
Proof.
  eexists. split; [exact (handle_addFaq cfg inp req st q a Hauth Hquestion Hanswer Hq Ha Hmethod Hpath)|].
  rewrite (write_writable _ _ _ Hw). cbn [faqs disk set_disk set_faqs].
  split; [reflexivity|].
  unfold loadData. fold (faqsPath cfg). fold (galleryPath cfg).
  assert (Hload : load_collection
                    (written (disk st) (faqsPath cfg)
                       (Fs.encode (Json.stringify2 (JArr (faqs st ++ [entry])))))
                    (faqsPath cfg)
                  = Some (faqs st ++ [entry])%list).
  { unfold load_collection. rewrite read_written.
    unfold Fs.decode, Fs.encode. rewrite string_of_list_byte_of_string.
    rewrite parse_stringify2; [reflexivity|].
    apply exact_collection; rewrite forallb_app;
      [unfold faqs_wf in Hwf; rewrite Hwf | unfold faqs_finite in Hfin; rewrite Hfin];
      reflexivity. }
  fold entry. rewrite Hload.
  destruct (load_collection _ (galleryPath cfg)); reflexivity.
Qed.

End Reload.

(** ** Chatting *)

Lemma faq_ok_has_question (faq : json) : faq_ok faq -> has_question faq.
Proof. intros (q & a & Hq & _). exists q. exact Hq. Qed.

Lemma faqs_ok_handle (cfg : Config) (inp : Inputs) (req : Request)
    (st st' : State) (r : response) :
  handle cfg inp req st = Some (st', r) ->
  Forall faq_ok (faqs st) -> Forall faq_ok (faqs st').
Proof.
  apply (respects_handle
           (fun s s' => Forall faq_ok (faqs s) -> Forall faq_ok (faqs s'))).
  - intros s. exact id.
  - intros x y z H1 H2 H. exact (H2 (H1 H)).
  - intros s fs. exact id.
  - intros s lang obj _. exact id.
  - intros s x. exact id.
  - intros s op. exact id.
  - intros s q a Hq Ha H. cbn [faqs set_faqs]. apply Forall_app. split; [exact H|].
    constructor; [|constructor]. exists q, a. repeat split; assumption.
  - intros s bp ap t d _ _. exact id.
Qed.

(** X3. Every stored FAQ having a question and an answer that are texts
    and not empty is an invariant of the server: along every run, the
    entries [add-faq] appends keep it. *)
Theorem stored_faqs_stay_well_formed (cfg : Config) (st st' : State) :
  runs cfg st st' -> Forall faq_ok (faqs st) -> Forall faq_ok (faqs st').
Proof.
  induction 1 as [st | inp req st st1 r st' H _ IH | fs st st' _ IH].
  - exact id.
  - intros Hok. exact (IH (faqs_ok_handle _ _ _ _ _ _ H Hok)).
  - exact IH.
Qed.

(** The matcher on entries that have a question. *)
Lemma matchAnswer_found (l : list json) (question : string) (x : json) :
  Str.truthy question = true ->
  Forall has_question l ->
  first_such (exact_match question) l x
  \/ (Forall (fun y => ~ exact_match question y) l
      /\ first_such (substring_match question) l x) ->
  matchAnswer l question = field x "answer".
Proof.
  intros Hq Hl Hx. unfold matchAnswer. rewrite Hq.
  assert (He : Forall (decides (exact (Str.toLowerCase question))
                         (exact_match question)) l).
  { eapply Forall_impl; [exact Hl | apply exact_decides]. }
  assert (Hp : Forall (decides (partial (Str.toLowerCase question))
                         (substring_match question)) l).
  { eapply Forall_impl; [exact Hl | apply partial_decides]. }
  assert (Ht : forall P y, first_such P l y -> Json.truthy y = true).
  { intros P y Hy. apply has_question_truthy.
    rewrite Forall_forall in Hl. apply Hl, (first_such_in P), Hy. }
  destruct Hx as [Hx | [Hne Hx]].
  - rewrite (find_first _ _ l x He Hx). cbn [truthy_opt].
    rewrite (Ht _ _ Hx). reflexivity.
  - rewrite (find_none _ _ l He Hne). cbn [truthy_opt].
    rewrite (find_first _ _ l x Hp Hx). cbn [truthy_opt].
    rewrite (Ht _ _ Hx). reflexivity.
Qed.

(** X11. With well-formed stored FAQs, a chat question that matches one,
    by equality first and by inclusion otherwise, is answered 200 with the
    answer of the first such entry; no locale is looked up and the state is
    as before. *)
Theorem chat_answers_with_the_first_match (cfg : Config) (inp : Inputs)
    (req : Request) (st : State) (q g : option json) (question lang : string)
    (x : json) :
  method req = "POST" -> pathname req = "/api/chat" ->
  field (parseBody req) "question" = Ok q ->
  call_trim (or_else q (JStr EmptyString)) = Ok question ->
  field (parseBody req) "lang" = Ok g ->
  call_trim (or_else g (JStr "en")) = Ok lang ->
  Str.truthy question = true ->
  Forall faq_ok (faqs st) ->
  first_such (exact_match question) (faqs st) x
  \/ (Forall (fun y => ~ exact_match question y) (faqs st)
      /\ first_such (substring_match question) (faqs st) x) ->
  exists a,
    field x "answer" = Ok (Some (JStr a))
    /\ handle cfg inp req st
       = Some (st, sendJson 200 (JObj [("answer", JStr a)])).
Proof.
  intros Hm Hp Hq Hquestion Hg Hlang Ht Hok Hx.
  assert (Hin : x ∈ faqs st).
  { destruct Hx as [Hx | [_ Hx]]; exact (first_such_in _ _ _ Hx). }
  rewrite Forall_forall in Hok.
  destruct (Hok x Hin) as (qx & a & _ & _ & Ha & Hta).
  exists a. split; [exact Ha|].
  assert (Hmatch : matchAnswer (faqs st) question = Ok (Some (JStr a))).
  { rewrite (matchAnswer_found (faqs st) question x Ht); [exact Ha | | exact Hx].
    apply Forall_forall. intros y Hy. exact (faq_ok_has_question y (Hok y Hy)). }
  unfold handle. rewrite (route_chat cfg inp req st Hm Hp).
  unfold chat, bind, lift, gets, ret.
  rewrite Hq, Hquestion, Hg, Hlang, Hmatch. cbn [truthy_opt Json.truthy].
  rewrite Hta. cbn [negb or_else Json.truthy]. rewrite Hta. reflexivity.
Qed.

(** X12. The chat endpoint never answers with an empty answer: whatever
    the request, the response is either the 500 of a thrown exception or
    200 with an [answer] that is truthy (a FAQ answer, the text of the
    locale, or the default text). *)
Theorem chat_answer_is_never_empty (cfg : Config) (inp : Inputs) (req : Request)
    (st st' : State) (r : response) :
  method req = "POST" -> pathname req = "/api/chat" ->
  handle cfg inp req st = Some (st', r) ->
  r = SendText 500 "Internal Server Error"
  \/ exists a, r = sendJson 200 (JObj [("answer", a)]) /\ Json.truthy a = true.
Proof.
  intros Hm Hp. unfold handle. rewrite (route_chat cfg inp req st Hm Hp).
  unfold chat, bind, lift, gets, ret.
  destruct (field (parseBody req) "question") as [q|];
    [|intros H; injection H as _ <-; left; reflexivity].
  destruct (call_trim (or_else q (JStr EmptyString))) as [question|];
    [|intros H; injection H as _ <-; left; reflexivity].
  destruct (field (parseBody req) "lang") as [g|];
    [|intros H; injection H as _ <-; left; reflexivity].
  destruct (call_trim (or_else g (JStr "en"))) as [lang|];
    [|intros H; injection H as _ <-; left; reflexivity].
  destruct (matchAnswer (faqs st) question) as [answer|];
    [|intros H; injection H as _ <-; left; reflexivity].
  destruct (truthy_opt answer) eqn:Et; cbn [negb].
  - intros H. injection H as _ <-. right. exists (or_else answer JNull).
    split; [reflexivity|]. destruct answer as [j|]; [|discriminate Et].
    cbn [or_else truthy_opt] in *. rewrite Et. exact Et.
  - destruct (getLocale cfg lang st) as [st1 [localeObj|]];
      [|intros H; injection H as _ <-; left; reflexivity].
    destruct (prop localeObj "chat_no_answer") as [n|];
      [|intros H; injection H as _ <-; left; reflexivity].
    intros H. injection H as _ <-. right.
    exists (or_else n (JStr default_answer)). split; [reflexivity|].
    destruct n as [j|]; [|reflexivity]. cbn [or_else].
    destruct (Json.truthy j) eqn:Ej; [exact Ej | reflexivity].
Qed.

(** X13. The fallback of the locales reaches the chat: for a question
    without match and a language whose document cannot be read, the
    English document being on the disk with a text under
    [chat_no_answer], the answer is that text, and the document is cached
    under [en], not under the language asked for. *)
Theorem chat_falls_back_to_the_english_text (cfg : Config) (inp : Inputs)
    (req : Request) (st : State) (q g : option json) (question lang : string)
    (data : list byte) (fields : list (string * json)) (text : string) :
  method req = "POST" -> pathname req = "/api/chat" ->
  field (parseBody req) "question" = Ok q ->
  call_trim (or_else q (JStr EmptyString)) = Ok question ->
  field (parseBody req) "lang" = Ok g ->
  call_trim (or_else g (JStr "en")) = Ok lang ->
  matchAnswer (faqs st) question = Ok None ->
  lang <> "en" ->
  cache_hit st lang = None -> cache_hit st "en" = None ->
  Fs.readFile (disk st) (localePath cfg lang) = ReadError ->
  Fs.readFile (disk st) (localePath cfg "en") = ReadData data ->
  Json.parse (Fs.decode data) = Some (JObj fields) ->
  Json.assoc "chat_no_answer" fields = Some (JStr text) ->
  Str.truthy text = true ->
  let st' := set_localesCache (<["en" := JObj fields]> (localesCache st)) st in
  handle cfg inp req st = Some (st', sendJson 200 (JObj [("answer", JStr text)]))
  /\ localesCache st' !! lang = localesCache st !! lang.
Proof.
  intros Hm Hp Hq Hquestion Hg Hlang Hmatch Hne Hmiss Hmiss_en Hr Hr_en Hparse
    Hkey Ht st'.
  split.
  - unfold handle. rewrite (route_chat cfg inp req st Hm Hp).
    unfold chat, bind, lift, gets, ret.
    rewrite Hq, Hquestion, Hg, Hlang, Hmatch. cbn [truthy_opt negb].
    unfold getLocale. cbn [getLocale_fuel].
    rewrite Hmiss, Hr. apply String.eqb_neq in Hne. rewrite Hne. cbn [negb].
    rewrite Hmiss_en, Hr_en, Hparse. cbn [prop field]. rewrite Hkey.
    cbn [or_else Json.truthy]. rewrite Ht. reflexivity.
  - subst st'. cbn [localesCache set_localesCache].
    apply lookup_insert_ne. congruence.
Qed.

(** ** Bodies *)

Lemma route_addFaq (cfg : Config) (inp : Inputs) (req : Request) (st : State) :
  method req = "POST" -> pathname req = "/api/admin/add-faq" ->
  route cfg inp req st = Some (addFaq cfg inp req st).
Proof. intros Hm Hp. unfold route. rewrite Hm, Hp. reflexivity. Qed.

Lemma route_uploadImage (cfg : Config) (inp : Inputs) (req : Request) (st : State) :
  method req = "POST" -> pathname req = "/api/admin/upload-image" ->
  route cfg inp req st = Some (uploadImage cfg inp req st).
Proof. intros Hm Hp. unfold route. rewrite Hm, Hp. reflexivity. Qed.

Lemma parseBody_not_json (req : Request) :
  (forall c, content_type req = Some c -> Str.includes c "application/json" = false) ->
  parseBody req = JObj [].
Proof.
  intros H. unfold parseBody. destruct (content_type req) as [c|].
  - destruct (Str.truthy c); [rewrite (H c eq_refl); reflexivity | reflexivity].
  - reflexivity.
Qed.

(** X9. A body is read as JSON only when the [Content-Type] header
    contains [application/json]: without it the body counts for an empty
    object whatever it holds, so that a login is answered 401 even with
    the right credentials in the body, an authenticated [add-faq] 400, and
    an authenticated [upload-image] 400. *)
Theorem body_needs_the_json_content_type (cfg : Config) (inp : Inputs)
    (req : Request) (st : State) :
  (forall c, content_type req = Some c -> Str.includes c "application/json" = false) ->
  method req = "POST" ->
  (pathname req = "/api/admin/login" ->
   handle cfg inp req st
   = Some (st, sendJson 401 (error_body "Invalid credentials")))
  /\ (pathname req = "/api/admin/add-faq" ->
      snd (isAuthenticated (now inp) req st) = true ->
      handle cfg inp req st
      = Some (fst (isAuthenticated (now inp) req st),
              sendJson 400 (error_body "Invalid payload")))
  /\ (pathname req = "/api/admin/upload-image" ->
      snd (isAuthenticated (now inp) req st) = true ->
      handle cfg inp req st
      = Some (fst (isAuthenticated (now inp) req st),
              sendJson 400 (error_body "Missing images"))).
Proof.
  intros Hct Hm. pose proof (parseBody_not_json req Hct) as Hbody.
  split; [|split].
  - intros Hp. unfold handle. rewrite (route_login cfg inp req st Hm Hp).
    unfold login, bind, lift, ret. rewrite Hbody. reflexivity.
  - intros Hp Hauth. unfold handle. rewrite (route_addFaq cfg inp req st Hm Hp).
    unfold addFaq, bind, isAuthenticatedM, lift, ret.
    rewrite (surjective_pairing (isAuthenticated (now inp) req st)), Hauth, Hbody.
    reflexivity.
  - intros Hp Hauth. unfold handle. rewrite (route_uploadImage cfg inp req st Hm Hp).
    unfold uploadImage, bind, isAuthenticatedM, lift, ret.
    rewrite (surjective_pairing (isAuthenticated (now inp) req st)), Hauth, Hbody.
    reflexivity.
Qed.

(** X10. A body that is the JSON text [null] is parsed to [null], and the
    handlers read properties of it: the chat and the login are answered
    500, and so are the two admin endpoints once the token is accepted, the
    session being refreshed all the same. *)
Theorem null_body_is_a_server_error (cfg : Config) (inp : Inputs) (req : Request)
    (st : State) :
  parseBody req = JNull -> method req = "POST" ->
  (pathname req = "/api/chat" \/ pathname req = "/api/admin/login" ->
   handle cfg inp req st = Some (st, SendText 500 "Internal Server Error"))
  /\ (pathname req = "/api/admin/add-faq"
      \/ pathname req = "/api/admin/upload-image" ->
      snd (isAuthenticated (now inp) req st) = true ->
      handle cfg inp req st
      = Some (fst (isAuthenticated (now inp) req st),
              SendText 500 "Internal Server Error")).
Proof.
  intros Hbody Hm. split.
  - intros [Hp | Hp]; unfold handle.
    + rewrite (route_chat cfg inp req st Hm Hp).
      unfold chat, bind, lift. rewrite Hbody. reflexivity.
    + rewrite (route_login cfg inp req st Hm Hp).
      unfold login, bind, lift. rewrite Hbody. reflexivity.
  - intros [Hp | Hp] Hauth; unfold handle.
    + rewrite (route_addFaq cfg inp req st Hm Hp).
      unfold addFaq, bind, isAuthenticatedM, lift.
      rewrite (surjective_pairing (isAuthenticated (now inp) req st)), Hauth, Hbody.
      reflexivity.
    + rewrite (route_uploadImage cfg inp req st Hm Hp).
      unfold uploadImage, bind, isAuthenticatedM, lift.
      rewrite (surjective_pairing (isAuthenticated (now inp) req st)), Hauth, Hbody.
      reflexivity.
Qed.

(** ** Directories *)

(** X24. A request that resolves to a directory under the static root is
    answered with the [index.html] of that directory, as [text/html], when
    there is such a file; when there is none the request is not served:
    the content of a directory is never listed. *)
Theorem directory_request_serves_its_index (cfg : Config) (fs : FS)
    (pathname : string) :
  rooted cfg -> dot_free pathname ->
  let resolved := Path.resolve (cwd cfg) (Path.join [publicDir cfg; pathname]) in
  Fs.isDirectory fs resolved = true ->
  serveStatic cfg fs pathname
  = match Fs.readFileSync fs (resolved +:+ "/index.html") with
    | Ok data => Some (SendFile "text/html" data)
    | Throw => None
    end.
Proof.
  intros (segs & Hplain & Hne & Hroot) Hfree resolved Hdir.
  set (rest := List.filter kept (Str.split Path.slash pathname)).
  assert (Hrest : Forall (fun seg => plain seg = true) rest)
    by exact (kept_split_plain pathname Hfree).
  assert (Hall : Forall (fun seg => plain seg = true) (segs ++ rest))
    by (apply Forall_app; split; assumption).
  assert (Hne' : (segs ++ rest)%list <> [])
    by (destruct segs; [congruence | discriminate]).
  assert (Hres : resolved = "/" +:+ Path.join_with "/" (segs ++ rest))
    by exact (resolve_public cfg segs pathname Hplain Hne Hroot Hfree).
  assert (Hindex : Path.join [resolved; "index.html"] = resolved +:+ "/index.html").
  { rewrite Hres, (join_rooted (segs ++ rest) ["index.html"] Hall Hne')
      by (repeat constructor).
    rewrite (join_with_app (segs ++ rest) ["index.html"] Hne') by discriminate.
    rewrite !append_assoc. reflexivity. }
  assert (Hext : Path.extname (resolved +:+ "/index.html") = ".html").
  { rewrite <- Hindex, Hres,
      (join_rooted (segs ++ rest) ["index.html"] Hall Hne') by (repeat constructor).
    unfold Path.extname. rewrite basename_rooted; [reflexivity|].
    apply Forall_app. split; [exact Hall | repeat constructor]. }
  unfold serveStatic, static_target. fold resolved.
  assert (Hstart : Str.startsWith resolved (publicDir cfg) = true)
    by (rewrite Hres, Hroot; exact (startsWith_below segs rest Hne)).
  rewrite Hstart. cbn [negb].
  assert (Hex : Fs.existsSync fs resolved = true).
  { unfold Fs.existsSync, Fs.isDirectory in *.
    destruct (nodes fs !! resolved); [reflexivity | discriminate Hdir]. }
  rewrite Hex, Hdir. cbn [andb]. rewrite Hindex, Hext.
  unfold Fs.existsSync, Fs.readFileSync.
  destruct (nodes fs !! (resolved +:+ "/index.html")) as [[|data]|]; reflexivity.
Qed.

(** ** Where the files that are sent come from *)

Lemma answers_ret {A} (P : A -> Prop) (a : A) : P a -> answers P (ret a).
Proof. intros H st st' a' E. unfold ret in E. injection E as _ <-. exact H. Qed.

Lemma answers_bind {A B} (P : B -> Prop) (m : M A) (k : A -> M B) :
  (forall a, answers P (k a)) -> answers P (bind m k).
Proof.
  intros Hk st st' b. unfold bind. destruct (m st) as [st1 [a|]]; [|discriminate].
  exact (Hk a st1 st' b).
Qed.

Lemma answers_try_catch {A} (P : A -> Prop) (m handler : M A) :
  answers P m -> answers P handler -> answers P (try_catch m handler).
Proof.
  intros Hm Hh st st' a. unfold try_catch.
  destruct (m st) as [st1 [a1|]] eqn:E.
  - intros H. injection H as _ <-. exact (Hm _ _ _ E).
  - exact (Hh st1 st' a).
Qed.

Ltac answers_step :=
  first
    [ apply answers_ret; reflexivity
    | apply answers_bind; intros ?
    | apply answers_try_catch
    | match goal with
      | |- answers _ (match ?x with _ => _ end) => destruct x
      | |- answers _ (if ?x then _ else _) => destruct x
      end ].

(** The handlers of the API answer with JSON, never with a file. *)
Lemma api_sends_no_file (cfg : Config) (inp : Inputs) (req : Request) :
  answers (fun r => sends_file r = false) (chat cfg req)
  /\ answers (fun r => sends_file r = false) (login inp req)
  /\ answers (fun r => sends_file r = false) (addFaq cfg inp req)
  /\ answers (fun r => sends_file r = false) (uploadImage cfg inp req).
Proof.
  repeat split.
  - unfold chat. repeat answers_step.
  - unfold login. repeat answers_step.
  - unfold addFaq. repeat answers_step.
  - unfold uploadImage. repeat answers_step.
Qed.

Lemma admin_page_below (cfg : Config) :
  rooted cfg ->
  Str.startsWith (Path.join [publicDir cfg; "admin.html"]) (publicDir cfg +:+ "/")
  = true.
Proof.
  intros (segs & Hplain & Hne & Hroot). rewrite Hroot.
  rewrite (join_rooted segs ["admin.html"] Hplain Hne) by repeat constructor.
  rewrite (join_with_app segs ["admin.html"] Hne) by discriminate.
  unfold Str.startsWith. apply prefix_spec. exists "admin.html".
  rewrite !append_assoc. reflexivity.
Qed.

(** X23. Whatever the method and the path of a request, a file the server
    sends in answer is the content of a file at the static root or below
    it, read from the disk as it was before the request, and the request
    has changed nothing. *)
Theorem sent_files_come_from_the_static_root (cfg : Config) (inp : Inputs)
    (req : Request) (st st' : State) (contentType : string) (data : list byte) :
  rooted cfg -> dot_free (pathname req) ->
  handle cfg inp req st = Some (st', SendFile contentType data) ->
  st' = st
  /\ exists target,
       Fs.readFileSync (disk st) target = Ok data
       /\ (target = publicDir cfg
           \/ Str.startsWith target (publicDir cfg +:+ "/") = true).
Proof.
  intros Hroot Hfree. unfold handle.
  destruct (route cfg inp req st) as [[st1 [r|]]|] eqn:E; try discriminate.
  intros H. injection H as -> ->.
  destruct (api_sends_no_file cfg inp req) as (Hchat & Hlogin & Hadd & Hup).
  assert (Hstatic : forall st2 r,
             staticOrNotFound cfg req st = (st2, Ok r) ->
             r = SendFile contentType data ->
             st2 = st
             /\ exists target,
                  Fs.readFileSync (disk st) target = Ok data
                  /\ (target = publicDir cfg
                      \/ Str.startsWith target (publicDir cfg +:+ "/") = true)).
  { intros st2 r. unfold staticOrNotFound, bind, gets, ret.
    destruct (serveStatic cfg (disk st) (pathname req)) as [r'|] eqn:Es.
    - intros H. injection H as <- <-. intros ->. split; [reflexivity|].
      destruct (serveStatic_contained cfg (disk st) (pathname req) _ Hroot Hfree Es)
        as (target & ct & d & Hr & Hread & Hbelow).
      injection Hr as _ <-. exists target. split; assumption.
    - intros H. injection H as _ <-. discriminate. }
  revert E. unfold route.
  repeat match goal with
         | |- context [if ?x then _ else _] => destruct x
         end;
    try (intros E; injection E as _ E; discriminate E).
  - intros E. injection E as E. exfalso. revert E. unfold bind.
    destruct (getLocale cfg _ st) as [st2 [a|]]; [|discriminate].
    unfold ret. intros E. injection E as _ E. discriminate E.
  - destruct (suggestions (draws inp) (faqs st)) as [[r|]|] eqn:Es; try discriminate.
    intros E. injection E as _ E. exfalso. revert Es. unfold suggestions.
    rewrite E. repeat match goal with
           | |- context [match ?x with _ => _ end] => destruct x
           | |- context [if ?x then _ else _] => destruct x
           end; discriminate.
  - intros E. injection E as E. discriminate (Hchat _ _ _ E).
  - intros E. injection E as E. discriminate (Hlogin _ _ _ E).
  - intros E. injection E as E. discriminate (Hadd _ _ _ E).
  - intros E. injection E as E. discriminate (Hup _ _ _ E).
  - unfold adminPage.
    destruct (Fs.existsSync (disk st) _).
    + destruct (Fs.readFileSync (disk st) (Path.join [publicDir cfg; "admin.html"]))
        as [html|] eqn:Er; [|discriminate].
      intros E. injection E as <- _ <-. split; [reflexivity|].
      eexists. split; [exact Er|]. right. exact (admin_page_below cfg Hroot).
    + intros E. injection E as E. exact (Hstatic _ _ E eq_refl).
  - intros E. injection E as E. exact (Hstatic _ _ E eq_refl).
Qed.

(** ** The locale route *)

Lemma strip_prefix_app (p r : string) : Str.strip_prefix p (p +:+ r) = Some r.
Proof.
  induction p as [|c p IH]; [reflexivity|].
  rewrite append_cons. cbn [Str.strip_prefix]. rewrite Ascii.eqb_refl. exact IH.
Qed.

Lemma replace_prefix (pat rest : string) :
  Str.replace (pat +:+ rest) pat EmptyString = rest.
Proof.
  destruct pat as [|c pat].
  - destruct rest; reflexivity.
  - rewrite append_cons. cbn [Str.replace].
    change (Str.strip_prefix (String c pat) (String c (pat +:+ rest)))
      with (if Ascii.eqb c c then Str.strip_prefix pat (pat +:+ rest) else None).
    rewrite Ascii.eqb_refl, strip_prefix_app. reflexivity.
Qed.

Lemma replace_json_suffix (lang : string) :
  no_dot lang = true ->
  Str.replace lang ".json" EmptyString = lang
  /\ Str.replace (lang +:+ ".json") ".json" EmptyString = lang.
Proof.
  induction lang as [|c lang IH]; [split; reflexivity|].
  cbn [no_dot]. intros H. apply andb_true_iff in H. destruct H as [Hc Hl].
  apply negb_true_iff in Hc. destruct (IH Hl) as [IH1 IH2].
  assert (Hstrip : forall s, Str.strip_prefix ".json" (String c s) = None).
  { intros s. cbn [Str.strip_prefix].
    destruct (Ascii.eqb_spec "." c) as [<-|_]; [discriminate Hc | reflexivity]. }
  split.
  - cbn [Str.replace]. rewrite Hstrip, IH1. reflexivity.
  - rewrite append_cons. cbn [Str.replace]. rewrite Hstrip, IH2. reflexivity.
Qed.

(** X14. The locale route takes the language from the path, with or
    without the suffix [.json]: for a language code without dot, the
    requests [/api/locales/<lang>] and [/api/locales/<lang>.json] are both
    answered with what [getLocale(lang)] resolves to. *)
Theorem locale_route_with_or_without_suffix (cfg : Config) (inp : Inputs)
    (req : Request) (st : State) (lang : string) :
  no_dot lang = true ->
  method req = "GET" ->
  pathname req = "/api/locales/" +:+ lang
  \/ pathname req = "/api/locales/" +:+ lang +:+ ".json" ->
  handle cfg inp req st
  = Some (match getLocale cfg lang st with
          | (st', Ok localeObj) => (st', SendJson 200 localeObj)
          | (st', Throw) => (st', SendText 500 "Internal Server Error")
          end).
Proof.
  intros Hlang Hm Hp.
  destruct (replace_json_suffix lang Hlang) as [H1 H2].
  assert (Hl : Str.replace (Str.replace (pathname req) "/api/locales/" EmptyString)
                 ".json" EmptyString = lang).
  { destruct Hp as [-> | ->]; rewrite replace_prefix; assumption. }
  assert (Hs : Str.startsWith (pathname req) "/api/locales/" = true).
  { unfold Str.startsWith. apply prefix_spec.
    destruct Hp as [-> | ->]; eexists; reflexivity. }
  unfold handle, route. rewrite Hm.
  change (String.eqb "GET" "OPTIONS") with false.
  change (String.eqb "GET" "GET") with true. cbv iota.
  rewrite Hs. cbn [andb]. rewrite Hl. unfold bind, ret.
  destruct (getLocale cfg lang st) as [st' [v|]]; reflexivity.
Qed.

(** ** Suggestions in the order of the draws *)

Lemma fold_set_add_prefix (draws indices : list nat) :
  indices `prefix_of` fold_left (fun acc d => set_add d acc) draws indices.
Proof.
  revert indices. induction draws as [|d rest IH]; intros indices; [reflexivity|].
  cbn [fold_left]. etransitivity; [|apply IH].
  unfold set_add. case_bool_decide; [reflexivity | apply prefix_app_r; reflexivity].
Qed.

(** The loop of the suggestions stops with the first [count] distinct
    draws, and does not stop when the draws bring fewer. *)
Lemma sample_take (count : nat) (draws indices : list nat) :
  (length indices <= count)%nat ->
  sample count draws indices =
  let all := fold_left (fun acc d => set_add d acc) draws indices in
  if Nat.leb count (length all) then Some (take count all) else None.
Proof.
  revert indices. induction draws as [|d rest IH]; intros indices Hle;
    cbn [fold_left sample]; cbv zeta.
  - destruct (Nat.ltb_spec (length indices) count) as [Hlt|Hge].
    + destruct (Nat.leb_spec count (length indices)); [lia | reflexivity].
    + destruct (Nat.leb_spec count (length indices)); [|lia].
      rewrite take_ge by lia. reflexivity.
  - destruct (Nat.ltb_spec (length indices) count) as [Hlt|Hge].
    + apply IH. pose proof (set_add_length d indices). lia.
    + destruct (fold_set_add_prefix rest (set_add d indices)) as [more1 E1].
      assert (E : exists more,
                 fold_left (fun acc d0 => set_add d0 acc) rest (set_add d indices)
                 = (indices ++ more)%list).
      { rewrite E1. unfold set_add. case_bool_decide.
        - exists more1. reflexivity.
        - exists ([d] ++ more1)%list. rewrite <- app_assoc. reflexivity. }
      destruct E as [more ->].
      assert (count = length indices) as -> by lia.
      rewrite length_app.
      destruct (Nat.leb_spec (length indices) (length indices + length more)); [|lia].
      rewrite take_app_length. reflexivity.
Qed.

(** X16. The suggestions are the questions of the first [min(5, n)]
    distinct values among the draws, in the order in which the draws
    brought them; with no stored FAQ the answer is the empty list,
    whatever the draws. *)
Theorem suggestions_follow_the_draws (cfg : Config) (inp : Inputs) (req : Request)
    (st : State) :
  method req = "GET" -> pathname req = "/api/faqs-suggestions" ->
  let count := Nat.min 5 (length (faqs st)) in
  (count <= length (distinct_draws (draws inp)))%nat ->
  handle cfg inp req st
  = Some (st,
          match map_outcome (question_at (faqs st))
                  (take count (distinct_draws (draws inp))) with
          | Ok qs => sendJson 200 (JArr qs)
          | Throw => SendText 500 "Internal Server Error"
          end)
  /\ (faqs st = [] -> handle cfg inp req st = Some (st, sendJson 200 (JArr []))).
Proof.
  intros Hm Hp count Henough.
  assert (Hs : sample count (draws inp) []
               = Some (take count (distinct_draws (draws inp)))).
  { rewrite sample_take by (cbn; lia). cbv zeta. fold (distinct_draws (draws inp)).
    destruct (Nat.leb_spec count (length (distinct_draws (draws inp))));
      [reflexivity | lia]. }
  assert (Hh : handle cfg inp req st
               = Some (st,
                       match map_outcome (question_at (faqs st))
                               (take count (distinct_draws (draws inp))) with
                       | Ok qs => sendJson 200 (JArr qs)
                       | Throw => SendText 500 "Internal Server Error"
                       end)).
  { unfold handle, route. rewrite Hm, Hp.
    change (String.eqb "GET" "OPTIONS") with false.
    change (String.eqb "GET" "GET") with true.
    change (Str.startsWith "/api/faqs-suggestions" "/api/locales/") with false.
    change (String.eqb "/api/faqs-suggestions" "/api/faqs") with false.
    change (String.eqb "/api/faqs-suggestions" "/api/gallery") with false.
    change (String.eqb "/api/faqs-suggestions" "/api/faqs-suggestions") with true.
    cbn [andb]. unfold suggestions. fold count. rewrite Hs.
    destruct (map_outcome _ _); reflexivity. }
  split; [exact Hh|].
  intros Hnil. rewrite Hh. subst count. rewrite Hnil. reflexivity.
Qed.

(** ** Beside the locales directory *)

Lemma normalize_segments_plain (b : bool) (segs acc rest : list string) :
  Forall (fun seg => plain seg = true) segs ->
  Path.normalize_segments b acc (segs ++ rest)
  = Path.normalize_segments b (rev segs ++ acc) rest.
Proof.
  intros H. revert acc. induction H as [|seg segs Hseg _ IH]; intros acc;
    [reflexivity|].
  cbn [app Path.normalize_segments].
  pose proof (plain_kept seg Hseg) as Hk. unfold kept in Hk.
  apply negb_true_iff in Hk. rewrite Hk.
  destruct (String.eqb_spec seg "..") as [->|_]; [discriminate Hseg|].
  rewrite IH. cbn [rev]. rewrite <- app_assoc. reflexivity.
Qed.

Lemma plain_json_name (name : string) :
  no_slash name = true -> plain (name +:+ ".json") = true.
Proof.
  intros H. unfold plain. rewrite no_slash_app, H. cbn [andb no_slash].
  assert (Hlen : (5 <= String.length (name +:+ ".json"))%nat)
    by (rewrite length_append; cbn; lia).
  destruct (String.eqb_spec (name +:+ ".json") EmptyString) as [E|_];
    [rewrite E in Hlen; cbn in Hlen; lia|].
  destruct (String.eqb_spec (name +:+ ".json") ".") as [E|_];
    [rewrite E in Hlen; cbn in Hlen; lia|].
  destruct (String.eqb_spec (name +:+ ".json") "..") as [E|_];
    [rewrite E in Hlen; cbn in Hlen; lia|].
  reflexivity.
Qed.

(** The path of the locale document for a language that starts with
    [../]: a document of the data directory itself. *)
Lemma localePath_parent (cfg : Config) (dsegs : list string) (name : string) :
  Forall (fun seg => plain seg = true) dsegs -> dsegs <> [] ->
  dirname cfg = "/" +:+ Path.join_with "/" dsegs ->
  no_slash name = true ->
  localePath cfg ("../" +:+ name) = Path.join [dataDir cfg; name +:+ ".json"].
Proof.
  intros Hplain Hne Hdir Hname.
  pose proof (plain_data dsegs Hplain) as Hdata.
  pose proof (dataDir_rooted cfg dsegs Hplain Hne Hdir) as Hroot.
  pose proof (plain_json_name name Hname) as Hnm.
  assert (Hne' : (dsegs ++ ["data"])%list <> []) by (destruct dsegs; discriminate).
  rewrite Hroot, (join_rooted _ [name +:+ ".json"] Hdata Hne')
    by (repeat constructor; exact Hnm).
  unfold localePath. rewrite Hroot. unfold Path.join.
  cbn [List.filter]. change (Str.truthy ("/" +:+ ?x)) with true.
  change (Str.truthy "locales") with true.
  change (Str.truthy (("../" +:+ name) +:+ ".json")) with true. cbv iota.
  set (root := "/" +:+ Path.join_with "/" (dsegs ++ ["data"])).
  assert (E : Path.join_with "/" [root; "locales"; ("../" +:+ name) +:+ ".json"]
              = root +:+ String Path.slash
                  (Path.join_with "/" ["locales"; ".."; name +:+ ".json"])).
  { cbn [Path.join_with]. rewrite !append_assoc. reflexivity. }
  rewrite E.
  set (nm := name +:+ ".json") in *.
  set (s := root +:+ String Path.slash (Path.join_with "/" ["locales"; ".."; nm])).
  assert (Hs : Str.split Path.slash (Path.join_with "/" ["locales"; ".."; nm])
               = ["locales"; ".."; nm]).
  { apply split_join; [|discriminate].
    repeat constructor. exact (plain_no_slash nm Hnm). }
  assert (Hnorm : Path.normalizeString s false
                  = Path.join_with "/" ((dsegs ++ ["data"]) ++ [nm])).
  { unfold Path.normalizeString, s. rewrite split_app_sep. unfold root.
    rewrite (split_root _ Hdata Hne'), Hs.
    change (Path.normalize_segments false []
              ((EmptyString :: dsegs ++ ["data"]) ++ ["locales"; ".."; nm]))
      with (Path.normalize_segments false []
              ((dsegs ++ ["data"]) ++ ["locales"; ".."; nm])).
    rewrite (normalize_segments_plain false _ [] _ Hdata), app_nil_r.
    change (Path.normalize_segments false (rev (dsegs ++ ["data"]))
              ["locales"; ".."; nm])
      with (Path.normalize_segments false (rev (dsegs ++ ["data"])) [nm]).
    cbn [Path.normalize_segments].
    pose proof (plain_kept _ Hnm) as Hk. unfold kept in Hk.
    apply negb_true_iff in Hk. rewrite Hk.
    destruct (String.eqb_spec nm "..") as [E2|_];
      [rewrite E2 in Hnm; discriminate Hnm|].
    cbn [rev]. rewrite List.rev_involutive. reflexivity. }
  assert (Hend : Str.endsWith s "/" = false).
  { unfold s.
    change (root +:+ String Path.slash (Path.join_with "/" ["locales"; ".."; nm]))
      with (root +:+ "/locales/../" +:+ nm).
    rewrite <- append_assoc.
    rewrite (endsWith_slash_app _ _ (plain_truthy _ Hnm)).
    exact (endsWith_no_slash _ (plain_no_slash _ Hnm)). }
  unfold Path.normalize.
  change (String.eqb s EmptyString) with false.
  change (Path.isAbsolute s) with true. cbn [negb]. cbv iota zeta.
  rewrite Hnorm, Hend, (segs_joined_truthy _ Hdata Hne' [nm]). reflexivity.
Qed.

(** X15. The locale route removes the first [.json] of what follows
    [/api/locales/], and this can leave a [..] where the path had none: a
    request for [/api/locales/..json./<name>] makes [getLocale] read the
    document [<name>.json] of the data directory, beside the locales
    directory, and is answered with its content. *)
Theorem locale_route_reaches_the_data_directory (cfg : Config) (inp : Inputs)
    (req : Request) (st : State) (dsegs : list string) (name : string) :
  Forall (fun seg => plain seg = true) dsegs -> dsegs <> [] ->
  dirname cfg = "/" +:+ Path.join_with "/" dsegs ->
  no_slash name = true ->
  method req = "GET" -> pathname req = "/api/locales/..json./" +:+ name ->
  let lang := "../" +:+ name in
  let document := Path.join [dataDir cfg; name +:+ ".json"] in
  localePath cfg lang = document
  /\ handle cfg inp req st
     = Some (match getLocale cfg lang st with
             | (st', Ok localeObj) => (st', SendJson 200 localeObj)
             | (st', Throw) => (st', SendText 500 "Internal Server Error")
             end)
  /\ (forall data obj,
        cache_hit st lang = None ->
        Fs.readFile (disk st) document = ReadData data ->
        Json.parse (Fs.decode data) = Some obj ->
        handle cfg inp req st
        = Some (set_localesCache (<[lang := obj]> (localesCache st)) st,
                SendJson 200 (VJson obj))).
Proof.
  intros Hplain Hne Hdir Hname Hm Hp lang document.
  pose proof (localePath_parent cfg dsegs name Hplain Hne Hdir Hname) as Hpath.
  fold lang in Hpath. fold document in Hpath.
  assert (Hh : handle cfg inp req st
               = Some (match getLocale cfg lang st with
                       | (st', Ok localeObj) => (st', SendJson 200 localeObj)
                       | (st', Throw) => (st', SendText 500 "Internal Server Error")
                       end)).
  { unfold handle, route. rewrite Hm, Hp.
    change (String.eqb "GET" "OPTIONS") with false.
    change (String.eqb "GET" "GET") with true. cbv iota.
    change (Str.startsWith ("/api/locales/..json./" +:+ name) "/api/locales/")
      with true.
    cbn [andb].
    change ("/api/locales/..json./" +:+ name)
      with ("/api/locales/" +:+ ("..json./" +:+ name)).
    rewrite replace_prefix.
    change (Str.replace ("..json./" +:+ name) ".json" EmptyString) with lang.
    unfold bind, ret.
    destruct (getLocale cfg lang st) as [st' [v|]]; reflexivity. }
  split; [exact Hpath|]. split; [exact Hh|].
  intros data obj Hmiss Hread Hparse. rewrite Hh.
  unfold getLocale. cbn [getLocale_fuel]. rewrite Hmiss, Hpath, Hread, Hparse.
  reflexivity.
Qed.

(** ** Who passes [isAuthenticated] *)

Lemma split_one (sep : ascii) (s b : string) : Str.split sep s = [b] -> s = b.
Proof.
  revert b. induction s as [|c s IH]; intros b; cbn [Str.split].
  - intros H. injection H as <-. reflexivity.
  - destruct (Ascii.eqb c sep).
    { intros H. injection H as _ H. exfalso. exact (split_nonempty sep s H). }
    destruct (Str.split sep s) as [|w [|w' ws]] eqn:Es; try discriminate.
    + exfalso. exact (split_nonempty sep s Es).
    + intros H. injection H as <-. rewrite (IH w eq_refl). reflexivity.
Qed.

Lemma split_two (sep : ascii) (s a b : string) :
  Str.split sep s = [a; b] -> s = a +:+ String sep b /\ Str.split sep b = [b].
Proof.
  revert a. induction s as [|c s IH]; intros a; cbn [Str.split]; [discriminate|].
  destruct (Ascii.eqb_spec c sep) as [->|Hne].
  - intros H. injection H as <- H.
    pose proof (split_one sep s b H) as E. subst s.
    split; [reflexivity | exact H].
  - destruct (Str.split sep s) as [|w ws] eqn:Es; [discriminate|].
    intros H. injection H as <- ->.
    destruct (IH w eq_refl) as [-> Hb]. split; [reflexivity | exact Hb].
Qed.

(** X6. [isAuthenticated] lets a request pass only with a header that is
    [Bearer], one space and a token without space, the token being a key
    under which [sessions[token]] finds something, and, when that is a
    session of the registry, one whose time stamp is not older than 24
    hours: a request without header, with another scheme, with a second
    space or with an unknown token is refused. *)
Theorem only_a_bearer_token_passes (now : Z) (req : Request) (st : State) :
  snd (isAuthenticated now req st) = true ->
  exists token r,
    authorization req = Some ("Bearer " +:+ token)
    /\ Str.split " " token = [token]
    /\ sessions_get st token = Some r
    /\ (forall s, r = Own s -> now - timestamp s <= DAY).
Proof.
  unfold isAuthenticated.
  destruct (authorization req) as [auth|]; [|discriminate].
  destruct (negb (Str.truthy auth)); [discriminate|].
  destruct (Str.split " " auth) as [|scheme [|token [|? ?]]] eqn:Es;
    try discriminate.
  destruct (String.eqb_spec scheme "Bearer") as [->|_]; [|discriminate].
  cbn [negb].
  destruct (sessions_get st token) as [r|] eqn:Eg; [|discriminate].
  destruct (truthy_ref r) eqn:Et; [|discriminate]. cbn [negb].
  destruct (expired now (read_timestamp st r)) eqn:Ee; [discriminate|].
  intros _. exists token, r.
  destruct (split_two " " auth "Bearer" token Es) as [-> Htoken].
  split; [reflexivity|]. split; [exact Htoken|]. split; [exact Eg|].
  intros s ->. cbn [read_timestamp expired] in Ee.
  apply Z.ltb_ge in Ee. exact Ee.
Qed.

(** * Instances *)

Lemma plain_srv_marisk : Forall (fun seg => plain seg = true) ["srv"; "marisk"].
Proof. repeat constructor. Qed.

Lemma collections_only_grow_witness :
  exists st',
    handle cfg0 inp0 req_add st_admin
    = Some (st', sendJson 200 (JObj [("success", JBool true)]))
    /\ faqs st_admin `prefix_of` faqs st'
    /\ gallery st_admin `prefix_of` gallery st'.
Proof.
  eexists. split; [reflexivity|].
  apply (collections_only_grow cfg0).
  exact (runs_request cfg0 inp0 req_add st_admin _ _ _ eq_refl (runs_refl cfg0 _)).
Defined.

Lemma cached_locale_is_never_refreshed_witness :
  localesCache (set_disk fs_sibling st_chat) !! "en"
  = Some (JObj [("greeting", JStr "Hello")])
  /\ getLocale cfg0 "en" (set_disk fs_sibling st_chat)
     = (set_disk fs_sibling st_chat, Ok (VJson (JObj [("greeting", JStr "Hello")]))).
Proof.
  apply (cached_locale_is_never_refreshed cfg0 st_chat);
    [apply (runs_disk cfg0 fs_sibling), runs_refl | reflexivity | reflexivity].
Defined.

Lemma writes_need_authentication_witness :
  faqs st_admin = faqs st_admin /\ gallery st_admin = gallery st_admin
  /\ disk st_admin = disk st_admin.
Proof.
  apply (writes_need_authentication cfg0 inp0 req_add_anonymous st_admin st_admin
           (sendJson 403 (error_body "Unauthorized")));
    [reflexivity | left; reflexivity].
Defined.

Lemma saved_image_is_served_witness :
  exists kind payload,
    pattern_exec uri_with_stars = Ok (Some (kind, payload))
    /\ serveStatic cfg0
         (disk (fst (saveImage cfg0 1001 [x01; x02; x03; x04] uri_with_stars
                       "before" st_admin)))
         ("/" +:+ "assets/img/before-1001-01020304.jpg")
       = Some (SendFile ("image/" +:+ kind) (Base64.decode payload)).
Proof.
  apply (saved_image_is_served cfg0 1001 [x01; x02; x03; x04] uri_with_stars
           "before" "assets/img/before-1001-01020304.jpg" st_admin);
    [exact cfg0_rooted | left; reflexivity | reflexivity].
Defined.

Lemma upload_stores_pair_witness :
  exists st',
    handle cfg0 inp0 req_upload_pair st_admin
    = Some (st',
            sendJson 200
              (JObj [("success", JBool true);
                     ("entry",
                      gallery_entry "assets/img/before-1001-01020304.png"
                        "assets/img/after-1002-05060708.jpg"
                        (Some (JStr "Garden")) None)]))
    /\ Fs.readFileSync (disk st')
         "/srv/marisk/public/assets/img/after-1002-05060708.jpg"
       = Ok (Fs.encode "hello")
    /\ exists data,
         Fs.readFileSync (disk st') (galleryPath cfg0) = Ok data
         /\ Json.parse (Fs.decode data) = Some (JArr (gallery st')).
Proof.
  destruct (upload_stores_pair cfg0 inp0 req_upload_pair st_admin ["srv"; "marisk"]
              (JStr "data:image/png;base64,iVBORw0KGgo=")
              (JStr "data:image/jpeg;base64,aGVsbG8=") "png" "iVBORw0KGgo="
              plain_srv_marisk ltac:(discriminate) eq_refl eq_refl eq_refl eq_refl
              eq_refl eq_refl eq_refl "jpeg" "aGVsbG8=" eq_refl eq_refl eq_refl
              eq_refl eq_refl)
    as (st' & Hh & _ & _ & _ & Ha & data & Hread & Hparse).
  exists st'. split; [exact Hh|]. split; [exact Ha|].
  exists data. split; [exact Hread | exact (Hparse eq_refl eq_refl)].
Defined.

Lemma upload_failure_is_not_rolled_back_witness :
  exists st',
    handle cfg0 inp0 req_upload_pair st_gallery_readonly
    = Some (st', sendJson 500 (error_body "Failed to save images"))
    /\ length (gallery st') = 1%nat
    /\ Fs.readFileSync (disk st') (galleryPath cfg0) = Throw.
Proof.
  destruct (upload_failure_is_not_rolled_back cfg0 inp0 req_upload_pair
              st_gallery_readonly ["srv"; "marisk"]
              (JStr "data:image/png;base64,iVBORw0KGgo=")
              (JStr "data:image/jpeg;base64,aGVsbG8=") "png" "iVBORw0KGgo="
              plain_srv_marisk ltac:(discriminate) eq_refl eq_refl eq_refl eq_refl
              eq_refl eq_refl eq_refl "jpeg" "aGVsbG8=" eq_refl eq_refl eq_refl
              eq_refl)
    as (st' & Hh & Hg & _ & _ & _ & Hd).
  exists st'. split; [exact Hh|]. split; [rewrite Hg; reflexivity|].
  rewrite Hd. reflexivity.
Defined.

Lemma upload_leaves_first_image_behind_witness :
  exists st',
    handle cfg0 inp0 req_upload_second_gif st_admin
    = Some (st', sendJson 400 (error_body "Invalid image data"))
    /\ gallery st' = []
    /\ Fs.existsSync (disk st')
         "/srv/marisk/public/assets/img/before-1001-01020304.png" = true.
Proof.
  destruct (upload_leaves_first_image_behind cfg0 inp0 req_upload_second_gif
              st_admin ["srv"; "marisk"]
              (JStr "data:image/png;base64,iVBORw0KGgo=")
              (JStr "data:image/gif;base64,R0lGODlh") "png" "iVBORw0KGgo="
              plain_srv_marisk ltac:(discriminate) eq_refl eq_refl eq_refl eq_refl
              eq_refl eq_refl eq_refl eq_refl eq_refl (Ok None)
              (or_introl eq_refl) eq_refl)
    as (st' & Hh & Hg & Hb & _).
  exists st'. split; [exact Hh|]. split; [exact Hg|].
  unfold Fs.existsSync. unfold Fs.readFileSync in Hb.
  change (Path.join [publicDir cfg0; "assets"; "img";
                     image_filename "before" (nowBefore inp0) (randomBefore inp0)
                       (if String.eqb "png" "jpeg" then "jpg" else "png")])
    with "/srv/marisk/public/assets/img/before-1001-01020304.png" in Hb.
  destruct (nodes (disk st') !! "/srv/marisk/public/assets/img/before-1001-01020304.png");
    [reflexivity | discriminate Hb].
Defined.

Lemma console_login_then_add_faq_witness :
  exists st1 st2,
    handle cfg0 inp0 (login_form " admin " "admin") st_empty
    = Some (st1, sendJson 200 (JObj [("token", JStr "00ff")]))
    /\ handle cfg0 inp_later
         (post_json "/api/admin/add-faq" (Some "00ff")
            (JObj [("question", JStr "Opening hours?"); ("answer", JStr "9 to 5")]))
         st1
       = Some (st2, sendJson 200 (JObj [("success", JBool true)]))
    /\ faqs st2 = [faq_entry "Opening hours?" "9 to 5"].
Proof.
  exact (console_login_then_add_faq cfg0 inp0 inp_later st_empty " admin " "admin"
           "  Opening hours? " "9 to 5" _ eq_refl eq_refl eq_refl ltac:(vm_compute; discriminate)).
Defined.

Lemma login_checks_credentials_witness :
  handle cfg0 inp0 req_login st_empty
  = Some (set_sessions (<["00ff" := {| timestamp := 1000 |}]> ∅) st_empty,
          sendJson 200 (JObj [("token", JStr "00ff")]))
  /\ handle cfg0 inp0 req_login_plain st_empty
     = Some (st_empty, sendJson 401 (error_body "Invalid credentials")).
Proof.
  split.
  - apply (proj1 (login_checks_credentials cfg0 inp0 req_login st_empty
                    (Some (JStr "admin")) (Some (JStr "admin"))
                    eq_refl eq_refl eq_refl eq_refl)).
    split; reflexivity.
  - apply (proj2 (login_checks_credentials cfg0 inp0 req_login_plain st_empty
                    None None eq_refl eq_refl eq_refl eq_refl)).
    intros [H _]. discriminate H.
Defined.

Lemma restart_restores_the_faqs_witness :
  exists st',
    handle cfg0 inp0 req_add st_admin
    = Some (st', sendJson 200 (JObj [("success", JBool true)]))
    /\ option_map faqs (loadData cfg0 (disk st'))
       = Some [faq_entry "Q1" "A1"; faq_entry "Opening hours?" "9 to 5"]
    /\ option_map sessions (loadData cfg0 (disk st')) = Some ∅.
Proof.
  destruct (restart_restores_the_faqs cfg0 inp0 req_add st_admin
              "  Opening hours? " "9 to 5"
              eq_refl eq_refl eq_refl eq_refl eq_refl eq_refl eq_refl eq_refl
              eq_refl eq_refl)
    as (st' & Hh & Hf & Hload).
  exists st'. split; [exact Hh|]. rewrite Hload, Hf.
  assert (Hg : load_collection (disk st') (galleryPath cfg0) = Some []).
  { injection Hh as <-. reflexivity. }
  rewrite Hg. split; reflexivity.
Defined.

Lemma st_fresh_reachable : reachable cfg0 st_fresh.
Proof. apply (reachable_start cfg0 fs_sibling). reflexivity. Qed.

Lemma listed_collections_parse_back_witness :
  exists v,
    handle cfg0 inp0 (get_request "/api/faqs") st_fresh
    = Some (st_fresh, SendJson 200 v)
    /\ sendJson_body no_pollution v = "[]"
    /\ Json.parse (sendJson_body no_pollution v) = Some (JArr []).
Proof.
  destruct (proj1 (listed_collections_parse_back cfg0 inp0 (get_request "/api/faqs")
                     st_fresh st_fresh_reachable eq_refl) eq_refl)
    as (v & Hh & Hp).
  exists v. split; [exact Hh|]. split; [|exact (Hp eq_refl)].
  injection Hh as <-. reflexivity.
Defined.

Lemma inherited_name_passes_for_a_token_witness :
  sessions st_fresh = ∅
  /\ snd (isAuthenticated 1000 req_add_constructor st_fresh) = true
  /\ exists st',
       handle cfg0 inp0 req_add_constructor st_fresh
       = Some (st', sendJson 200 (JObj [("success", JBool true)]))
       /\ faqs st' = [faq_entry "Opening hours?" "9 to 5"].
Proof.
  exact (inherited_name_passes_for_a_token cfg0 fs_sibling st_fresh inp0
           req_add_constructor "constructor" "  Opening hours? " "9 to 5"
           eq_refl ltac:(left) eq_refl eq_refl eq_refl eq_refl eq_refl eq_refl
           eq_refl).
Defined.

Lemma expired_token_stays_refused_witness :
  snd (isAuthenticated (DAY + 1) (bearer "00ff") st_session) = false
  /\ isAuthenticated 5 (bearer "00ff")
       (fst (isAuthenticated (DAY + 1) (bearer "00ff") st_session))
     = (fst (isAuthenticated (DAY + 1) (bearer "00ff") st_session), false).
Proof.
  apply (expired_token_stays_refused cfg0 (DAY + 1) 5 (bearer "00ff") st_session
           (fst (isAuthenticated (DAY + 1) (bearer "00ff") st_session))
           [x00; xff] {| timestamp := 0 |} eq_refl eq_refl
           ltac:(vm_compute; reflexivity)).
  apply (without_request "00ff" cfg0 inp0 req_list
           (fst (isAuthenticated (DAY + 1) (bearer "00ff") st_session))
           (fst (isAuthenticated (DAY + 1) (bearer "00ff") st_session))
           (sendJson 200 (JArr []))).
  - intros Hm. discriminate Hm.
  - reflexivity.
  - apply without_refl.
Defined.

Lemma stored_faqs_stay_well_formed_witness :
  exists st',
    handle cfg0 inp0 req_add st_admin
    = Some (st', sendJson 200 (JObj [("success", JBool true)]))
    /\ Forall faq_ok (faqs st').
Proof.
  eexists. split; [reflexivity|].
  apply (stored_faqs_stay_well_formed cfg0 st_admin).
  - exact (runs_request cfg0 inp0 req_add st_admin _ _ _ eq_refl (runs_refl cfg0 _)).
  - repeat constructor. exists "Q1", "A1". repeat split.
Defined.

Lemma chat_answers_with_the_first_match_witness :
  exists a,
    field (faq_entry "hello world" "A2") "answer" = Ok (Some (JStr a))
    /\ handle cfg0 inp0 req_chat_hello st_chat
       = Some (st_chat, sendJson 200 (JObj [("answer", JStr a)])).
Proof.
  apply (chat_answers_with_the_first_match cfg0 inp0 req_chat_hello st_chat
           (Some (JStr "HELLO WORLD")) (Some (JStr "en")) "HELLO WORLD" "en"
           (faq_entry "hello world" "A2")
           eq_refl eq_refl eq_refl eq_refl eq_refl eq_refl eq_refl).
  - repeat constructor; eexists _, _; repeat split.
  - left. exists [faq_entry "Q1" "A1"], []. split; [reflexivity|]. split.
    + exists "hello world". split; reflexivity.
    + constructor; [|constructor]. intros (q & Hq & He).
      injection Hq as <-. discriminate He.
Defined.

Lemma chat_answer_is_never_empty_witness :
  sendJson 200 (JObj [("answer", JStr default_answer)])
  = SendText 500 "Internal Server Error"
  \/ exists a,
       sendJson 200 (JObj [("answer", JStr default_answer)])
       = sendJson 200 (JObj [("answer", a)])
       /\ Json.truthy a = true.
Proof.
  exact (chat_answer_is_never_empty cfg0 inp0 req_chat st_chat st_chat _
           eq_refl eq_refl eq_refl).
Defined.

Lemma chat_falls_back_to_the_english_text_witness :
  handle cfg0 inp0 req_chat_de st_locales
  = Some (set_localesCache
            (<["en" := JObj [("chat_no_answer", JStr "Sorry")]]>
               (localesCache st_locales)) st_locales,
          sendJson 200 (JObj [("answer", JStr "Sorry")])).
Proof.
  apply (chat_falls_back_to_the_english_text cfg0 inp0 req_chat_de st_locales
           (Some (JStr "Liefern Sie?")) (Some (JStr "de")) "Liefern Sie?" "de"
           (Fs.encode (Json.stringify2 (JObj [("chat_no_answer", JStr "Sorry")])))
           [("chat_no_answer", JStr "Sorry")] "Sorry"
           eq_refl eq_refl eq_refl eq_refl eq_refl eq_refl eq_refl
           ltac:(discriminate) eq_refl eq_refl eq_refl eq_refl eq_refl eq_refl
           eq_refl).
Defined.

Lemma body_needs_the_json_content_type_witness :
  handle cfg0 inp0 req_login_plain st_empty
  = Some (st_empty, sendJson 401 (error_body "Invalid credentials")).
Proof.
  apply (proj1 (body_needs_the_json_content_type cfg0 inp0 req_login_plain st_empty
                  (fun c H => f_equal (fun o => match o with
                                                | Some c' => Str.includes c' "application/json"
                                                | None => false
                                                end) (eq_sym H))
                  eq_refl)).
  reflexivity.
Defined.

Lemma null_body_is_a_server_error_witness :
  handle cfg0 inp0 req_chat_null st_chat
  = Some (st_chat, SendText 500 "Internal Server Error").
Proof.
  apply (proj1 (null_body_is_a_server_error cfg0 inp0 req_chat_null st_chat
                  eq_refl eq_refl)).
  left. reflexivity.
Defined.

Lemma dot_free_root : dot_free "/".
Proof.
  unfold dot_free. cbn. intros H.
  repeat (apply elem_of_cons in H; destruct H as [H|H]; [discriminate H|]).
  inversion H.
Qed.

Lemma directory_request_serves_its_index_witness :
  serveStatic cfg0 fs_sibling "/"
  = Some (SendFile "text/html" (Fs.encode "<h1>Marisk</h1>")).
Proof.
  exact (directory_request_serves_its_index cfg0 fs_sibling "/" cfg0_rooted
           dot_free_root eq_refl).
Defined.

Lemma locale_route_with_or_without_suffix_witness :
  handle cfg0 inp0 (get_request "/api/locales/en.json") st_locales
  = handle cfg0 inp0 (get_request "/api/locales/en") st_locales.
Proof.
  rewrite (locale_route_with_or_without_suffix cfg0 inp0
             (get_request "/api/locales/en.json") st_locales "en"
             eq_refl eq_refl (or_intror eq_refl)).
  rewrite (locale_route_with_or_without_suffix cfg0 inp0
             (get_request "/api/locales/en") st_locales "en"
             eq_refl eq_refl (or_introl eq_refl)).
  reflexivity.
Defined.

Lemma suggestions_follow_the_draws_witness :
  handle cfg0 inp_draws req_suggest st_three
  = Some (st_three, sendJson 200 (JArr [JStr "Q3"; JStr "Q1"; JStr "Q2"])).
Proof.
  apply (suggestions_follow_the_draws cfg0 inp_draws req_suggest st_three
           eq_refl eq_refl).
  vm_compute. repeat constructor.
Defined.

Lemma sent_files_come_from_the_static_root_witness :
  st_fresh = st_fresh
  /\ exists target,
       Fs.readFileSync (disk st_fresh) target = Ok (Fs.encode "<h1>Marisk</h1>")
       /\ (target = publicDir cfg0
           \/ Str.startsWith target (publicDir cfg0 +:+ "/") = true).
Proof.
  exact (sent_files_come_from_the_static_root cfg0 inp0 (get_request "/")
           st_fresh st_fresh "text/html" (Fs.encode "<h1>Marisk</h1>")
           cfg0_rooted dot_free_root eq_refl).
Defined.

Lemma locale_route_reaches_the_data_directory_witness :
  localePath cfg0 "../faqs" = faqsPath cfg0
  /\ handle cfg0 inp0 (get_request "/api/locales/..json./faqs") st_fresh
     = Some (set_localesCache (<["../faqs" := JArr []]> ∅) st_fresh,
             SendJson 200 (VJson (JArr []))).
Proof.
  destruct (locale_route_reaches_the_data_directory cfg0 inp0
              (get_request "/api/locales/..json./faqs") st_fresh ["srv"; "marisk"]
              "faqs" plain_srv_marisk ltac:(discriminate) eq_refl eq_refl eq_refl
              eq_refl)
    as (Hpath & _ & Hserved).
  split; [exact Hpath|].
  exact (Hserved (Fs.encode "[]") (JArr []) eq_refl eq_refl eq_refl).
Defined.

Lemma only_a_bearer_token_passes_witness :
  exists token r,
    authorization (bearer "00ff") = Some ("Bearer " +:+ token)
    /\ Str.split " " token = [token]
    /\ sessions_get st_session token = Some r
    /\ (forall s, r = Own s -> 1000 - timestamp s <= DAY).
Proof.
  exact (only_a_bearer_token_passes 1000 (bearer "00ff") st_session eq_refl).
Defined.
